(** * Frame presentation core of the Vulkan engine: swap chain and renderer

    A shallow embedding of [lve::LveSwapChain] (lve_swap_chain.hpp/.cpp),
    [lve::LveRenderer] (lve_renderer.hpp/.cpp), [lve::LveWindow] and the two
    [lve::LveDevice] helpers the swap chain calls, followed by the properties
    of the frame protocol that are proved about them.

    Conventions.
    - Fixed-width integers are [Z] with the wrap-around written out
      ([wrap32], [wrap64]); Vulkan handles are [N], [VK_NULL_HANDLE] is [0].
    - [std::vector] is [list]; [v[i]] is a lookup that is undefined behaviour
      out of range ([at_]), [v.resize(n)] is [resize].
    - Every method is a computation in the monad [M S]: it takes the state
      (the Vulkan world and the object) and returns either a value with the
      new state or a [Fault]: a thrown [std::runtime_error], a failed
      [assert], undefined behaviour, or a wait that never returns.
    - The Vulkan driver, the GPU and the window system are the environment:
      a [Driver] gives the answer of the call made at each tick, the world
      records every call in order. *)

From Stdlib Require Import ZArith Lia Bool.
From stdpp Require Import base option list gmap strings pretty.

Local Open Scope Z_scope.

(* ===================================================================== *)
(** ** Outcomes and the state-and-fault monad *)
(* ===================================================================== *)

Inductive Fault : Type :=
| RuntimeError (what : string)       (* throw std::runtime_error(what) *)
| AssertionFailure (what : string)   (* assert(cond && what) with cond false *)
| UndefinedBehaviour (why : string)  (* out-of-range [], null dereference, invalid API usage *)
| Blocked (why : string).            (* a wait with infinite timeout that never returns *)

Inductive Outcome (A : Type) : Type :=
| Ok (a : A)
| Fail (f : Fault).
Arguments Ok {A} a.
Arguments Fail {A} f.

Definition M (St A : Type) : Type := St -> Outcome (A * St).

Definition ret {St A} (a : A) : M St A := fun s => Ok (a, s).

Definition bind {St A B} (m : M St A) (k : A -> M St B) : M St B :=
  fun s => match m s with
           | Ok (a, s') => k a s'
           | Fail f => Fail f
           end.

Definition get {St} : M St St := fun s => Ok (s, s).
Definition modify {St} (f : St -> St) : M St unit := fun s => Ok (tt, f s).
Definition fail {St A} (f : Fault) : M St A := fun _ => Fail f.

Definition throw {St A} (what : string) : M St A := fail (RuntimeError what).
Definition undefined {St A} (why : string) : M St A := fail (UndefinedBehaviour why).

(** [assert(cond && what)] of <cassert>; the sources never define NDEBUG. *)
Definition assert {St} (cond : bool) (what : string) : M St unit :=
  if cond then ret tt else fail (AssertionFailure what).

Declare Scope m_scope.
Delimit Scope m_scope with m.
Notation "x <- m ;; k" := (bind m (fun x => k))
  (at level 100, m at level 99, k at level 200, right associativity) : m_scope.
Notation "m ;;; k" := (bind m (fun _ => k))
  (at level 100, k at level 200, right associativity) : m_scope.
Local Open Scope m_scope.

(** Run a computation of the world beside an object. *)
Definition onFst {W X A} (m : M W A) : M (W * X) A :=
  fun s => match m (fst s) with
           | Ok (a, w') => Ok (a, (w', snd s))
           | Fail f => Fail f
           end.

(** [for (i = 0; i < n; i++) body(i)], counting up from [i]. *)
Fixpoint forRange {St} (n : nat) (i : nat) (body : nat -> M St unit) : M St unit :=
  match n with
  | O => ret tt
  | S n' => body i ;;; forRange n' (S i) body
  end.

(* ===================================================================== *)
(** ** Machine integers, vectors *)
(* ===================================================================== *)

Definition UINT32_MAX : Z := 4294967295.
Definition INT_MAX : Z := 2147483647.
Definition wrap32 (z : Z) : Z := z mod 2 ^ 32.
Definition wrap64 (z : Z) : Z := z mod 2 ^ 64.

(** [v[i]] for a vector and a (converted to size_t) index. *)
Definition nth_Z {A} (v : list A) (i : Z) : option A :=
  if i <? 0 then None else v !! Z.to_nat i.

Definition at_ {St A} (v : list A) (i : Z) : M St A :=
  match nth_Z v i with
  | Some a => ret a
  | None => undefined "vector subscript out of range"
  end.

(** [v.resize(n, x)]: keep the first [n] elements, pad with [x]. *)
Definition resize {A} (n : nat) (x : A) (v : list A) : list A :=
  take n v ++ replicate (n - length v)%nat x.

(* ===================================================================== *)
(** ** Vulkan: values *)
(* ===================================================================== *)

Definition handle : Type := N.
Definition VK_NULL_HANDLE : handle := 0%N.

Definition VkResult : Type := Z.
Definition VK_SUCCESS : VkResult := 0.
Definition VK_NOT_READY : VkResult := 1.
Definition VK_TIMEOUT : VkResult := 2.
Definition VK_ERROR_DEVICE_LOST : VkResult := -4.
Definition VK_SUBOPTIMAL_KHR : VkResult := 1000001003.
Definition VK_ERROR_OUT_OF_DATE_KHR : VkResult := -1000001004.

Definition VkFormat : Type := Z.
Definition VK_FORMAT_B8G8R8A8_SRGB : VkFormat := 50.
Definition VK_FORMAT_D32_SFLOAT : VkFormat := 126.
Definition VK_FORMAT_D24_UNORM_S8_UINT : VkFormat := 129.
Definition VK_FORMAT_D32_SFLOAT_S8_UINT : VkFormat := 130.

Definition VK_COLOR_SPACE_SRGB_NONLINEAR_KHR : Z := 0.

Definition VkPresentModeKHR : Type := Z.
Definition VK_PRESENT_MODE_MAILBOX_KHR : VkPresentModeKHR := 1.
Definition VK_PRESENT_MODE_FIFO_KHR : VkPresentModeKHR := 2.

Definition VK_IMAGE_TILING_OPTIMAL : Z := 0.
Definition VK_IMAGE_TILING_LINEAR : Z := 1.
Definition VK_FORMAT_FEATURE_DEPTH_STENCIL_ATTACHMENT_BIT : Z := 512.
Definition VK_MEMORY_PROPERTY_DEVICE_LOCAL_BIT : Z := 1.
Definition VK_PIPELINE_STAGE_COLOR_ATTACHMENT_OUTPUT_BIT : Z := 1024.
Definition VK_SHARING_MODE_EXCLUSIVE : Z := 0.
Definition VK_SHARING_MODE_CONCURRENT : Z := 1.
Definition VK_IMAGE_ASPECT_COLOR_BIT : Z := 1.
Definition VK_IMAGE_ASPECT_DEPTH_BIT : Z := 2.

Record VkExtent2D : Type := { width : Z; height : Z }.

Record VkSurfaceFormatKHR : Type := { format : VkFormat; colorSpace : Z }.

Record VkSurfaceCapabilitiesKHR : Type := {
  minImageCount : Z;
  maxImageCount : Z;
  currentExtent : VkExtent2D;
  minImageExtent : VkExtent2D;
  maxImageExtent : VkExtent2D;
  currentTransform : Z
}.

Record VkFormatProperties : Type := {
  linearTilingFeatures : Z;
  optimalTilingFeatures : Z
}.

Record VkMemoryRequirements : Type := { memSize : Z; memoryTypeBits : Z }.

(** lve_device.hpp *)
Record SwapChainSupportDetails : Type := {
  capabilities : VkSurfaceCapabilitiesKHR;
  formats : list VkSurfaceFormatKHR;
  presentModes : list VkPresentModeKHR
}.

Record QueueFamilyIndices : Type := {
  graphicsFamily : Z;
  presentFamily : Z;
  graphicsFamilyHasValue : bool;
  presentFamilyHasValue : bool
}.

Record VkSwapchainCreateInfoKHR : Type := {
  ci_minImageCount : Z;
  ci_imageFormat : VkFormat;
  ci_imageColorSpace : Z;
  ci_imageExtent : VkExtent2D;
  ci_imageSharingMode : Z;
  ci_queueFamilyIndexCount : Z;
  ci_preTransform : Z;
  ci_presentMode : VkPresentModeKHR;
  ci_oldSwapchain : handle
}.

Record VkSubmitInfo : Type := {
  pWaitSemaphores : list handle;
  pWaitDstStageMask : list Z;
  pCommandBuffers : list handle;
  pSignalSemaphores : list handle
}.

Record VkPresentInfoKHR : Type := {
  present_pWaitSemaphores : list handle;
  pSwapchains : list handle;
  pImageIndices : list Z
}.

(* ===================================================================== *)
(** ** Vulkan: the environment *)
(* ===================================================================== *)

(** Every call into Vulkan, GLFW or the standard streams, with the arguments
    the frame protocol depends on. *)
Inductive Call : Type :=
| GetSwapChainSupport
| FindPhysicalQueueFamilies
| VkGetPhysicalDeviceFormatProperties (fmt : VkFormat)
| VkGetPhysicalDeviceMemoryProperties
| VkCreateSwapchainKHR (createInfo : VkSwapchainCreateInfoKHR)
| VkGetSwapchainImagesKHR (swapchain : handle)
| VkCreateImageView (image : handle) (fmt : VkFormat) (aspect : Z)
| VkCreateRenderPass (colorFormat depthFormat : VkFormat)
| VkCreateImage (fmt : VkFormat) (extent : VkExtent2D)
| VkGetImageMemoryRequirements (image : handle)
| VkAllocateMemory (size memoryTypeIndex : Z)
| VkBindImageMemory (image memory : handle)
| VkCreateFramebuffer (renderPass colorView depthView : handle) (extent : VkExtent2D)
| VkCreateSemaphore
| VkCreateFence (signaled : bool)
| VkWaitForFences (fence : handle)
| VkResetFences (fence : handle)
| VkAcquireNextImageKHR (swapchain semaphore : handle)
| VkQueueSubmit (submit : VkSubmitInfo) (fence : handle)
| VkQueuePresentKHR (present : VkPresentInfoKHR)
| VkDeviceWaitIdle
| VkAllocateCommandBuffers (count : Z)
| VkBeginCommandBuffer (commandBuffer : handle)
| VkEndCommandBuffer (commandBuffer : handle)
| VkCmdBeginRenderPass (commandBuffer renderPass framebuffer : handle) (extent : VkExtent2D)
| VkCmdSetViewport (commandBuffer : handle) (extent : VkExtent2D)
| VkCmdSetScissor (commandBuffer : handle) (extent : VkExtent2D)
| VkCmdEndRenderPass (commandBuffer : handle)
| GlfwWaitEvents
| StdCout (text : string).

(** What the driver, the GPU and the window system answer to the call made
    at tick [t] (the number of calls made before it). *)
Record Driver : Type := {
  drvResult : nat -> VkResult;
  drvImageIndex : nat -> Z;
  drvImageCount : nat -> Z;
  drvSupport : nat -> SwapChainSupportDetails;
  drvQueueFamilies : nat -> QueueFamilyIndices;
  drvFormatProperties : nat -> VkFormat -> VkFormatProperties;
  drvMemoryRequirements : nat -> VkMemoryRequirements;
  drvMemoryTypes : nat -> list Z;
  (** has the GPU, by tick [t], finished the work that fence [f] guards? *)
  gpuCompletes : nat -> handle -> bool
}.

(** An event delivered to the window: a framebuffer resize to [w] x [h]
    ([Some (w, h)]) or an event of another kind ([None]). *)
Definition WindowEvent : Type := option (Z * Z).

(** A fence is signaled, unsignaled with no work queued on it, or pending:
    unsignaled with a queue submission that will signal it. *)
Inductive FenceState : Type := Signaled | Unsignaled | Pending.

Global Instance FenceState_eq_dec : EqDecision FenceState.
Proof. solve_decision. Defined.

(** lve_window.hpp, lve_window.cpp *)
Module LveWindow.

Record t : Type := {
  width : Z;                (* int *)
  height : Z;               (* int *)
  framebufferResized : bool
}.

Definition getExtent (win : t) : VkExtent2D :=
  Build_VkExtent2D (wrap32 (width win)) (wrap32 (height win)).

Definition wasWindowResized (win : t) : bool := framebufferResized win.

Definition resetWindowResizedFlag (win : t) : t :=
  {| width := width win; height := height win; framebufferResized := false |}.

Definition framebufferResizeCallback (w h : Z) (win : t) : t :=
  {| width := w; height := h; framebufferResized := true |}.

End LveWindow.

Record World : Type := {
  driver : Driver;
  calls : list Call;                 (* oldest first *)
  nextHandle : N;                    (* handles given out so far *)
  fences : gmap N FenceState;
  window : LveWindow.t;
  events : list WindowEvent          (* the events still to arrive, in order *)
}.

Definition set_calls (f : list Call -> list Call) (w : World) : World :=
  {| driver := driver w; calls := f (calls w); nextHandle := nextHandle w;
     fences := fences w; window := window w; events := events w |}.
Definition set_nextHandle (f : N -> N) (w : World) : World :=
  {| driver := driver w; calls := calls w; nextHandle := f (nextHandle w);
     fences := fences w; window := window w; events := events w |}.
Definition set_fences (f : gmap N FenceState -> gmap N FenceState) (w : World) : World :=
  {| driver := driver w; calls := calls w; nextHandle := nextHandle w;
     fences := f (fences w); window := window w; events := events w |}.
Definition set_window (f : LveWindow.t -> LveWindow.t) (w : World) : World :=
  {| driver := driver w; calls := calls w; nextHandle := nextHandle w;
     fences := fences w; window := f (window w); events := events w |}.
Definition set_events (f : list WindowEvent -> list WindowEvent) (w : World) : World :=
  {| driver := driver w; calls := calls w; nextHandle := nextHandle w;
     fences := fences w; window := window w; events := f (events w) |}.

(** The GPU finishes queued work on its own time: a pending fence whose work
    is done becomes signaled. *)
Definition gpu_progress (done : handle -> bool) (fs : gmap N FenceState) : gmap N FenceState :=
  map_imap (fun f st => Some (match st with
                              | Pending => if done f then Signaled else Pending
                              | _ => st
                              end)) fs.

(** Make a call: it is recorded, the GPU may have progressed meanwhile, and
    the tick of the call selects the driver's answer. *)
Definition ticked (c : Call) (w : World) : World :=
  set_fences (gpu_progress (gpuCompletes (driver w) (length (calls w))))
             (set_calls (fun cs => cs ++ [c]) w).

Definition call (c : Call) : M World nat :=
  fun w => Ok (length (calls w), ticked c w).

Definition callResult (c : Call) : M World VkResult :=
  t <- call c ;; w <- get ;; ret (drvResult (driver w) t).

(** A fresh non-null handle. *)
Definition newHandle : M World handle :=
  w <- get ;;
  modify (set_nextHandle N.succ) ;;;
  ret (N.succ (nextHandle w)).

(** vkCreate*: on VK_SUCCESS the out-parameter holds a fresh handle. *)
Definition vkCreate (c : Call) : M World (VkResult * handle) :=
  result <- callResult c ;;
  if result =? VK_SUCCESS
  then (h <- newHandle ;; ret (result, h))
  else ret (result, VK_NULL_HANDLE).

Definition vkCreateFence (signaled : bool) : M World (VkResult * handle) :=
  rh <- vkCreate (VkCreateFence signaled) ;;
  (if fst rh =? VK_SUCCESS
   then modify (set_fences <[snd rh := if signaled then Signaled else Unsignaled]>)
   else ret tt) ;;;
  ret rh.

(** vkWaitForFences on one fence with timeout UINT64_MAX: returns once the
    fence is signaled.  A pending fence becomes signaled when its work ends;
    an unsignaled fence with no work queued never does. *)
Definition vkWaitForFences (fence : handle) : M World unit :=
  call (VkWaitForFences fence) ;;;
  w <- get ;;
  match fences w !! fence with
  | Some Signaled => ret tt
  | Some Pending => modify (set_fences <[fence := Signaled]>)
  | Some Unsignaled => fail (Blocked "vkWaitForFences: nothing will signal the fence")
  | None => undefined "vkWaitForFences: not a fence"
  end.

(** vkResetFences on one fence; the fence must not be pending. *)
Definition vkResetFences (fence : handle) : M World unit :=
  call (VkResetFences fence) ;;;
  w <- get ;;
  match fences w !! fence with
  | Some Pending => undefined "vkResetFences: fence is in use by a queue"
  | Some _ => modify (set_fences <[fence := Unsignaled]>)
  | None => undefined "vkResetFences: not a fence"
  end.

(** vkQueueSubmit of one batch with a fence, which must be unsignaled and
    not pending; on VK_SUCCESS the fence is pending. *)
Definition vkQueueSubmit (submit : VkSubmitInfo) (fence : handle) : M World VkResult :=
  w0 <- get ;;
  match fences w0 !! fence with
  | Some Unsignaled =>
      result <- callResult (VkQueueSubmit submit fence) ;;
      (if result =? VK_SUCCESS
       then modify (set_fences <[fence := Pending]>)
       else ret tt) ;;;
      ret result
  | Some _ => undefined "vkQueueSubmit: fence is signaled or in use"
  | None => undefined "vkQueueSubmit: not a fence"
  end.

Definition vkQueuePresentKHR (present : VkPresentInfoKHR) : M World VkResult :=
  callResult (VkQueuePresentKHR present).

(** vkAcquireNextImageKHR: the status and, when an image was acquired
    (VK_SUCCESS or VK_SUBOPTIMAL_KHR), its index. *)
Definition vkAcquireNextImageKHR (swapchain semaphore : handle) : M World (VkResult * option Z) :=
  t <- call (VkAcquireNextImageKHR swapchain semaphore) ;;
  w <- get ;;
  let result := drvResult (driver w) t in
  ret (result,
       if (result =? VK_SUCCESS) || (result =? VK_SUBOPTIMAL_KHR)
       then Some (wrap32 (drvImageIndex (driver w) t))
       else None).

(** vkDeviceWaitIdle: returns when all queued work has finished. *)
Definition vkDeviceWaitIdle : M World unit :=
  call VkDeviceWaitIdle ;;;
  modify (set_fences (gpu_progress (fun _ => true))).

(** glfwWaitEvents: sleeps until an event arrives and runs its callback;
    when no event is left to arrive it sleeps for ever. *)
Definition glfwWaitEvents : M World unit :=
  call GlfwWaitEvents ;;;
  w <- get ;;
  match events w with
  | [] => fail (Blocked "glfwWaitEvents: no event arrives")
  | None :: rest => modify (set_events (fun _ => rest))
  | Some (w', h') :: rest =>
      modify (set_events (fun _ => rest)) ;;;
      modify (set_window (LveWindow.framebufferResizeCallback w' h'))
  end.

(* ===================================================================== *)
(** ** lve_device.cpp: the helpers the swap chain uses *)
(* ===================================================================== *)

Module LveDevice.

(** getSwapChainSupport / querySwapChainSupport: the surface capabilities,
    formats and present modes the driver reports. *)
Definition getSwapChainSupport : M World SwapChainSupportDetails :=
  t <- call GetSwapChainSupport ;;
  w <- get ;;
  ret (drvSupport (driver w) t).

Definition findPhysicalQueueFamilies : M World QueueFamilyIndices :=
  t <- call FindPhysicalQueueFamilies ;;
  w <- get ;;
  ret (drvQueueFamilies (driver w) t).

Fixpoint findSupportedFormat (candidates : list VkFormat) (tiling features : Z)
  : M World VkFormat :=
  match candidates with
  | [] => throw "failed to find supported format!"
  | format :: rest =>
      t <- call (VkGetPhysicalDeviceFormatProperties format) ;;
      w <- get ;;
      let props := drvFormatProperties (driver w) t format in
      if (tiling =? VK_IMAGE_TILING_LINEAR)
         && (Z.land (linearTilingFeatures props) features =? features)
      then ret format
      else if (tiling =? VK_IMAGE_TILING_OPTIMAL)
              && (Z.land (optimalTilingFeatures props) features =? features)
      then ret format
      else findSupportedFormat rest tiling features
  end.

(** The loop of findMemoryType over memoryTypes[i], from index [i]. *)
Fixpoint findMemoryType_from (memoryTypes : list Z) (i : Z) (typeFilter properties : Z)
  : option Z :=
  match memoryTypes with
  | [] => None
  | propertyFlags :: rest =>
      if negb (Z.land typeFilter (Z.shiftl 1 i) =? 0)
         && (Z.land propertyFlags properties =? properties)
      then Some i
      else findMemoryType_from rest (i + 1) typeFilter properties
  end.

Definition findMemoryType (typeFilter properties : Z) : M World Z :=
  t <- call VkGetPhysicalDeviceMemoryProperties ;;
  w <- get ;;
  match findMemoryType_from (drvMemoryTypes (driver w) t) 0 typeFilter properties with
  | Some i => ret i
  | None => throw "failed to find suitable memory type!"
  end.

(** createImageWithInfo: the image and its memory. *)
Definition createImageWithInfo (fmt : VkFormat) (extent : VkExtent2D) (properties : Z)
  : M World (handle * handle) :=
  img <- vkCreate (VkCreateImage fmt extent) ;;
  if negb (fst img =? VK_SUCCESS) then throw "failed to create image!" else
  t <- call (VkGetImageMemoryRequirements (snd img)) ;;
  w <- get ;;
  let memRequirements := drvMemoryRequirements (driver w) t in
  memoryTypeIndex <- findMemoryType (memoryTypeBits memRequirements) properties ;;
  mem <- vkCreate (VkAllocateMemory (memSize memRequirements) memoryTypeIndex) ;;
  if negb (fst mem =? VK_SUCCESS) then throw "failed to allocate image memory!" else
  bound <- callResult (VkBindImageMemory (snd img) (snd mem)) ;;
  if negb (bound =? VK_SUCCESS) then throw "failed to bind image memory!" else
  ret (snd img, snd mem).

End LveDevice.

(* ===================================================================== *)
(** ** lve_swap_chain.hpp, lve_swap_chain.cpp *)
(* ===================================================================== *)

Module LveSwapChain.

Definition MAX_FRAMES_IN_FLIGHT : Z := 2.

Local Unset Elimination Schemes.
Inductive t : Type := Build {
  swapChainImageFormat : VkFormat;
  swapChainDepthFormat : VkFormat;
  swapChainExtent : VkExtent2D;
  swapChainFramebuffers : list handle;
  renderPass : handle;
  depthImages : list handle;
  depthImageMemorys : list handle;
  depthImageViews : list handle;
  swapChainImages : list handle;
  swapChainImageViews : list handle;
  windowExtent : VkExtent2D;
  swapChain : handle;
  oldSwapChain : option t;  (* std::shared_ptr<LveSwapChain> *)
  imageAvailableSemaphores : list handle;
  renderFinishedSemaphores : list handle;
  inFlightFences : list handle;
  imagesInFlight : list handle;
  currentFrame : Z  (* size_t *)
}.
Local Set Elimination Schemes.

Definition set_swapChainImageFormat (v : VkFormat) (sc : t) : t :=
  Build v (swapChainDepthFormat sc) (swapChainExtent sc) (swapChainFramebuffers
    sc) (renderPass sc) (depthImages sc) (depthImageMemorys sc) (depthImageViews
    sc) (swapChainImages sc) (swapChainImageViews sc) (windowExtent sc) (swapChain
    sc) (oldSwapChain sc) (imageAvailableSemaphores sc) (renderFinishedSemaphores
    sc) (inFlightFences sc) (imagesInFlight sc) (currentFrame sc).
Definition set_swapChainDepthFormat (v : VkFormat) (sc : t) : t :=
  Build (swapChainImageFormat sc) v (swapChainExtent sc) (swapChainFramebuffers
    sc) (renderPass sc) (depthImages sc) (depthImageMemorys sc) (depthImageViews
    sc) (swapChainImages sc) (swapChainImageViews sc) (windowExtent sc) (swapChain
    sc) (oldSwapChain sc) (imageAvailableSemaphores sc) (renderFinishedSemaphores
    sc) (inFlightFences sc) (imagesInFlight sc) (currentFrame sc).
Definition set_swapChainExtent (v : VkExtent2D) (sc : t) : t :=
  Build (swapChainImageFormat sc) (swapChainDepthFormat sc) v
    (swapChainFramebuffers sc) (renderPass sc) (depthImages sc) (depthImageMemorys
    sc) (depthImageViews sc) (swapChainImages sc) (swapChainImageViews sc)
    (windowExtent sc) (swapChain sc) (oldSwapChain sc) (imageAvailableSemaphores
    sc) (renderFinishedSemaphores sc) (inFlightFences sc) (imagesInFlight sc)
    (currentFrame sc).
Definition set_swapChainFramebuffers (v : list handle) (sc : t) : t :=
  Build (swapChainImageFormat sc) (swapChainDepthFormat sc) (swapChainExtent sc) v
    (renderPass sc) (depthImages sc) (depthImageMemorys sc) (depthImageViews sc)
    (swapChainImages sc) (swapChainImageViews sc) (windowExtent sc) (swapChain sc)
    (oldSwapChain sc) (imageAvailableSemaphores sc) (renderFinishedSemaphores sc)
    (inFlightFences sc) (imagesInFlight sc) (currentFrame sc).
Definition set_renderPass (v : handle) (sc : t) : t :=
  Build (swapChainImageFormat sc) (swapChainDepthFormat sc) (swapChainExtent sc)
    (swapChainFramebuffers sc) v (depthImages sc) (depthImageMemorys sc)
    (depthImageViews sc) (swapChainImages sc) (swapChainImageViews sc)
    (windowExtent sc) (swapChain sc) (oldSwapChain sc) (imageAvailableSemaphores
    sc) (renderFinishedSemaphores sc) (inFlightFences sc) (imagesInFlight sc)
    (currentFrame sc).
Definition set_depthImages (v : list handle) (sc : t) : t :=
  Build (swapChainImageFormat sc) (swapChainDepthFormat sc) (swapChainExtent sc)
    (swapChainFramebuffers sc) (renderPass sc) v (depthImageMemorys sc)
    (depthImageViews sc) (swapChainImages sc) (swapChainImageViews sc)
    (windowExtent sc) (swapChain sc) (oldSwapChain sc) (imageAvailableSemaphores
    sc) (renderFinishedSemaphores sc) (inFlightFences sc) (imagesInFlight sc)
    (currentFrame sc).
Definition set_depthImageMemorys (v : list handle) (sc : t) : t :=
  Build (swapChainImageFormat sc) (swapChainDepthFormat sc) (swapChainExtent sc)
    (swapChainFramebuffers sc) (renderPass sc) (depthImages sc) v (depthImageViews
    sc) (swapChainImages sc) (swapChainImageViews sc) (windowExtent sc) (swapChain
    sc) (oldSwapChain sc) (imageAvailableSemaphores sc) (renderFinishedSemaphores
    sc) (inFlightFences sc) (imagesInFlight sc) (currentFrame sc).
Definition set_depthImageViews (v : list handle) (sc : t) : t :=
  Build (swapChainImageFormat sc) (swapChainDepthFormat sc) (swapChainExtent sc)
    (swapChainFramebuffers sc) (renderPass sc) (depthImages sc) (depthImageMemorys
    sc) v (swapChainImages sc) (swapChainImageViews sc) (windowExtent sc)
    (swapChain sc) (oldSwapChain sc) (imageAvailableSemaphores sc)
    (renderFinishedSemaphores sc) (inFlightFences sc) (imagesInFlight sc)
    (currentFrame sc).
Definition set_swapChainImages (v : list handle) (sc : t) : t :=
  Build (swapChainImageFormat sc) (swapChainDepthFormat sc) (swapChainExtent sc)
    (swapChainFramebuffers sc) (renderPass sc) (depthImages sc) (depthImageMemorys
    sc) (depthImageViews sc) v (swapChainImageViews sc) (windowExtent sc)
    (swapChain sc) (oldSwapChain sc) (imageAvailableSemaphores sc)
    (renderFinishedSemaphores sc) (inFlightFences sc) (imagesInFlight sc)
    (currentFrame sc).
Definition set_swapChainImageViews (v : list handle) (sc : t) : t :=
  Build (swapChainImageFormat sc) (swapChainDepthFormat sc) (swapChainExtent sc)
    (swapChainFramebuffers sc) (renderPass sc) (depthImages sc) (depthImageMemorys
    sc) (depthImageViews sc) (swapChainImages sc) v (windowExtent sc) (swapChain
    sc) (oldSwapChain sc) (imageAvailableSemaphores sc) (renderFinishedSemaphores
    sc) (inFlightFences sc) (imagesInFlight sc) (currentFrame sc).
Definition set_windowExtent (v : VkExtent2D) (sc : t) : t :=
  Build (swapChainImageFormat sc) (swapChainDepthFormat sc) (swapChainExtent sc)
    (swapChainFramebuffers sc) (renderPass sc) (depthImages sc) (depthImageMemorys
    sc) (depthImageViews sc) (swapChainImages sc) (swapChainImageViews sc) v
    (swapChain sc) (oldSwapChain sc) (imageAvailableSemaphores sc)
    (renderFinishedSemaphores sc) (inFlightFences sc) (imagesInFlight sc)
    (currentFrame sc).
Definition set_swapChain (v : handle) (sc : t) : t :=
  Build (swapChainImageFormat sc) (swapChainDepthFormat sc) (swapChainExtent sc)
    (swapChainFramebuffers sc) (renderPass sc) (depthImages sc) (depthImageMemorys
    sc) (depthImageViews sc) (swapChainImages sc) (swapChainImageViews sc)
    (windowExtent sc) v (oldSwapChain sc) (imageAvailableSemaphores sc)
    (renderFinishedSemaphores sc) (inFlightFences sc) (imagesInFlight sc)
    (currentFrame sc).
Definition set_oldSwapChain (v : option t) (sc : t) : t :=
  Build (swapChainImageFormat sc) (swapChainDepthFormat sc) (swapChainExtent sc)
    (swapChainFramebuffers sc) (renderPass sc) (depthImages sc) (depthImageMemorys
    sc) (depthImageViews sc) (swapChainImages sc) (swapChainImageViews sc)
    (windowExtent sc) (swapChain sc) v (imageAvailableSemaphores sc)
    (renderFinishedSemaphores sc) (inFlightFences sc) (imagesInFlight sc)
    (currentFrame sc).
Definition set_imageAvailableSemaphores (v : list handle) (sc : t) : t :=
  Build (swapChainImageFormat sc) (swapChainDepthFormat sc) (swapChainExtent sc)
    (swapChainFramebuffers sc) (renderPass sc) (depthImages sc) (depthImageMemorys
    sc) (depthImageViews sc) (swapChainImages sc) (swapChainImageViews sc)
    (windowExtent sc) (swapChain sc) (oldSwapChain sc) v (renderFinishedSemaphores
    sc) (inFlightFences sc) (imagesInFlight sc) (currentFrame sc).
Definition set_renderFinishedSemaphores (v : list handle) (sc : t) : t :=
  Build (swapChainImageFormat sc) (swapChainDepthFormat sc) (swapChainExtent sc)
    (swapChainFramebuffers sc) (renderPass sc) (depthImages sc) (depthImageMemorys
    sc) (depthImageViews sc) (swapChainImages sc) (swapChainImageViews sc)
    (windowExtent sc) (swapChain sc) (oldSwapChain sc) (imageAvailableSemaphores
    sc) v (inFlightFences sc) (imagesInFlight sc) (currentFrame sc).
Definition set_inFlightFences (v : list handle) (sc : t) : t :=
  Build (swapChainImageFormat sc) (swapChainDepthFormat sc) (swapChainExtent sc)
    (swapChainFramebuffers sc) (renderPass sc) (depthImages sc) (depthImageMemorys
    sc) (depthImageViews sc) (swapChainImages sc) (swapChainImageViews sc)
    (windowExtent sc) (swapChain sc) (oldSwapChain sc) (imageAvailableSemaphores
    sc) (renderFinishedSemaphores sc) v (imagesInFlight sc) (currentFrame sc).
Definition set_imagesInFlight (v : list handle) (sc : t) : t :=
  Build (swapChainImageFormat sc) (swapChainDepthFormat sc) (swapChainExtent sc)
    (swapChainFramebuffers sc) (renderPass sc) (depthImages sc) (depthImageMemorys
    sc) (depthImageViews sc) (swapChainImages sc) (swapChainImageViews sc)
    (windowExtent sc) (swapChain sc) (oldSwapChain sc) (imageAvailableSemaphores
    sc) (renderFinishedSemaphores sc) (inFlightFences sc) v (currentFrame sc).
Definition set_currentFrame (v : Z) (sc : t) : t :=
  Build (swapChainImageFormat sc) (swapChainDepthFormat sc) (swapChainExtent sc)
    (swapChainFramebuffers sc) (renderPass sc) (depthImages sc) (depthImageMemorys
    sc) (depthImageViews sc) (swapChainImages sc) (swapChainImageViews sc)
    (windowExtent sc) (swapChain sc) (oldSwapChain sc) (imageAvailableSemaphores
    sc) (renderFinishedSemaphores sc) (inFlightFences sc) (imagesInFlight sc) v.

(** The object state on entry to the constructor body: the vectors are
    empty and [currentFrame] is 0 (its default member initializer); the
    scalar members have no initializer and are assigned by [init] before
    they are read, they are shown as 0 here. *)
Definition constructed (extent : VkExtent2D) (previous : option t) : t :=
  Build 0 0 (Build_VkExtent2D 0 0) [] VK_NULL_HANDLE [] [] [] [] []
        extent VK_NULL_HANDLE previous [] [] [] [] 0.

(** Methods run on the world and the object. *)
Definition this : M (World * t) t := s <- get ;; ret (snd s).
Definition update (f : t -> t) : M (World * t) unit :=
  modify (fun s => (fst s, f (snd s))).

Definition imageCount (sc : t) : nat := length (swapChainImages sc).
Definition getSwapChainImageFormat (sc : t) : VkFormat := swapChainImageFormat sc.
Definition getSwapChainExtent (sc : t) : VkExtent2D := swapChainExtent sc.
Definition getRenderPass (sc : t) : handle := renderPass sc.
Definition getFrameBuffer {St} (sc : t) (index : Z) : M St handle :=
  at_ (swapChainFramebuffers sc) index.

Definition compareSwapFormats (self swapChain : t) : bool :=
  (swapChainDepthFormat swapChain =? swapChainDepthFormat self)
  && (swapChainImageFormat swapChain =? swapChainImageFormat self).

(** *** Choosing format, present mode and extent *)

(** The range-for of chooseSwapSurfaceFormat: the first preferred entry. *)
Fixpoint findPreferredFormat (availableFormats : list VkSurfaceFormatKHR)
  : option VkSurfaceFormatKHR :=
  match availableFormats with
  | [] => None
  | availableFormat :: rest =>
      if (format availableFormat =? VK_FORMAT_B8G8R8A8_SRGB)
         && (colorSpace availableFormat =? VK_COLOR_SPACE_SRGB_NONLINEAR_KHR)
      then Some availableFormat
      else findPreferredFormat rest
  end.

Definition chooseSwapSurfaceFormat {St} (availableFormats : list VkSurfaceFormatKHR)
  : M St VkSurfaceFormatKHR :=
  match findPreferredFormat availableFormats with
  | Some availableFormat => ret availableFormat
  | None => at_ availableFormats 0
  end.

Fixpoint findMailbox (availablePresentModes : list VkPresentModeKHR)
  : option VkPresentModeKHR :=
  match availablePresentModes with
  | [] => None
  | availablePresentMode :: rest =>
      if availablePresentMode =? VK_PRESENT_MODE_MAILBOX_KHR
      then Some availablePresentMode
      else findMailbox rest
  end.

Definition chooseSwapPresentMode (availablePresentModes : list VkPresentModeKHR)
  : M World VkPresentModeKHR :=
  match findMailbox availablePresentModes with
  | Some availablePresentMode =>
      call (StdCout "Present mode: Mailbox") ;;; ret availablePresentMode
  | None =>
      call (StdCout "Present mode: V-Sync") ;;; ret VK_PRESENT_MODE_FIFO_KHR
  end.

Definition chooseSwapExtent (windowExtent : VkExtent2D)
                            (capabilities : VkSurfaceCapabilitiesKHR) : VkExtent2D :=
  if negb (width (currentExtent capabilities) =? UINT32_MAX)
  then currentExtent capabilities
  else
    {| width := Z.max (width (minImageExtent capabilities))
                      (Z.min (width (maxImageExtent capabilities)) (width windowExtent));
       height := Z.max (height (minImageExtent capabilities))
                       (Z.min (height (maxImageExtent capabilities)) (height windowExtent)) |}.

Definition findDepthFormat : M World VkFormat :=
  LveDevice.findSupportedFormat
    [VK_FORMAT_D32_SFLOAT; VK_FORMAT_D32_SFLOAT_S8_UINT; VK_FORMAT_D24_UNORM_S8_UINT]
    VK_IMAGE_TILING_OPTIMAL
    VK_FORMAT_FEATURE_DEPTH_STENCIL_ATTACHMENT_BIT.

(** *** Construction *)

(** The image count createSwapChain asks for: one more than the minimum,
    not above the maximum, where a maximum of 0 means no limit. *)
Definition requestedImageCount (capabilities : VkSurfaceCapabilitiesKHR) : Z :=
  let imageCount := wrap32 (minImageCount capabilities + 1) in
  if (maxImageCount capabilities >? 0) && (imageCount >? maxImageCount capabilities)
  then maxImageCount capabilities
  else imageCount.

(** vkGetSwapchainImagesKHR, first with no array (the count), then with
    one of that size (the images). *)
Definition vkGetSwapchainImagesKHR_count (swapchain : handle) : M World Z :=
  t <- call (VkGetSwapchainImagesKHR swapchain) ;;
  w <- get ;;
  ret (wrap32 (drvImageCount (driver w) t)).

Fixpoint newHandles (n : nat) : M World (list handle) :=
  match n with
  | O => ret []
  | S n' => h <- newHandle ;; hs <- newHandles n' ;; ret (h :: hs)
  end.

Definition vkGetSwapchainImagesKHR_images (swapchain : handle) (count : nat)
  : M World (list handle) :=
  call (VkGetSwapchainImagesKHR swapchain) ;;;
  newHandles count.

Definition createSwapChain : M (World * t) unit :=
  swapChainSupport <- onFst LveDevice.getSwapChainSupport ;;
  surfaceFormat <- chooseSwapSurfaceFormat (formats swapChainSupport) ;;
  presentMode <- onFst (chooseSwapPresentMode (presentModes swapChainSupport)) ;;
  self <- this ;;
  let extent := chooseSwapExtent (windowExtent self) (capabilities swapChainSupport) in
  let imageCount := requestedImageCount (capabilities swapChainSupport) in
  indices <- onFst LveDevice.findPhysicalQueueFamilies ;;
  let concurrent := negb (graphicsFamily indices =? presentFamily indices) in
  let createInfo :=
    {| ci_minImageCount := imageCount;
       ci_imageFormat := format surfaceFormat;
       ci_imageColorSpace := colorSpace surfaceFormat;
       ci_imageExtent := extent;
       ci_imageSharingMode :=
         if concurrent then VK_SHARING_MODE_CONCURRENT else VK_SHARING_MODE_EXCLUSIVE;
       ci_queueFamilyIndexCount := if concurrent then 2 else 0;
       ci_preTransform := currentTransform (capabilities swapChainSupport);
       ci_presentMode := presentMode;
       ci_oldSwapchain :=
         match oldSwapChain self with
         | None => VK_NULL_HANDLE
         | Some old => swapChain old
         end |} in
  created <- onFst (vkCreate (VkCreateSwapchainKHR createInfo)) ;;
  if negb (fst created =? VK_SUCCESS) then throw "failed to create swap chain!" else
  update (set_swapChain (snd created)) ;;;
  imageCount <- onFst (vkGetSwapchainImagesKHR_count (snd created)) ;;
  update (fun sc => set_swapChainImages
                      (resize (Z.to_nat imageCount) VK_NULL_HANDLE (swapChainImages sc)) sc) ;;;
  images <- onFst (vkGetSwapchainImagesKHR_images (snd created) (Z.to_nat imageCount)) ;;
  update (set_swapChainImages images) ;;;
  update (set_swapChainImageFormat (format surfaceFormat)) ;;;
  update (set_swapChainExtent extent).

Definition createImageViews : M (World * t) unit :=
  update (fun sc => set_swapChainImageViews
                      (resize (length (swapChainImages sc)) VK_NULL_HANDLE
                              (swapChainImageViews sc)) sc) ;;;
  self <- this ;;
  forRange (length (swapChainImages self)) 0 (fun i =>
    self <- this ;;
    image <- at_ (swapChainImages self) (Z.of_nat i) ;;
    view <- onFst (vkCreate (VkCreateImageView image (swapChainImageFormat self)
                                               VK_IMAGE_ASPECT_COLOR_BIT)) ;;
    if negb (fst view =? VK_SUCCESS) then throw "failed to create texture image view!" else
    update (fun sc => set_swapChainImageViews
                        (<[i := snd view]> (swapChainImageViews sc)) sc)).

Definition createRenderPass : M (World * t) unit :=
  depthFormat <- onFst findDepthFormat ;;
  self <- this ;;
  pass <- onFst (vkCreate (VkCreateRenderPass (getSwapChainImageFormat self) depthFormat)) ;;
  if negb (fst pass =? VK_SUCCESS) then throw "failed to create render pass!" else
  update (set_renderPass (snd pass)).

Definition createDepthResources : M (World * t) unit :=
  depthFormat <- onFst findDepthFormat ;;
  update (set_swapChainDepthFormat depthFormat) ;;;
  self <- this ;;
  let swapChainExtent := getSwapChainExtent self in
  update (fun sc => set_depthImages
                      (resize (imageCount sc) VK_NULL_HANDLE (depthImages sc)) sc) ;;;
  update (fun sc => set_depthImageMemorys
                      (resize (imageCount sc) VK_NULL_HANDLE (depthImageMemorys sc)) sc) ;;;
  update (fun sc => set_depthImageViews
                      (resize (imageCount sc) VK_NULL_HANDLE (depthImageViews sc)) sc) ;;;
  self <- this ;;
  forRange (length (depthImages self)) 0 (fun i =>
    (* the counter is an int *)
    if Z.of_nat i >? INT_MAX then undefined "signed integer overflow" else
    created <- onFst (LveDevice.createImageWithInfo depthFormat swapChainExtent
                                                    VK_MEMORY_PROPERTY_DEVICE_LOCAL_BIT) ;;
    update (fun sc => set_depthImages (<[i := fst created]> (depthImages sc)) sc) ;;;
    update (fun sc => set_depthImageMemorys
                        (<[i := snd created]> (depthImageMemorys sc)) sc) ;;;
    view <- onFst (vkCreate (VkCreateImageView (fst created) depthFormat
                                               VK_IMAGE_ASPECT_DEPTH_BIT)) ;;
    if negb (fst view =? VK_SUCCESS) then throw "failed to create texture image view!" else
    update (fun sc => set_depthImageViews (<[i := snd view]> (depthImageViews sc)) sc)).

Definition createFramebuffers : M (World * t) unit :=
  update (fun sc => set_swapChainFramebuffers
                      (resize (imageCount sc) VK_NULL_HANDLE (swapChainFramebuffers sc)) sc) ;;;
  self <- this ;;
  forRange (imageCount self) 0 (fun i =>
    self <- this ;;
    colorView <- at_ (swapChainImageViews self) (Z.of_nat i) ;;
    depthView <- at_ (depthImageViews self) (Z.of_nat i) ;;
    fb <- onFst (vkCreate (VkCreateFramebuffer (renderPass self) colorView depthView
                                               (getSwapChainExtent self))) ;;
    if negb (fst fb =? VK_SUCCESS) then throw "failed to create framebuffer!" else
    update (fun sc => set_swapChainFramebuffers
                        (<[i := snd fb]> (swapChainFramebuffers sc)) sc)).

(** The body of the loop of createSyncObjects, for frame slot [i]; the three
    creations are the operands of one [||]. *)
Definition createFrameSyncObjects (i : nat) : M (World * t) unit :=
  available <- onFst (vkCreate VkCreateSemaphore) ;;
  update (fun sc => set_imageAvailableSemaphores
                      (<[i := snd available]> (imageAvailableSemaphores sc)) sc) ;;;
  if negb (fst available =? VK_SUCCESS)
  then throw "failed to create synchronization objects for a frame!" else
  finished <- onFst (vkCreate VkCreateSemaphore) ;;
  update (fun sc => set_renderFinishedSemaphores
                      (<[i := snd finished]> (renderFinishedSemaphores sc)) sc) ;;;
  if negb (fst finished =? VK_SUCCESS)
  then throw "failed to create synchronization objects for a frame!" else
  fence <- onFst (vkCreateFence true) ;;
  update (fun sc => set_inFlightFences (<[i := snd fence]> (inFlightFences sc)) sc) ;;;
  if negb (fst fence =? VK_SUCCESS)
  then throw "failed to create synchronization objects for a frame!" else
  ret tt.

Definition createSyncObjects : M (World * t) unit :=
  let frames := Z.to_nat MAX_FRAMES_IN_FLIGHT in
  update (fun sc => set_imageAvailableSemaphores
                      (resize frames VK_NULL_HANDLE (imageAvailableSemaphores sc)) sc) ;;;
  update (fun sc => set_renderFinishedSemaphores
                      (resize frames VK_NULL_HANDLE (renderFinishedSemaphores sc)) sc) ;;;
  update (fun sc => set_inFlightFences
                      (resize frames VK_NULL_HANDLE (inFlightFences sc)) sc) ;;;
  update (fun sc => set_imagesInFlight
                      (resize (imageCount sc) VK_NULL_HANDLE (imagesInFlight sc)) sc) ;;;
  forRange frames 0 createFrameSyncObjects.

Definition init : M (World * t) unit :=
  createSwapChain ;;;
  createImageViews ;;;
  createRenderPass ;;;
  createDepthResources ;;;
  createFramebuffers ;;;
  createSyncObjects.

(** LveSwapChain(deviceRef, extent) *)
Definition new (extent : VkExtent2D) : M World t :=
  fun w => match init (w, constructed extent None) with
           | Ok (_, (w', sc)) => Ok (sc, w')
           | Fail f => Fail f
           end.

(** LveSwapChain(deviceRef, extent, previous) *)
Definition new_from (extent : VkExtent2D) (previous : option t) : M World t :=
  fun w => match (init ;;; update (set_oldSwapChain None)) (w, constructed extent previous) with
           | Ok (_, (w', sc)) => Ok (sc, w')
           | Fail f => Fail f
           end.

(** *** The frame operations *)

Definition acquireNextImage : M (World * t) (VkResult * option Z) :=
  self <- this ;;
  fence <- at_ (inFlightFences self) (currentFrame self) ;;
  onFst (vkWaitForFences fence) ;;;
  semaphore <- at_ (imageAvailableSemaphores self) (currentFrame self) ;;
  onFst (vkAcquireNextImageKHR (swapChain self) semaphore).

(** The first statement of submitCommandBuffers: wait for the frame that
    last used the image. *)
Definition waitForImage (imageIndex : Z) : M (World * t) unit :=
  self <- this ;;
  owner <- at_ (imagesInFlight self) imageIndex ;;
  if negb (owner =? VK_NULL_HANDLE)%N
  then onFst (vkWaitForFences owner)
  else ret tt.

Definition submitCommandBuffers (buffers : handle) (imageIndex : Z)
  : M (World * t) VkResult :=
  waitForImage imageIndex ;;;
  self <- this ;;
  fence <- at_ (inFlightFences self) (currentFrame self) ;;
  update (fun sc => set_imagesInFlight
                      (<[Z.to_nat imageIndex := fence]> (imagesInFlight sc)) sc) ;;;
  imageAvailable <- at_ (imageAvailableSemaphores self) (currentFrame self) ;;
  renderFinished <- at_ (renderFinishedSemaphores self) (currentFrame self) ;;
  let submitInfo :=
    {| pWaitSemaphores := [imageAvailable];
       pWaitDstStageMask := [VK_PIPELINE_STAGE_COLOR_ATTACHMENT_OUTPUT_BIT];
       pCommandBuffers := [buffers];
       pSignalSemaphores := [renderFinished] |} in
  onFst (vkResetFences fence) ;;;
  submitted <- onFst (vkQueueSubmit submitInfo fence) ;;
  if negb (submitted =? VK_SUCCESS) then throw "failed to submit draw command buffer!" else
  let presentInfo :=
    {| present_pWaitSemaphores := [renderFinished];
       pSwapchains := [swapChain self];
       pImageIndices := [imageIndex] |} in
  result <- onFst (vkQueuePresentKHR presentInfo) ;;
  update (fun sc => set_currentFrame
                      (wrap64 (currentFrame sc + 1) mod MAX_FRAMES_IN_FLIGHT) sc) ;;;
  ret result.

End LveSwapChain.

(* ===================================================================== *)
(** ** lve_renderer.hpp, lve_renderer.cpp *)
(* ===================================================================== *)

Module LveRenderer.

Record t : Type := {
  lveSwapChain : option LveSwapChain.t;  (* std::unique_ptr<LveSwapChain> *)
  commandBuffers : list handle;
  currentImageIndex : Z;                 (* uint32_t, no initializer *)
  currentFrameIndex : Z;                 (* int, no initializer *)
  isFrameStarted : bool                  (* no initializer *)
}.

Definition set_lveSwapChain (v : option LveSwapChain.t) (r : t) : t :=
  {| lveSwapChain := v; commandBuffers := commandBuffers r;
     currentImageIndex := currentImageIndex r;
     currentFrameIndex := currentFrameIndex r; isFrameStarted := isFrameStarted r |}.
Definition set_commandBuffers (v : list handle) (r : t) : t :=
  {| lveSwapChain := lveSwapChain r; commandBuffers := v;
     currentImageIndex := currentImageIndex r;
     currentFrameIndex := currentFrameIndex r; isFrameStarted := isFrameStarted r |}.
Definition set_currentImageIndex (v : Z) (r : t) : t :=
  {| lveSwapChain := lveSwapChain r; commandBuffers := commandBuffers r;
     currentImageIndex := v;
     currentFrameIndex := currentFrameIndex r; isFrameStarted := isFrameStarted r |}.
Definition set_currentFrameIndex (v : Z) (r : t) : t :=
  {| lveSwapChain := lveSwapChain r; commandBuffers := commandBuffers r;
     currentImageIndex := currentImageIndex r;
     currentFrameIndex := v; isFrameStarted := isFrameStarted r |}.
Definition set_isFrameStarted (v : bool) (r : t) : t :=
  {| lveSwapChain := lveSwapChain r; commandBuffers := commandBuffers r;
     currentImageIndex := currentImageIndex r;
     currentFrameIndex := currentFrameIndex r; isFrameStarted := v |}.

Definition this : M (World * t) t := s <- get ;; ret (snd s).
Definition update (f : t -> t) : M (World * t) unit :=
  modify (fun s => (fst s, f (snd s))).

(** [lveSwapChain->method(...)] *)
Definition onSwapChain {A} (method : M (World * LveSwapChain.t) A) : M (World * t) A :=
  fun s =>
    match lveSwapChain (snd s) with
    | None => Fail (UndefinedBehaviour "null pointer dereference")
    | Some sc =>
        match method (fst s, sc) with
        | Ok (a, (w', sc')) => Ok (a, (w', set_lveSwapChain (Some sc') (snd s)))
        | Fail f => Fail f
        end
    end.

Definition isFrameInProgress (r : t) : bool := isFrameStarted r.

Definition getCurrentCommandBuffer : M (World * t) handle :=
  self <- this ;;
  assert (isFrameStarted self) "Cannot get command buffer when frame not in progress" ;;;
  at_ (commandBuffers self) (currentFrameIndex self).

Definition getFrameIndex : M (World * t) Z :=
  self <- this ;;
  assert (isFrameStarted self) "Cannot get frame index when frame not in progress" ;;;
  ret (currentFrameIndex self).

(** The loop of recreateSwapChain that sleeps while the window is
    minimized.  Each turn consumes one event, so [fuel] above the number
    of events still to arrive is never used up. *)
Fixpoint waitWhileMinimized (fuel : nat) (extent : VkExtent2D) : M World VkExtent2D :=
  if (width extent =? 0) || (height extent =? 0)
  then match fuel with
       | O => fail (Blocked "recreateSwapChain: the window stays minimized")
       | S fuel' =>
           w <- get ;;
           let extent := LveWindow.getExtent (window w) in
           glfwWaitEvents ;;;
           waitWhileMinimized fuel' extent
       end
  else ret extent.

Definition recreateSwapChain : M (World * t) unit :=
  w <- onFst get ;;
  extent <- onFst (waitWhileMinimized (S (length (events w)))
                                      (LveWindow.getExtent (window w))) ;;
  onFst vkDeviceWaitIdle ;;;
  self <- this ;;
  match lveSwapChain self with
  | None =>
      created <- onFst (LveSwapChain.new extent) ;;
      update (set_lveSwapChain (Some created))
  | Some oldSwapChain =>
      (* std::move(lveSwapChain) *)
      update (set_lveSwapChain None) ;;;
      created <- onFst (LveSwapChain.new_from extent (Some oldSwapChain)) ;;
      update (set_lveSwapChain (Some created)) ;;;
      if negb (LveSwapChain.compareSwapFormats oldSwapChain created)
      then throw "Swap chain image(or depth) format has changed!"
      else ret tt
  end.

Definition createCommandBuffers : M (World * t) unit :=
  let count := Z.to_nat LveSwapChain.MAX_FRAMES_IN_FLIGHT in
  update (fun r => set_commandBuffers (resize count VK_NULL_HANDLE (commandBuffers r)) r) ;;;
  self <- this ;;
  result <- onFst (callResult (VkAllocateCommandBuffers
                                 (wrap32 (Z.of_nat (length (commandBuffers self)))))) ;;
  if negb (result =? VK_SUCCESS) then throw "failed to allocate command buffers!" else
  buffers <- onFst (LveSwapChain.newHandles (length (commandBuffers self))) ;;
  update (set_commandBuffers buffers).

(** LveRenderer(window, device).  The three members without initializer
    hold indeterminate values, given here as arguments. *)
Definition new (imageIndex frameIndex : Z) (frameStarted : bool) : M World t :=
  fun w =>
    match (recreateSwapChain ;;; createCommandBuffers)
            (w, {| lveSwapChain := None; commandBuffers := [];
                   currentImageIndex := imageIndex;
                   currentFrameIndex := frameIndex;
                   isFrameStarted := frameStarted |}) with
    | Ok (_, (w', r)) => Ok (r, w')
    | Fail f => Fail f
    end.

(** beginFrame returns the command buffer, or nullptr when the swap chain
    was out of date and has been recreated. *)
Definition beginFrame : M (World * t) handle :=
  self <- this ;;
  assert (negb (isFrameStarted self)) "Can't call beginFrame while already in progress" ;;;
  acquired <- onSwapChain LveSwapChain.acquireNextImage ;;
  match snd acquired with
  | Some imageIndex => update (set_currentImageIndex imageIndex)
  | None => ret tt
  end ;;;
  let result := fst acquired in
  if result =? VK_ERROR_OUT_OF_DATE_KHR
  then recreateSwapChain ;;; ret VK_NULL_HANDLE
  else
  if negb (result =? VK_SUCCESS) && negb (result =? VK_SUBOPTIMAL_KHR)
  then throw "failed to acquire swap chain image!"
  else
  update (set_isFrameStarted true) ;;;
  commandBuffer <- getCurrentCommandBuffer ;;
  began <- onFst (callResult (VkBeginCommandBuffer commandBuffer)) ;;
  if negb (began =? VK_SUCCESS) then throw "failed to begin recording command buffer!" else
  ret commandBuffer.

(** [(currentFrameIndex + 1) % MAX_FRAMES_IN_FLIGHT] on int. *)
Definition nextFrameIndex {St} (currentFrameIndex : Z) : M St Z :=
  if currentFrameIndex + 1 >? INT_MAX
  then undefined "signed integer overflow"
  else ret (Z.rem (currentFrameIndex + 1) LveSwapChain.MAX_FRAMES_IN_FLIGHT).

Definition endFrame : M (World * t) unit :=
  self <- this ;;
  assert (isFrameStarted self) "Can't call endFrame while frame is not in progress" ;;;
  commandBuffer <- getCurrentCommandBuffer ;;
  ended <- onFst (callResult (VkEndCommandBuffer commandBuffer)) ;;
  if negb (ended =? VK_SUCCESS) then throw "failed to record command buffer!" else
  result <- onSwapChain (LveSwapChain.submitCommandBuffers commandBuffer
                                                           (currentImageIndex self)) ;;
  w <- onFst get ;;
  (if (result =? VK_ERROR_OUT_OF_DATE_KHR) || (result =? VK_SUBOPTIMAL_KHR)
      || LveWindow.wasWindowResized (window w)
   then onFst (modify (set_window LveWindow.resetWindowResizedFlag)) ;;;
        recreateSwapChain
   else if negb (result =? VK_SUCCESS)
   then throw "failed to present swap chain image!"
   else ret tt) ;;;
  update (set_isFrameStarted false) ;;;
  self <- this ;;
  next <- nextFrameIndex (currentFrameIndex self) ;;
  update (set_currentFrameIndex next).

Definition beginSwapChainRenderPass (commandBuffer : handle) : M (World * t) unit :=
  self <- this ;;
  assert (isFrameStarted self)
         "Can't call beginSwapChainRenderPass if frame is not in progress" ;;;
  current <- getCurrentCommandBuffer ;;
  assert (commandBuffer =? current)%N
         "Can't begin render pass on command buffer from a different frame" ;;;
  renderPass <- onSwapChain (sc <- LveSwapChain.this ;; ret (LveSwapChain.getRenderPass sc)) ;;
  framebuffer <- onSwapChain (sc <- LveSwapChain.this ;;
                              LveSwapChain.getFrameBuffer sc (currentImageIndex self)) ;;
  extent <- onSwapChain (sc <- LveSwapChain.this ;; ret (LveSwapChain.getSwapChainExtent sc)) ;;
  onFst (call (VkCmdBeginRenderPass commandBuffer renderPass framebuffer extent)) ;;;
  onFst (call (VkCmdSetViewport commandBuffer extent)) ;;;
  onFst (call (VkCmdSetScissor commandBuffer extent)) ;;;
  ret tt.

Definition endSwapChainRenderPass (commandBuffer : handle) : M (World * t) unit :=
  self <- this ;;
  assert (isFrameStarted self)
         "Can't call endSwapChainRenderPass if frame is not in progress" ;;;
  current <- getCurrentCommandBuffer ;;
  assert (commandBuffer =? current)%N
         "Can't end render pass on command buffer from a different frame" ;;;
  onFst (call (VkCmdEndRenderPass commandBuffer)) ;;;
  ret tt.

End LveRenderer.

(* ===================================================================== *)
(** ** lve_device.cpp: choosing the physical device *)
(* ===================================================================== *)

Module LvePhysicalDevice.

Definition VK_QUEUE_GRAPHICS_BIT : Z := 1.

Record VkQueueFamilyProperties : Type := { queueFlags : Z; queueCount : Z }.

(** What Vulkan reports of a physical device to the queries of the
    device selection. *)
Record t : Type := {
  physicalDevice : handle;                         (* VkPhysicalDevice *)
  deviceName : string;                             (* vkGetPhysicalDeviceProperties *)
  queueFamilies : list VkQueueFamilyProperties;    (* vkGetPhysicalDeviceQueueFamilyProperties *)
  presentSupport : Z -> bool;                      (* vkGetPhysicalDeviceSurfaceSupportKHR *)
  availableExtensions : list string;               (* vkEnumerateDeviceExtensionProperties *)
  swapChainSupport : SwapChainSupportDetails;      (* querySwapChainSupport *)
  samplerAnisotropy : bool                         (* vkGetPhysicalDeviceFeatures *)
}.

(** const std::vector<const char *> deviceExtensions *)
Definition deviceExtensions : list string := ["VK_KHR_swapchain"].

Definition isComplete (indices : QueueFamilyIndices) : bool :=
  graphicsFamilyHasValue indices && presentFamilyHasValue indices.

(** The body of the loop of findQueueFamilies for the family at index [i]. *)
Definition noteQueueFamily (device : t) (i : Z) (queueFamily : VkQueueFamilyProperties)
    (indices : QueueFamilyIndices) : QueueFamilyIndices :=
  let indices :=
    if (queueCount queueFamily >? 0)
       && negb (Z.land (queueFlags queueFamily) VK_QUEUE_GRAPHICS_BIT =? 0)
    then {| graphicsFamily := wrap32 i;
            presentFamily := presentFamily indices;
            graphicsFamilyHasValue := true;
            presentFamilyHasValue := presentFamilyHasValue indices |}
    else indices in
  if (queueCount queueFamily >? 0) && presentSupport device i
  then {| graphicsFamily := graphicsFamily indices;
          presentFamily := wrap32 i;
          graphicsFamilyHasValue := graphicsFamilyHasValue indices;
          presentFamilyHasValue := true |}
  else indices.

(** The loop of findQueueFamilies from index [i]; the counter is an int. *)
Fixpoint findQueueFamilies_from {St} (device : t) (families : list VkQueueFamilyProperties)
    (i : Z) (indices : QueueFamilyIndices) : M St QueueFamilyIndices :=
  match families with
  | [] => ret indices
  | queueFamily :: rest =>
      let indices := noteQueueFamily device i queueFamily indices in
      if isComplete indices then ret indices
      else if i + 1 >? INT_MAX then undefined "signed integer overflow"
      else findQueueFamilies_from device rest (i + 1) indices
  end.

(** findQueueFamilies(device).  The two indices have no initializer; they
    hold the indeterminate values [graphics0] and [present0] until a
    family is found. *)
Definition findQueueFamilies {St} (graphics0 present0 : Z) (device : t)
  : M St QueueFamilyIndices :=
  findQueueFamilies_from device (queueFamilies device) 0
    {| graphicsFamily := graphics0; presentFamily := present0;
       graphicsFamilyHasValue := false; presentFamilyHasValue := false |}.

(** checkDeviceExtensionSupport: the required names, as a set, less every
    available name. *)
Definition checkDeviceExtensionSupport (device : t) : bool :=
  let requiredExtensions : gset string := list_to_set deviceExtensions in
  let requiredExtensions :=
    foldl (fun required extensionName => required ∖ {[ extensionName ]})
          requiredExtensions (availableExtensions device) in
  bool_decide (requiredExtensions = ∅).

Definition isDeviceSuitable {St} (graphics0 present0 : Z) (device : t) : M St bool :=
  indices <- findQueueFamilies graphics0 present0 device ;;
  let extensionsSupported := checkDeviceExtensionSupport device in
  let swapChainAdequate :=
    if extensionsSupported
    then negb (bool_decide (formats (swapChainSupport device) = []))
         && negb (bool_decide (presentModes (swapChainSupport device) = []))
    else false in
  ret (isComplete indices && extensionsSupported && swapChainAdequate
       && samplerAnisotropy device).

(** The loop of pickPhysicalDevice: the first suitable device. *)
Fixpoint firstSuitable {St} (graphics0 present0 : Z) (devices : list t) : M St (option t) :=
  match devices with
  | [] => ret None
  | device :: rest =>
      suitable <- isDeviceSuitable graphics0 present0 device ;;
      if suitable then ret (Some device) else firstSuitable graphics0 present0 rest
  end.

(** pickPhysicalDevice, given the devices that vkEnumeratePhysicalDevices
    reports; it returns the device that the member physicalDevice, null
    before, is set to. *)
Definition pickPhysicalDevice (graphics0 present0 : Z) (devices : list t) : M World t :=
  let deviceCount := wrap32 (Z.of_nat (length devices)) in
  if deviceCount =? 0 then throw "failed to find GPUs with Vulkan support!" else
  call (StdCout ("Device count: " +:+ pretty deviceCount)) ;;;
  chosen <- firstSuitable graphics0 present0 devices ;;
  match chosen with
  | None => throw "failed to find a suitable GPU!"
  | Some device =>
      if (physicalDevice device =? VK_NULL_HANDLE)%N
      then throw "failed to find a suitable GPU!"
      else call (StdCout ("physical device: " +:+ deviceName device)) ;;; ret device
  end.

End LvePhysicalDevice.

(* ===================================================================== *)
(** ** Vocabulary of the properties *)
(* ===================================================================== *)

(** The colour format the engine prefers. *)
Definition isPreferredFormat (f : VkSurfaceFormatKHR) : Prop :=
  format f = VK_FORMAT_B8G8R8A8_SRGB
  /\ colorSpace f = VK_COLOR_SPACE_SRGB_NONLINEAR_KHR.

(** [x] clamped into the interval from [lo] to [hi]. *)
Definition clampInto (lo hi x : Z) : Z :=
  if x <? lo then lo else if hi <? x then hi else x.

(** The current extent by which a surface says that its size is whatever
    the swap chain asks for. *)
Definition matchWindowExtent : VkExtent2D :=
  {| width := UINT32_MAX; height := UINT32_MAX |}.

(** *** Concrete instances used to exercise the statements *)

Definition exampleCapabilities : VkSurfaceCapabilitiesKHR :=
  {| minImageCount := 2; maxImageCount := 3;
     currentExtent := {| width := 800; height := 600 |};
     minImageExtent := {| width := 1; height := 1 |};
     maxImageExtent := {| width := 4096; height := 4096 |};
     currentTransform := 1 |}.

(** A driver that offers one non-preferred colour format and FIFO only,
    creates three images, supports D32_SFLOAT, hands out the images in
    rotation and answers every call with [result t]; the GPU finishes
    nothing before it is waited for. *)
Definition exampleDriver (result : nat -> VkResult) : Driver :=
  {| drvResult := result;
     drvImageIndex := fun t => Z.of_nat t mod 3;
     drvImageCount := fun _ => 3;
     drvSupport := fun _ =>
       {| capabilities := exampleCapabilities;
          formats := [ {| format := 44; colorSpace := 0 |} ];
          presentModes := [VK_PRESENT_MODE_FIFO_KHR] |};
     drvQueueFamilies := fun _ =>
       {| graphicsFamily := 0; presentFamily := 0;
          graphicsFamilyHasValue := true; presentFamilyHasValue := true |};
     drvFormatProperties := fun _ _ =>
       {| linearTilingFeatures := 0; optimalTilingFeatures := 512 |};
     drvMemoryRequirements := fun _ => {| memSize := 1024; memoryTypeBits := 1 |};
     drvMemoryTypes := fun _ => [1];
     gpuCompletes := fun _ _ => false |}.

(** An 800 x 600 window, nothing created yet. *)
Definition exampleWorld (result : nat -> VkResult) (resized : bool) : World :=
  {| driver := exampleDriver result; calls := []; nextHandle := 0; fences := ∅;
     window := {| LveWindow.width := 800; LveWindow.height := 600;
                  LveWindow.framebufferResized := resized |};
     events := [] |}.

(** A renderer between frames and one inside a frame, with two command
    buffers and no swap chain. *)
Definition idleRenderer : LveRenderer.t :=
  {| LveRenderer.lveSwapChain := None;
     LveRenderer.commandBuffers := [27%N; 28%N];
     LveRenderer.currentImageIndex := 0;
     LveRenderer.currentFrameIndex := 0;
     LveRenderer.isFrameStarted := false |}.

Definition openRenderer : LveRenderer.t :=
  LveRenderer.set_isFrameStarted true idleRenderer.

(** *** Invariants of computations *)

(** [stable I E m]: started in a state where [I] holds, [m] ends in a state
    where [I] holds, or fails with a fault in [E]. *)
Definition stable {St A} (I : St -> Prop) (E : Fault -> Prop) (m : M St A) : Prop :=
  forall s, I s ->
    match m s with
    | Ok (_, s') => I s'
    | Fail f => E f
    end.

Definition anyFault : Fault -> Prop := fun _ => True.

(** Every fault but a [std::runtime_error] with the text [what]. *)
Definition neverThrows (what : string) : Fault -> Prop :=
  fun f => f <> RuntimeError what.

(** The texts of the [std::runtime_error]s that the construction of a swap
    chain can throw. *)
Definition constructionErrors : list string :=
  [ "failed to find supported format!";
    "failed to find suitable memory type!";
    "failed to create image!";
    "failed to allocate image memory!";
    "failed to bind image memory!";
    "failed to create swap chain!";
    "failed to create texture image view!";
    "failed to create render pass!";
    "failed to create framebuffer!";
    "failed to create synchronization objects for a frame!" ].

(** A property of the world that calls cannot undo: it does not depend on
    the handle counter, the fences, the window or the pending events, and
    it survives a further call. *)
Record Persistent (K : World -> Prop) : Prop := {
  persistent_ticked : forall c w, K w -> K (ticked c w);
  persistent_nextHandle : forall f w, K w -> K (set_nextHandle f w);
  persistent_fences : forall f w, K w -> K (set_fences f w);
  persistent_window : forall f w, K w -> K (set_window f w);
  persistent_events : forall f w, K w -> K (set_events f w)
}.

(** A set of faults that contains every fault but thrown errors, and the
    errors of construction. *)
Record AllowsConstruction (E : Fault -> Prop) : Prop := {
  allows_other : forall f, (forall what, f <> RuntimeError what) -> E f;
  allows_construction : forall what, In what constructionErrors -> E (RuntimeError what)
}.

(** [K] holds of the world and [J] of the swap chain. *)
Definition holds (K : World -> Prop) (J : LveSwapChain.t -> Prop)
  : World * LveSwapChain.t -> Prop :=
  fun s => K (fst s) /\ J (snd s).

(** The fence [f] is signaled in the world [w]. *)
Definition signaled (w : World) (f : handle) : Prop :=
  fences w !! f = Some Signaled.

(** The fence [f] is signaled or will be: it is not unsignaled with
    nothing queued to signal it. *)
Definition signaledOrPending (w : World) (f : handle) : Prop :=
  fences w !! f = Some Signaled \/ fences w !! f = Some Pending.

(** *** The surface and the driver at a construction *)

(** The capabilities the surface reports to a construction that starts in
    the world [w]: the answer to its first call. *)
Definition surfaceCapabilitiesAt (w : World) : VkSurfaceCapabilitiesKHR :=
  capabilities (drvSupport (driver w) (length (calls w))).

(** The number of images the driver makes for the swap chain of that
    construction: the answer to its fifth call. *)
Definition imagesCreatedAt (w : World) : Z :=
  wrap32 (drvImageCount (driver w) (length (calls w) + 4)).




(** Either constructor of the swap chain; [previous] is [None] for the one
    that takes no previous swap chain. *)
Definition constructedBy (extent : VkExtent2D) (previous : option LveSwapChain.t)
    (w : World) (sc : LveSwapChain.t) (w' : World) : Prop :=
  LveSwapChain.new_from extent previous w = Ok (sc, w')
  \/ (previous = None /\ LveSwapChain.new extent w = Ok (sc, w')).

(** *** Reconstruction *)

Definition formatChanged : string := "Swap chain image(or depth) format has changed!".

(** The reconstruction that starts in the world [w] with the instance [old]
    gets as far as constructing the new instance [created], in [w']. *)
Definition reconstructs (w : World) (old created : LveSwapChain.t) (w' : World) : Prop :=
  exists extent w1 w2,
    LveRenderer.waitWhileMinimized (S (length (events w)))
                                   (LveWindow.getExtent (window w)) w
    = Ok (extent, w1)
    /\ vkDeviceWaitIdle w1 = Ok (tt, w2)
    /\ LveSwapChain.new_from extent (Some old) w2 = Ok (created, w').

(** The colour format or the depth format of [a] is not that of [b]. *)
Definition formatsDiffer (a b : LveSwapChain.t) : Prop :=
  LveSwapChain.swapChainImageFormat a <> LveSwapChain.swapChainImageFormat b
  \/ LveSwapChain.swapChainDepthFormat a <> LveSwapChain.swapChainDepthFormat b.

Definition exampleExtent : VkExtent2D := {| width := 800; height := 600 |}.

(** The world in which every call succeeds and the window was not resized. *)
Definition calmWorld : World := exampleWorld (fun _ => VK_SUCCESS) false.

(** A previous swap chain, of which construction reads the handle only. *)
Definition examplePrevious : LveSwapChain.t :=
  LveSwapChain.set_swapChain 7%N (LveSwapChain.constructed exampleExtent None).

(** *** Fences over a run of frames *)

(** The worlds after a wait for a fence, a reset of a fence and a
    successful queue submission with a fence. *)
Definition waited (fence : handle) (w : World) : World :=
  set_fences <[fence := Signaled]> (ticked (VkWaitForFences fence) w).


Definition submitted (submit : VkSubmitInfo) (fence : handle) (w : World) : World :=
  set_fences <[fence := Pending]> (ticked (VkQueueSubmit submit fence) w).

(** The invariant of the synchronization objects between the operations of
    the swap chain: two distinct fences, each signaled or pending; every
    image is owned by none or by one of them; two semaphores of each kind;
    the frame index is 0 or 1. *)
Definition syncInvariant (w : World) (sc : LveSwapChain.t) : Prop :=
  exists fence0 fence1,
    LveSwapChain.inFlightFences sc = [fence0; fence1]
    /\ fence0 <> fence1
    /\ fence0 <> VK_NULL_HANDLE /\ fence1 <> VK_NULL_HANDLE
    /\ signaledOrPending w fence0 /\ signaledOrPending w fence1
    /\ Forall (fun owner => owner = VK_NULL_HANDLE \/ owner = fence0 \/ owner = fence1)
              (LveSwapChain.imagesInFlight sc)
    /\ length (LveSwapChain.imageAvailableSemaphores sc) = 2%nat
    /\ length (LveSwapChain.renderFinishedSemaphores sc) = 2%nat
    /\ (LveSwapChain.currentFrame sc = 0 \/ LveSwapChain.currentFrame sc = 1).






(** *** Frames *)

(** The state a computation ends in; the state it started in when it
    fails. *)
Definition after {St A} (m : M St A) (s : St) : St :=
  match m s with
  | Ok (_, s') => s'
  | Fail _ => s
  end.




(** One frame of a swap chain: acquire an image and submit to it. *)
Definition frame (buffers : handle) : M (World * LveSwapChain.t) VkResult :=
  acquired <- LveSwapChain.acquireNextImage ;;
  match snd acquired with
  | Some imageIndex => LveSwapChain.submitCommandBuffers buffers imageIndex
  | None => ret (fst acquired)
  end.

Fixpoint frames (n : nat) (buffers : handle) : M (World * LveSwapChain.t) unit :=
  match n with
  | O => ret tt
  | S n' => frame buffers ;;; frames n' buffers
  end.

(** A renderer just constructed, its three members without initializer
    being 0, 0 and false, in the world where every call succeeds. *)
Definition exampleRenderer (resized : bool) : World * LveRenderer.t :=
  match LveRenderer.new 0 0 false (exampleWorld (fun _ => VK_SUCCESS) resized) with
  | Ok (r, w) => (w, r)
  | Fail _ => (calmWorld, idleRenderer)
  end.

(** The condition on which endFrame recreates the swap chain. *)
Definition endFrameRecreates (present : VkResult) (w : World) : bool :=
  (present =? VK_ERROR_OUT_OF_DATE_KHR) || (present =? VK_SUBOPTIMAL_KHR)
  || LveWindow.wasWindowResized (window w).

(** The status that the submission endFrame makes in the state [s] returns,
    and the world it returns in. *)
Definition presented (s : World * LveRenderer.t) : option (VkResult * World) :=
  match LveRenderer.lveSwapChain (snd s),
        nth_Z (LveRenderer.commandBuffers (snd s)) (LveRenderer.currentFrameIndex (snd s))
  with
  | Some sc, Some commandBuffer =>
      match LveSwapChain.submitCommandBuffers
              commandBuffer (LveRenderer.currentImageIndex (snd s))
              (ticked (VkEndCommandBuffer commandBuffer) (fst s), sc)
      with
      | Ok (present, (w, _)) => Some (present, w)
      | Fail _ => None
      end
  | _, _ => None
  end.




(** *** Formats and memory types of the device *)

(** The device supports [features] of [format] with [tiling], by what it
    answers to the [k]-th call from the world [w]. *)
Definition formatSupportedAt (w : World) (k : nat) (format : VkFormat)
    (tiling features : Z) : bool :=
  let props := drvFormatProperties (driver w) (length (calls w) + k) format in
  ((tiling =? VK_IMAGE_TILING_LINEAR)
   && (Z.land (linearTilingFeatures props) features =? features))
  || ((tiling =? VK_IMAGE_TILING_OPTIMAL)
      && (Z.land (optimalTilingFeatures props) features =? features)).

(** The memory type [i] of [types] is allowed by [typeFilter] and has all of
    [properties]. *)
Definition suitableMemoryType (types : list Z) (typeFilter properties : Z) (i : Z) : Prop :=
  exists propertyFlags,
    nth_Z types i = Some propertyFlags
    /\ Z.testbit typeFilter i = true
    /\ Z.land propertyFlags properties = properties.

(** The world [w] with a device that has the memory types [types]. *)
Definition withMemoryTypes (types : list Z) (w : World) : World :=
  {| driver :=
       {| drvResult := drvResult (driver w);
          drvImageIndex := drvImageIndex (driver w);
          drvImageCount := drvImageCount (driver w);
          drvSupport := drvSupport (driver w);
          drvQueueFamilies := drvQueueFamilies (driver w);
          drvFormatProperties := drvFormatProperties (driver w);
          drvMemoryRequirements := drvMemoryRequirements (driver w);
          drvMemoryTypes := fun _ => types;
          gpuCompletes := gpuCompletes (driver w) |};
     calls := calls w; nextHandle := nextHandle w; fences := fences w;
     window := window w; events := events w |}.

(** Three memory types: the first and the third are device-local. *)
Definition memoryWorld : World := withMemoryTypes [1; 6; 7] calmWorld.

(** The world [w] with a surface that offers the formats [l]. *)
Definition withFormats (l : list VkSurfaceFormatKHR) (w : World) : World :=
  {| driver :=
       {| drvResult := drvResult (driver w);
          drvImageIndex := drvImageIndex (driver w);
          drvImageCount := drvImageCount (driver w);
          drvSupport := fun t =>
            {| capabilities := capabilities (drvSupport (driver w) t);
               formats := l;
               presentModes := presentModes (drvSupport (driver w) t) |};
          drvQueueFamilies := drvQueueFamilies (driver w);
          drvFormatProperties := drvFormatProperties (driver w);
          drvMemoryRequirements := drvMemoryRequirements (driver w);
          drvMemoryTypes := drvMemoryTypes (driver w);
          gpuCompletes := gpuCompletes (driver w) |};
     calls := calls w; nextHandle := nextHandle w; fences := fences w;
     window := window w; events := events w |}.

(** The world in which vkCreateSwapchainKHR, the fourth call of a
    construction, fails. *)
Definition creationFails : World :=
  exampleWorld (fun t => if (t =? 3)%nat then VK_ERROR_DEVICE_LOST else VK_SUCCESS) false.


(** A minimized window, to which the events [arriving] are still to come. *)
Definition minimizedWorld (arriving : list WindowEvent) : World :=
  {| driver := exampleDriver (fun _ => VK_SUCCESS); calls := []; nextHandle := 0;
     fences := ∅;
     window := {| LveWindow.width := 0; LveWindow.height := 0;
                  LveWindow.framebufferResized := false |};
     events := arriving |}.

(** The renderer in its first frame, with a driver that fails the call that
    follows: the construction of the renderer makes 41 calls and beginFrame
    three. *)
Definition recordingFails : World * LveRenderer.t :=
  after LveRenderer.beginFrame
    match LveRenderer.new 0 0 false
            (exampleWorld (fun t => if (t =? 44)%nat then VK_ERROR_DEVICE_LOST
                                    else VK_SUCCESS) false) with
    | Ok (r, w) => (w, r)
    | Fail _ => (calmWorld, idleRenderer)
    end.

(** *** The physical device *)

(** The queue family [i] of the device has queues and does graphics, and it
    has queues and can present to the surface. *)
Definition graphicsCapable (device : LvePhysicalDevice.t) (i : Z) : Prop :=
  exists queueFamily,
    nth_Z (LvePhysicalDevice.queueFamilies device) i = Some queueFamily
    /\ LvePhysicalDevice.queueCount queueFamily > 0
    /\ Z.land (LvePhysicalDevice.queueFlags queueFamily)
              LvePhysicalDevice.VK_QUEUE_GRAPHICS_BIT <> 0.

Definition presentCapable (device : LvePhysicalDevice.t) (i : Z) : Prop :=
  exists queueFamily,
    nth_Z (LvePhysicalDevice.queueFamilies device) i = Some queueFamily
    /\ LvePhysicalDevice.queueCount queueFamily > 0
    /\ LvePhysicalDevice.presentSupport device i = true.

(** The device has no more queue families than an int counts. *)
Definition fewQueueFamilies (device : LvePhysicalDevice.t) : Prop :=
  Z.of_nat (length (LvePhysicalDevice.queueFamilies device)) <= INT_MAX.

(** What the engine needs of a device: a queue family for graphics and one
    for presentation, the swap chain extension, a surface format and a
    present mode, and anisotropic sampling. *)
Definition suitableDevice (device : LvePhysicalDevice.t) : Prop :=
  (exists i, graphicsCapable device i)
  /\ (exists j, presentCapable device j)
  /\ "VK_KHR_swapchain" ∈ LvePhysicalDevice.availableExtensions device
  /\ formats (LvePhysicalDevice.swapChainSupport device) <> []
  /\ presentModes (LvePhysicalDevice.swapChainSupport device) <> []
  /\ LvePhysicalDevice.samplerAnisotropy device = true.

(** A device with a graphics family and a compute family that presents; a
    device like it without the swap chain extension. *)
Definition exampleGpu : LvePhysicalDevice.t :=
  {| LvePhysicalDevice.physicalDevice := 5%N;
     LvePhysicalDevice.deviceName := "gpu";
     LvePhysicalDevice.queueFamilies :=
       [ {| LvePhysicalDevice.queueFlags := 7; LvePhysicalDevice.queueCount := 1 |};
         {| LvePhysicalDevice.queueFlags := 2; LvePhysicalDevice.queueCount := 2 |} ];
     LvePhysicalDevice.presentSupport := fun i => i =? 1;
     LvePhysicalDevice.availableExtensions := ["VK_KHR_maintenance1"; "VK_KHR_swapchain"];
     LvePhysicalDevice.swapChainSupport :=
       {| capabilities := exampleCapabilities;
          formats := [ {| format := 44; colorSpace := 0 |} ];
          presentModes := [VK_PRESENT_MODE_FIFO_KHR] |};
     LvePhysicalDevice.samplerAnisotropy := true |}.

Definition headlessGpu : LvePhysicalDevice.t :=
  {| LvePhysicalDevice.physicalDevice := 4%N;
     LvePhysicalDevice.deviceName := "headless";
     LvePhysicalDevice.queueFamilies := LvePhysicalDevice.queueFamilies exampleGpu;
     LvePhysicalDevice.presentSupport := LvePhysicalDevice.presentSupport exampleGpu;
     LvePhysicalDevice.availableExtensions := ["VK_KHR_maintenance1"];
     LvePhysicalDevice.swapChainSupport := LvePhysicalDevice.swapChainSupport exampleGpu;
     LvePhysicalDevice.samplerAnisotropy := true |}.

(** What the loop of findQueueFamilies knows before the family at index
    [i]: an index it has noted is that of a capable family, and while it
    has noted none of a kind no family below [i] is capable of it. *)
Definition foundSoFar (device : LvePhysicalDevice.t) (i : Z) (indices : QueueFamilyIndices)
  : Prop :=
  (graphicsFamilyHasValue indices = true -> graphicsCapable device (graphicsFamily indices))
  /\ (presentFamilyHasValue indices = true -> presentCapable device (presentFamily indices))
  /\ (graphicsFamilyHasValue indices = false -> forall j, j < i -> ~ graphicsCapable device j)
  /\ (presentFamilyHasValue indices = false -> forall j, j < i -> ~ presentCapable device j).

(* ===================================================================== *)
(** ** Properties *)
(* ===================================================================== *)

(** *** Choosing the surface format and the extent *)

Lemma findPreferredFormat_Some (l : list VkSurfaceFormatKHR) (chosen : VkSurfaceFormatKHR) :
  LveSwapChain.findPreferredFormat l = Some chosen ->
  exists before after,
    l = before ++ chosen :: after
    /\ Forall (fun f => ~ isPreferredFormat f) before
    /\ isPreferredFormat chosen.
Proof.
  induction l as [|f l IH]; simpl; [discriminate|].
  destruct (format f =? VK_FORMAT_B8G8R8A8_SRGB) eqn:Hf;
    destruct (colorSpace f =? VK_COLOR_SPACE_SRGB_NONLINEAR_KHR) eqn:Hc; simpl.
  - intros [= <-]. exists [], l. repeat split; [constructor| |]; lia.
  - intros H. destruct (IH H) as (before & after & -> & Hb & Hp).
    exists (f :: before), after. repeat split; try apply Hp.
    constructor; [|exact Hb]. intros [_ ?]. lia.
  - intros H. destruct (IH H) as (before & after & -> & Hb & Hp).
    exists (f :: before), after. repeat split; try apply Hp.
    constructor; [|exact Hb]. intros [? _]. lia.
  - intros H. destruct (IH H) as (before & after & -> & Hb & Hp).
    exists (f :: before), after. repeat split; try apply Hp.
    constructor; [|exact Hb]. intros [? _]. lia.
Qed.

Lemma findPreferredFormat_None (l : list VkSurfaceFormatKHR) :
  Forall (fun f => ~ isPreferredFormat f) l ->
  LveSwapChain.findPreferredFormat l = None.
Proof.
  induction 1 as [|f l Hf _ IH]; simpl; [reflexivity|].
  destruct (format f =? VK_FORMAT_B8G8R8A8_SRGB) eqn:E1;
    destruct (colorSpace f =? VK_COLOR_SPACE_SRGB_NONLINEAR_KHR) eqn:E2;
    simpl; try exact IH.
  exfalso. apply Hf. split; lia.
Qed.

Lemma findPreferredFormat_Exists (l : list VkSurfaceFormatKHR) :
  Exists isPreferredFormat l ->
  exists chosen, LveSwapChain.findPreferredFormat l = Some chosen.
Proof.
  induction 1 as [f l [Hf Hc]|f l _ [chosen IH]]; simpl.
  - rewrite Hf, Hc. simpl. eauto.
  - destruct (_ && _); eauto.
Qed.

(** C7.  From a non-empty list of surface formats, chooseSwapSurfaceFormat
    returns the first entry that is B8G8R8A8_SRGB with the SRGB_NONLINEAR
    colour space when the list has one, and the first element of the list
    when it has none. *)
Theorem chooseSwapSurfaceFormat_prefers_srgb_else_first
    {St : Type} (first : VkSurfaceFormatKHR) (rest : list VkSurfaceFormatKHR) (s : St) :
  (Exists isPreferredFormat (first :: rest) ->
   exists before chosen after,
     first :: rest = before ++ chosen :: after
     /\ Forall (fun f => ~ isPreferredFormat f) before
     /\ isPreferredFormat chosen
     /\ LveSwapChain.chooseSwapSurfaceFormat (first :: rest) s = Ok (chosen, s))
  /\ (Forall (fun f => ~ isPreferredFormat f) (first :: rest) ->
      LveSwapChain.chooseSwapSurfaceFormat (first :: rest) s = Ok (first, s)).
Proof.
  split.
  - intros Hex. destruct (findPreferredFormat_Exists _ Hex) as [chosen Hfind].
    destruct (findPreferredFormat_Some _ _ Hfind) as (before & after & Heq & Hb & Hp).
    exists before, chosen, after. repeat split; try assumption; try apply Hp.
    unfold LveSwapChain.chooseSwapSurfaceFormat. rewrite Hfind. reflexivity.
  - intros Hall. unfold LveSwapChain.chooseSwapSurfaceFormat.
    rewrite (findPreferredFormat_None _ Hall). reflexivity.
Qed.

Lemma chooseSwapSurfaceFormat_witness :
  (exists before chosen after,
     [ {| format := 44; colorSpace := 0 |}; {| format := 50; colorSpace := 0 |} ]
     = before ++ chosen :: after
     /\ Forall (fun f => ~ isPreferredFormat f) before
     /\ isPreferredFormat chosen
     /\ LveSwapChain.chooseSwapSurfaceFormat
          [ {| format := 44; colorSpace := 0 |}; {| format := 50; colorSpace := 0 |} ] tt
        = Ok (chosen, tt))
  /\ LveSwapChain.chooseSwapSurfaceFormat
       [ {| format := 44; colorSpace := 0 |}; {| format := 37; colorSpace := 0 |} ] tt
     = Ok ({| format := 44; colorSpace := 0 |}, tt).
Proof.
  split.
  - apply (proj1 (chooseSwapSurfaceFormat_prefers_srgb_else_first
                    {| format := 44; colorSpace := 0 |}
                    [ {| format := 50; colorSpace := 0 |} ] tt)).
    right. left. split; reflexivity.
  - apply (proj2 (chooseSwapSurfaceFormat_prefers_srgb_else_first
                    {| format := 44; colorSpace := 0 |}
                    [ {| format := 37; colorSpace := 0 |} ] tt)).
    repeat constructor; intros [H _]; discriminate H.
Defined.

Lemma max_min_clampInto (lo hi x : Z) :
  lo <= hi -> Z.max lo (Z.min hi x) = clampInto lo hi x.
Proof.
  intros Hle. unfold clampInto.
  destruct (x <? lo) eqn:E1; [lia|]. destruct (hi <? x) eqn:E2; lia.
Qed.

(** C6.  chooseSwapExtent returns the surface's current extent whenever that
    is a real extent, and the window extent with each dimension clamped into
    the surface's minimum and maximum image extent when the current extent
    is the "match the window" value; that value is recognised by its width
    0xFFFFFFFF.  The result of the clamping is never below the minimum, and
    between minimum and maximum when these are in order. *)
Theorem chooseSwapExtent_current_or_clamped
    (windowExtent : VkExtent2D) (capabilities : VkSurfaceCapabilitiesKHR) :
  let lo := minImageExtent capabilities in
  let hi := maxImageExtent capabilities in
  let chosen := LveSwapChain.chooseSwapExtent windowExtent capabilities in
  (width (currentExtent capabilities) <> UINT32_MAX ->
   chosen = currentExtent capabilities)
  /\ (currentExtent capabilities = matchWindowExtent
      \/ width (currentExtent capabilities) = UINT32_MAX ->
      width lo <= width chosen /\ height lo <= height chosen
      /\ (width lo <= width hi ->
          width chosen = clampInto (width lo) (width hi) (width windowExtent)
          /\ width lo <= width chosen <= width hi)
      /\ (height lo <= height hi ->
          height chosen = clampInto (height lo) (height hi) (height windowExtent)
          /\ height lo <= height chosen <= height hi)).
Proof.
  cbv zeta. unfold LveSwapChain.chooseSwapExtent. split.
  - intros Hw. destruct (width (currentExtent capabilities) =? UINT32_MAX) eqn:E;
      [lia | reflexivity].
  - intros Hs.
    assert (Hw : width (currentExtent capabilities) = UINT32_MAX).
    { destruct Hs as [-> | ?]; [reflexivity | assumption]. }
    rewrite Hw, Z.eqb_refl. simpl.
    repeat split; try lia; apply max_min_clampInto; assumption.
Qed.

Lemma chooseSwapExtent_witness :
  LveSwapChain.chooseSwapExtent
    {| width := 5000; height := 600 |}
    {| minImageCount := 2; maxImageCount := 3;
       currentExtent := {| width := 1024; height := 768 |};
       minImageExtent := {| width := 1; height := 1 |};
       maxImageExtent := {| width := 4096; height := 4096 |};
       currentTransform := 1 |}
  = {| width := 1024; height := 768 |}
  /\ width (LveSwapChain.chooseSwapExtent
              {| width := 5000; height := 600 |}
              {| minImageCount := 2; maxImageCount := 3;
                 currentExtent := matchWindowExtent;
                 minImageExtent := {| width := 1; height := 1 |};
                 maxImageExtent := {| width := 4096; height := 4096 |};
                 currentTransform := 1 |})
     = clampInto 1 4096 5000.
Proof.
  split.
  - apply (proj1 (chooseSwapExtent_current_or_clamped
                    {| width := 5000; height := 600 |}
                    {| minImageCount := 2; maxImageCount := 3;
                       currentExtent := {| width := 1024; height := 768 |};
                       minImageExtent := {| width := 1; height := 1 |};
                       maxImageExtent := {| width := 4096; height := 4096 |};
                       currentTransform := 1 |})).
    simpl. unfold UINT32_MAX. lia.
  - apply (proj2 (chooseSwapExtent_current_or_clamped
                    {| width := 5000; height := 600 |}
                    {| minImageCount := 2; maxImageCount := 3;
                       currentExtent := matchWindowExtent;
                       minImageExtent := {| width := 1; height := 1 |};
                       maxImageExtent := {| width := 4096; height := 4096 |};
                       currentTransform := 1 |})).
    + left. reflexivity.
    + simpl. lia.
Defined.

(** *** The frame protocol: calls out of order *)

Lemma getCurrentCommandBuffer_open (w : World) (r : LveRenderer.t) (current : handle) :
  LveRenderer.isFrameStarted r = true ->
  nth_Z (LveRenderer.commandBuffers r) (LveRenderer.currentFrameIndex r) = Some current ->
  LveRenderer.getCurrentCommandBuffer (w, r) = Ok (current, (w, r)).
Proof.
  intros Hopen Hcur. unfold LveRenderer.getCurrentCommandBuffer, bind, LveRenderer.this, at_.
  simpl. rewrite Hopen. simpl. rewrite Hcur. reflexivity.
Qed.

(** C8.  Calls out of order fail an assertion: beginFrame while a frame is
    open; endFrame, beginSwapChainRenderPass and endSwapChainRenderPass
    while no frame is open; beginSwapChainRenderPass and
    endSwapChainRenderPass, in an open frame, on a command buffer other than
    the one of the current frame slot.  None of them changes the state or
    returns. *)
Theorem out_of_order_calls_fail_assertion
    (w : World) (r : LveRenderer.t) (commandBuffer current : handle) :
  (LveRenderer.isFrameStarted r = true ->
   LveRenderer.beginFrame (w, r)
   = Fail (AssertionFailure "Can't call beginFrame while already in progress"))
  /\ (LveRenderer.isFrameStarted r = false ->
      LveRenderer.endFrame (w, r)
      = Fail (AssertionFailure "Can't call endFrame while frame is not in progress")
      /\ LveRenderer.beginSwapChainRenderPass commandBuffer (w, r)
         = Fail (AssertionFailure
                   "Can't call beginSwapChainRenderPass if frame is not in progress")
      /\ LveRenderer.endSwapChainRenderPass commandBuffer (w, r)
         = Fail (AssertionFailure
                   "Can't call endSwapChainRenderPass if frame is not in progress"))
  /\ (LveRenderer.isFrameStarted r = true ->
      nth_Z (LveRenderer.commandBuffers r) (LveRenderer.currentFrameIndex r) = Some current ->
      commandBuffer <> current ->
      LveRenderer.beginSwapChainRenderPass commandBuffer (w, r)
      = Fail (AssertionFailure
                "Can't begin render pass on command buffer from a different frame")
      /\ LveRenderer.endSwapChainRenderPass commandBuffer (w, r)
         = Fail (AssertionFailure
                   "Can't end render pass on command buffer from a different frame")).
Proof.
  split; [|split].
  - intros Hopen. unfold LveRenderer.beginFrame, bind, LveRenderer.this. simpl.
    rewrite Hopen. reflexivity.
  - intros Hclosed. repeat split.
    + unfold LveRenderer.endFrame, bind, LveRenderer.this. simpl.
      rewrite Hclosed. reflexivity.
    + unfold LveRenderer.beginSwapChainRenderPass, bind, LveRenderer.this. simpl.
      rewrite Hclosed. reflexivity.
    + unfold LveRenderer.endSwapChainRenderPass, bind, LveRenderer.this. simpl.
      rewrite Hclosed. reflexivity.
  - intros Hopen Hcur Hne.
    assert (Hcmp : (commandBuffer =? current)%N = false) by (apply N.eqb_neq; exact Hne).
    pose proof (getCurrentCommandBuffer_open w r current Hopen Hcur) as Hget.
    split.
    + unfold LveRenderer.beginSwapChainRenderPass, bind at 1 2, LveRenderer.this. simpl.
      rewrite Hopen. simpl. unfold bind at 1. rewrite Hget.
      unfold bind at 1. rewrite Hcmp. reflexivity.
    + unfold LveRenderer.endSwapChainRenderPass, bind at 1 2, LveRenderer.this. simpl.
      rewrite Hopen. simpl. unfold bind at 1. rewrite Hget.
      unfold bind at 1. rewrite Hcmp. reflexivity.
Qed.

(** C10.  getCurrentCommandBuffer and getFrameIndex fail an assertion while
    no frame is open; while one is open they return the command buffer at
    the current frame-slot index and that index, and change nothing. *)
Theorem accessors_need_open_frame (w : World) (r : LveRenderer.t) :
  (LveRenderer.isFrameStarted r = false ->
   LveRenderer.getCurrentCommandBuffer (w, r)
   = Fail (AssertionFailure "Cannot get command buffer when frame not in progress")
   /\ LveRenderer.getFrameIndex (w, r)
      = Fail (AssertionFailure "Cannot get frame index when frame not in progress"))
  /\ (LveRenderer.isFrameStarted r = true ->
      LveRenderer.getFrameIndex (w, r) = Ok (LveRenderer.currentFrameIndex r, (w, r))
      /\ forall current,
           nth_Z (LveRenderer.commandBuffers r) (LveRenderer.currentFrameIndex r)
           = Some current ->
           LveRenderer.getCurrentCommandBuffer (w, r) = Ok (current, (w, r))).
Proof.
  split.
  - intros Hclosed.
    unfold LveRenderer.getCurrentCommandBuffer, LveRenderer.getFrameIndex, bind,
      LveRenderer.this.
    simpl. rewrite Hclosed. split; reflexivity.
  - intros Hopen. split.
    + unfold LveRenderer.getFrameIndex, bind, LveRenderer.this. simpl.
      rewrite Hopen. reflexivity.
    + intros current Hcur. apply getCurrentCommandBuffer_open; assumption.
Qed.

Lemma out_of_order_calls_witness :
  LveRenderer.beginFrame (exampleWorld (fun _ => VK_SUCCESS) false, openRenderer)
  = Fail (AssertionFailure "Can't call beginFrame while already in progress")
  /\ LveRenderer.endFrame (exampleWorld (fun _ => VK_SUCCESS) false, idleRenderer)
     = Fail (AssertionFailure "Can't call endFrame while frame is not in progress")
  /\ LveRenderer.beginSwapChainRenderPass
       28%N (exampleWorld (fun _ => VK_SUCCESS) false, openRenderer)
     = Fail (AssertionFailure
               "Can't begin render pass on command buffer from a different frame").
Proof.
  split; [|split].
  - apply (proj1 (out_of_order_calls_fail_assertion
                    (exampleWorld (fun _ => VK_SUCCESS) false) openRenderer 28%N 27%N)).
    reflexivity.
  - apply (proj1 (proj2 (out_of_order_calls_fail_assertion
                           (exampleWorld (fun _ => VK_SUCCESS) false) idleRenderer
                           28%N 27%N))).
    reflexivity.
  - apply (proj2 (proj2 (out_of_order_calls_fail_assertion
                           (exampleWorld (fun _ => VK_SUCCESS) false) openRenderer
                           28%N 27%N))).
    + reflexivity.
    + reflexivity.
    + discriminate.
Defined.

Lemma accessors_witness :
  LveRenderer.getFrameIndex (exampleWorld (fun _ => VK_SUCCESS) false, idleRenderer)
  = Fail (AssertionFailure "Cannot get frame index when frame not in progress")
  /\ LveRenderer.getCurrentCommandBuffer
       (exampleWorld (fun _ => VK_SUCCESS) false, openRenderer)
     = Ok (27%N, (exampleWorld (fun _ => VK_SUCCESS) false, openRenderer)).
Proof.
  split.
  - apply (proj1 (accessors_need_open_frame
                    (exampleWorld (fun _ => VK_SUCCESS) false) idleRenderer)).
    reflexivity.
  - apply (proj2 (accessors_need_open_frame
                    (exampleWorld (fun _ => VK_SUCCESS) false) openRenderer)).
    + reflexivity.
    + reflexivity.
Defined.

(** *** Rules for invariants *)

Section Rules.
Context {St : Type}.
Variable I : St -> Prop.
Variable E : Fault -> Prop.

Lemma stable_ret {A} (a : A) : stable I E (ret a).
Proof. intros s Hs. exact Hs. Qed.

Lemma stable_get : stable I E get.
Proof. intros s Hs. exact Hs. Qed.

Lemma stable_bind {A B} (m : M St A) (k : A -> M St B) :
  stable I E m -> (forall a, stable I E (k a)) -> stable I E (bind m k).
Proof.
  intros Hm Hk s Hs. unfold bind. specialize (Hm s Hs).
  destruct (m s) as [[a s']|f]; [apply Hk; exact Hm | exact Hm].
Qed.

Lemma stable_modify (f : St -> St) :
  (forall s, I s -> I (f s)) -> stable I E (modify f).
Proof. intros Hf s Hs. apply Hf, Hs. Qed.

Lemma stable_fail {A} (f : Fault) : E f -> stable I E (@fail St A f).
Proof. intros Hf s _. exact Hf. Qed.

Lemma stable_assert (cond : bool) (what : string) :
  E (AssertionFailure what) -> stable I E (assert cond what).
Proof. intros Hf. destruct cond; [apply stable_ret | apply stable_fail, Hf]. Qed.

Lemma stable_at {A} (v : list A) (i : Z) :
  E (UndefinedBehaviour "vector subscript out of range") -> stable I E (at_ v i).
Proof.
  intros Hf. unfold at_. destruct (nth_Z v i); [apply stable_ret | apply stable_fail, Hf].
Qed.

Lemma stable_forRange (n i : nat) (body : nat -> M St unit) :
  (forall j, stable I E (body j)) -> stable I E (forRange n i body).
Proof.
  intros Hbody. revert i. induction n as [|n IH]; intros i; simpl.
  - apply stable_ret.
  - apply stable_bind; [apply Hbody | intros _; apply IH].
Qed.

End Rules.

Lemma stable_Ok {St A} (I : St -> Prop) (E : Fault -> Prop) (m : M St A)
    (s s' : St) (a : A) :
  stable I E m -> I s -> m s = Ok (a, s') -> I s'.
Proof. intros Hm Hs Hrun. specialize (Hm s Hs). rewrite Hrun in Hm. exact Hm. Qed.

Lemma stable_Fail {St A} (I : St -> Prop) (E : Fault -> Prop) (m : M St A)
    (s : St) (f : Fault) :
  stable I E m -> I s -> m s = Fail f -> E f.
Proof. intros Hm Hs Hrun. specialize (Hm s Hs). rewrite Hrun in Hm. exact Hm. Qed.

(** One step of a proof that a computation keeps an invariant: split a
    sequence, decide a branch, close a leaf. *)
Ltac stable_step :=
  lazymatch goal with
  | |- stable _ _ (bind _ _) => apply stable_bind; [|intros ?]
  | |- stable _ _ (ret _) => apply stable_ret
  | |- stable _ _ get => apply stable_get
  | |- stable _ _ (at_ _ _) => apply stable_at
  | |- stable _ _ (assert _ _) => apply stable_assert
  | |- stable _ _ (fail _) => apply stable_fail
  | |- stable _ _ (throw _) => apply stable_fail
  | |- stable _ _ (undefined _) => apply stable_fail
  | |- stable _ _ (forRange _ _ _) => apply stable_forRange; intros ?
  | |- stable _ _ (modify _) => apply stable_modify
  | |- stable _ _ (if ?b then _ else _) => destruct b
  | |- stable _ _ (match ?x with _ => _ end) => destruct x
  | |- stable _ _ (let _ := _ in _) => cbv zeta
  end.

(** *** Running a sequence backwards: what a successful run went through *)

Lemma bind_Ok {St A B} (m : M St A) (k : A -> M St B) (s : St) (r : B * St) :
  bind m k s = Ok r -> exists a s1, m s = Ok (a, s1) /\ k a s1 = Ok r.
Proof.
  unfold bind. destruct (m s) as [[a s1]|f]; [eauto | discriminate].
Qed.

Lemma onFst_Ok {W X A} (m : M W A) (w : W) (x : X) (a : A) (s' : W * X) :
  onFst m (w, x) = Ok (a, s') -> exists w', m w = Ok (a, w') /\ s' = (w', x).
Proof.
  unfold onFst. simpl. destruct (m w) as [[a' w']|f]; [|discriminate].
  intros [= -> <-]. eauto.
Qed.

Lemma ret_Ok {St A} (a a' : A) (s s' : St) :
  ret a s = Ok (a', s') -> a' = a /\ s' = s.
Proof. intros [= <- <-]. split; reflexivity. Qed.

Lemma call_Ok (c : Call) (w w' : World) (t : nat) :
  call c w = Ok (t, w') -> t = length (calls w) /\ w' = ticked c w.
Proof. intros [= <- <-]. split; reflexivity. Qed.

Lemma callResult_Ok (c : Call) (w w' : World) (result : VkResult) :
  callResult c w = Ok (result, w') ->
  result = drvResult (driver w) (length (calls w)) /\ w' = ticked c w.
Proof. intros [= <- <-]. split; reflexivity. Qed.

Lemma ticked_calls (c : Call) (w : World) : calls (ticked c w) = calls w ++ [c].
Proof. reflexivity. Qed.

Lemma vkCreate_Ok (c : Call) (w w' : World) (result : VkResult) (h : handle) :
  vkCreate c w = Ok ((result, h), w') ->
  result = drvResult (driver w) (length (calls w))
  /\ driver w' = driver w
  /\ calls w' = calls w ++ [c]
  /\ events w' = events w
  /\ window w' = window w
  /\ (result = VK_SUCCESS -> h = N.succ (nextHandle w) /\ nextHandle w' = h)
  /\ (result <> VK_SUCCESS -> nextHandle w' = nextHandle w).
Proof.
  unfold vkCreate, bind. simpl.
  destruct (drvResult (driver w) (length (calls w)) =? VK_SUCCESS) eqn:E; simpl;
    intros [= <- <- <-]; repeat split; try reflexivity; intros; lia.
Qed.

Lemma newHandles_Ok (n : nat) (w w' : World) (hs : list handle) :
  LveSwapChain.newHandles n w = Ok (hs, w') ->
  length hs = n /\ driver w' = driver w /\ calls w' = calls w
  /\ fences w' = fences w /\ window w' = window w /\ events w' = events w.
Proof.
  revert w w' hs. induction n as [|n IH]; intros w w' hs; simpl.
  - intros [= <- <-]. repeat split; reflexivity.
  - unfold bind at 1. simpl. unfold bind at 1.
    destruct (LveSwapChain.newHandles n (set_nextHandle N.succ w)) as [[hs' w1]|f] eqn:Hrec;
      [|discriminate].
    intros [= <- <-]. destruct (IH _ _ _ Hrec) as (Hl & Hd & Hc & Hf & Hw & He).
    simpl in *. repeat split; congruence.
Qed.

(** *** Invariants of the world under the calls of construction *)

Section WorldCalls.
Variable K : World -> Prop.
Variable E : Fault -> Prop.
Hypothesis HK : Persistent K.
Hypothesis HE : AllowsConstruction E.

Ltac leaf :=
  first
    [ assumption
    | apply (allows_other E HE); intros ?; discriminate
    | apply (allows_construction E HE); simpl; tauto
    | intros ? ?; first [ apply (persistent_ticked K HK) | apply (persistent_nextHandle K HK)
                        | apply (persistent_fences K HK) | apply (persistent_window K HK)
                        | apply (persistent_events K HK) ]; assumption ].

Lemma stable_call (c : Call) : stable K E (call c).
Proof. intros w Hw. simpl. apply (persistent_ticked K HK), Hw. Qed.

Ltac world_step := first [ apply stable_call | stable_step ].

Lemma stable_callResult (c : Call) : stable K E (callResult c).
Proof. unfold callResult. repeat world_step; leaf. Qed.

Lemma stable_newHandle : stable K E newHandle.
Proof. unfold newHandle. repeat world_step; leaf. Qed.

Lemma stable_vkCreate (c : Call) : stable K E (vkCreate c).
Proof.
  unfold vkCreate.
  repeat first [apply stable_callResult | apply stable_newHandle | world_step]; leaf.
Qed.

Lemma stable_vkCreateFence (signaled : bool) : stable K E (vkCreateFence signaled).
Proof.
  unfold vkCreateFence. repeat first [apply stable_vkCreate | world_step]; leaf.
Qed.

Lemma stable_vkWaitForFences (fence : handle) : stable K E (vkWaitForFences fence).
Proof. unfold vkWaitForFences. repeat world_step; leaf. Qed.

Lemma stable_vkDeviceWaitIdle : stable K E vkDeviceWaitIdle.
Proof. unfold vkDeviceWaitIdle. repeat world_step; leaf. Qed.

Lemma stable_glfwWaitEvents : stable K E glfwWaitEvents.
Proof. unfold glfwWaitEvents. repeat world_step; leaf. Qed.

Lemma stable_getSwapChainSupport : stable K E LveDevice.getSwapChainSupport.
Proof. unfold LveDevice.getSwapChainSupport. repeat world_step; leaf. Qed.

Lemma stable_findPhysicalQueueFamilies : stable K E LveDevice.findPhysicalQueueFamilies.
Proof. unfold LveDevice.findPhysicalQueueFamilies. repeat world_step; leaf. Qed.

Lemma stable_findSupportedFormat (candidates : list VkFormat) (tiling features : Z) :
  stable K E (LveDevice.findSupportedFormat candidates tiling features).
Proof.
  induction candidates as [|format rest IH]; simpl.
  - world_step; leaf.
  - repeat first [exact IH | world_step]; leaf.
Qed.

Lemma stable_findMemoryType (typeFilter properties : Z) :
  stable K E (LveDevice.findMemoryType typeFilter properties).
Proof. unfold LveDevice.findMemoryType. repeat world_step; leaf. Qed.

Lemma stable_createImageWithInfo (fmt : VkFormat) (extent : VkExtent2D) (properties : Z) :
  stable K E (LveDevice.createImageWithInfo fmt extent properties).
Proof.
  unfold LveDevice.createImageWithInfo.
  repeat first [ apply stable_vkCreate | apply stable_callResult
               | apply stable_findMemoryType | world_step ]; leaf.
Qed.

Lemma stable_chooseSwapPresentMode (modes : list VkPresentModeKHR) :
  stable K E (LveSwapChain.chooseSwapPresentMode modes).
Proof. unfold LveSwapChain.chooseSwapPresentMode. repeat world_step; leaf. Qed.

Lemma stable_newHandles (n : nat) : stable K E (LveSwapChain.newHandles n).
Proof.
  induction n as [|n IH]; simpl; repeat first [exact IH | apply stable_newHandle | world_step].
Qed.

Lemma stable_vkGetSwapchainImagesKHR_count (swapchain : handle) :
  stable K E (LveSwapChain.vkGetSwapchainImagesKHR_count swapchain).
Proof. unfold LveSwapChain.vkGetSwapchainImagesKHR_count. repeat world_step; leaf. Qed.

Lemma stable_vkGetSwapchainImagesKHR_images (swapchain : handle) (count : nat) :
  stable K E (LveSwapChain.vkGetSwapchainImagesKHR_images swapchain count).
Proof.
  unfold LveSwapChain.vkGetSwapchainImagesKHR_images.
  repeat first [apply stable_newHandles | world_step].
Qed.

Lemma stable_findDepthFormat : stable K E LveSwapChain.findDepthFormat.
Proof. apply stable_findSupportedFormat. Qed.

End WorldCalls.

Lemma Persistent_True : Persistent (fun _ => True).
Proof. split; intros; exact Logic.I. Qed.

Lemma AllowsConstruction_any : AllowsConstruction anyFault.
Proof. split; intros; exact Logic.I. Qed.

(** *** Invariants of the swap chain under construction *)

Section Construction.
Variable K : World -> Prop.
Variable J : LveSwapChain.t -> Prop.
Variable E : Fault -> Prop.
Hypothesis HK : Persistent K.
Hypothesis HE : AllowsConstruction E.

Lemma stable_onFst_holds {A} (m : M World A) :
  stable K E m -> stable (holds K J) E (onFst m).
Proof.
  intros Hm [w x] [Hw Hx]. unfold onFst. simpl in *. specialize (Hm w Hw).
  destruct (m w) as [[a w']|f]; [split; assumption | exact Hm].
Qed.

Lemma stable_this : stable (holds K J) E LveSwapChain.this.
Proof. intros s Hs. exact Hs. Qed.

Lemma stable_update (f : LveSwapChain.t -> LveSwapChain.t) :
  (forall sc, J sc -> J (f sc)) -> stable (holds K J) E (LveSwapChain.update f).
Proof. intros Hf [w x] [Hw Hx]. split; [exact Hw | apply Hf, Hx]. Qed.

Lemma stable_chooseSwapSurfaceFormat (l : list VkSurfaceFormatKHR) :
  stable (holds K J) E (LveSwapChain.chooseSwapSurfaceFormat l).
Proof.
  unfold LveSwapChain.chooseSwapSurfaceFormat. repeat stable_step.
  apply (allows_other E HE). intros ?; discriminate.
Qed.

End Construction.

(** One step through a method of the swap chain: a call into the world, a
    read or an update of the object, or a step of the control flow.  What
    remains are the updates, which the invariant has to survive, and the
    faults, which have to be allowed. *)
Ltac construction_step HK HE :=
  first
    [ apply stable_this
    | apply stable_update
    | apply (stable_chooseSwapSurfaceFormat _ _ _ HE)
    | apply stable_onFst_holds;
      first [ apply (stable_getSwapChainSupport _ _ HK)
            | apply (stable_findPhysicalQueueFamilies _ _ HK)
            | apply (stable_chooseSwapPresentMode _ _ HK)
            | apply (stable_vkCreate _ _ HK)
            | apply (stable_vkCreateFence _ _ HK)
            | apply (stable_vkGetSwapchainImagesKHR_count _ _ HK)
            | apply (stable_vkGetSwapchainImagesKHR_images _ _ HK)
            | apply (stable_findDepthFormat _ _ HK HE)
            | apply (stable_createImageWithInfo _ _ HK HE) ]
    | stable_step ].

Ltac fault_leaf HE :=
  first [ apply (allows_other _ HE); intros ?; discriminate
        | apply (allows_construction _ HE); simpl; tauto ].

Lemma length_resize {A} (n : nat) (x : A) (v : list A) : length (resize n x v) = n.
Proof. unfold resize. rewrite length_app, length_take, length_replicate. lia. Qed.


Lemma this_Ok (s s' : World * LveSwapChain.t) (sc : LveSwapChain.t) :
  LveSwapChain.this s = Ok (sc, s') -> sc = snd s /\ s' = s.
Proof. intros [= <- <-]. split; reflexivity. Qed.

Lemma update_Ok (f : LveSwapChain.t -> LveSwapChain.t) (s s' : World * LveSwapChain.t)
    (u : unit) :
  LveSwapChain.update f s = Ok (u, s') -> s' = (fst s, f (snd s)).
Proof. intros [= <- <-]. reflexivity. Qed.

(** Read a field of an updated object. *)
Ltac read_fields_in H :=
  unfold LveSwapChain.imageCount in H;
  cbn [fst snd LveSwapChain.swapChainImageFormat LveSwapChain.set_swapChainImageFormat LveSwapChain.swapChainDepthFormat LveSwapChain.set_swapChainDepthFormat LveSwapChain.swapChainExtent LveSwapChain.set_swapChainExtent LveSwapChain.swapChainFramebuffers LveSwapChain.set_swapChainFramebuffers LveSwapChain.renderPass LveSwapChain.set_renderPass LveSwapChain.depthImages LveSwapChain.set_depthImages LveSwapChain.depthImageMemorys LveSwapChain.set_depthImageMemorys LveSwapChain.depthImageViews LveSwapChain.set_depthImageViews LveSwapChain.swapChainImages LveSwapChain.set_swapChainImages LveSwapChain.swapChainImageViews LveSwapChain.set_swapChainImageViews LveSwapChain.windowExtent LveSwapChain.set_windowExtent LveSwapChain.swapChain LveSwapChain.set_swapChain LveSwapChain.oldSwapChain LveSwapChain.set_oldSwapChain LveSwapChain.imageAvailableSemaphores LveSwapChain.set_imageAvailableSemaphores LveSwapChain.renderFinishedSemaphores LveSwapChain.set_renderFinishedSemaphores LveSwapChain.inFlightFences LveSwapChain.set_inFlightFences LveSwapChain.imagesInFlight LveSwapChain.set_imagesInFlight LveSwapChain.currentFrame LveSwapChain.set_currentFrame] in H.

(** Take [H : m s = Ok r] apart as far as [m] is a sequence of reads and
    updates of the object and of calls into the world; the calls stay as
    hypotheses about the worlds before and after. *)
Ltac run_object H :=
  repeat
    (cbn [fst snd] in H;
     lazymatch type of H with
     | bind _ _ _ = Ok _ =>
         let a := fresh "a" in
         let s1 := fresh "s" in
         let H1 := fresh "Hcall" in
         apply bind_Ok in H as (a & s1 & H1 & H);
         cbn [fst snd] in H1;
         lazymatch type of H1 with
         | LveSwapChain.this _ = Ok _ => apply this_Ok in H1 as [-> ->]
         | LveSwapChain.update _ _ = Ok _ => apply update_Ok in H1 as ->; read_fields_in H
         | onFst _ (_, _) = Ok _ =>
             let w' := fresh "w" in
             apply onFst_Ok in H1 as (w' & H1 & ->)
         | _ => idtac
         end
     | (if ?b then _ else _) _ = Ok _ =>
         let E := fresh "Hcond" in destruct b eqn:E; try discriminate H
     | (let _ := _ in _) _ = Ok _ => cbv zeta in H
     end).


Lemma stable_anyFault_Ok {A} (J : LveSwapChain.t -> Prop) (m : M (World * LveSwapChain.t) A)
    (w w' : World) (sc sc' : LveSwapChain.t) (a : A) :
  stable (holds (fun _ => True) J) anyFault m ->
  J sc -> m (w, sc) = Ok (a, (w', sc')) -> J sc'.
Proof.
  intros Hm Hsc Hrun.
  assert (Hs : holds (fun _ => True) J (w, sc)) by (split; [exact Logic.I | exact Hsc]).
  exact (proj2 (stable_Ok _ _ _ _ _ _ Hm Hs Hrun)).
Qed.

(** Compute the reads and updates of fields; cheap once the objects they
    apply to are given by their fields. *)
Ltac unfold_fields :=
  cbv [LveSwapChain.swapChainImageFormat LveSwapChain.set_swapChainImageFormat
       LveSwapChain.swapChainDepthFormat LveSwapChain.set_swapChainDepthFormat
       LveSwapChain.swapChainExtent LveSwapChain.set_swapChainExtent
       LveSwapChain.swapChainFramebuffers LveSwapChain.set_swapChainFramebuffers
       LveSwapChain.renderPass LveSwapChain.set_renderPass LveSwapChain.depthImages
       LveSwapChain.set_depthImages LveSwapChain.depthImageMemorys
       LveSwapChain.set_depthImageMemorys LveSwapChain.depthImageViews
       LveSwapChain.set_depthImageViews LveSwapChain.swapChainImages
       LveSwapChain.set_swapChainImages LveSwapChain.swapChainImageViews
       LveSwapChain.set_swapChainImageViews LveSwapChain.windowExtent
       LveSwapChain.set_windowExtent LveSwapChain.swapChain
       LveSwapChain.set_swapChain LveSwapChain.oldSwapChain
       LveSwapChain.set_oldSwapChain LveSwapChain.imageAvailableSemaphores
       LveSwapChain.set_imageAvailableSemaphores
       LveSwapChain.renderFinishedSemaphores
       LveSwapChain.set_renderFinishedSemaphores LveSwapChain.inFlightFences
       LveSwapChain.set_inFlightFences LveSwapChain.imagesInFlight
       LveSwapChain.set_imagesInFlight LveSwapChain.currentFrame
       LveSwapChain.set_currentFrame] in *.

(** The obligations an update leaves behind when the invariant gives the
    object as the initial one with some vectors replaced by vectors of
    known length. *)
Ltac solve_shape :=
  let sc := fresh "sc" in
  let H := fresh "H" in
  intros sc H;
  repeat match goal with
         | H : exists _, _ |- _ => destruct H
         | H : _ /\ _ |- _ => destruct H
         end;
  subst sc;
  repeat match goal with sc0 : LveSwapChain.t |- _ => destruct sc0 end;
  unfold LveSwapChain.imageCount in *;
  unfold_fields;
  repeat match goal with |- exists _, _ => eexists end;
  split; [reflexivity |];
  rewrite ?length_insert; auto.

Ltac construction_auto :=
  repeat construction_step Persistent_True AllowsConstruction_any;
  try exact Logic.I; try solve_shape.

Lemma createImageViews_Ok (w w' : World) (sc0 sc' : LveSwapChain.t) (u : unit) :
  LveSwapChain.createImageViews (w, sc0) = Ok (u, (w', sc')) ->
  exists views,
    sc' = LveSwapChain.set_swapChainImageViews views sc0
    /\ length views = LveSwapChain.imageCount sc0.
Proof.
  intros H. unfold LveSwapChain.createImageViews in H. run_object H.
  pattern sc'. revert H. apply stable_anyFault_Ok.
  - construction_auto.
  - eexists. split; [reflexivity | rewrite length_resize; reflexivity].
Qed.

Lemma createRenderPass_Ok (w w' : World) (sc0 sc' : LveSwapChain.t) (u : unit) :
  LveSwapChain.createRenderPass (w, sc0) = Ok (u, (w', sc')) ->
  exists pass, sc' = LveSwapChain.set_renderPass pass sc0.
Proof.
  intros H. unfold LveSwapChain.createRenderPass in H. run_object H.
  apply update_Ok in H as [= _ ->]. eexists. reflexivity.
Qed.

Lemma createDepthResources_Ok (w w' : World) (sc0 sc' : LveSwapChain.t) (u : unit) :
  LveSwapChain.createDepthResources (w, sc0) = Ok (u, (w', sc')) ->
  exists depthFormat images memorys views,
    sc' = LveSwapChain.set_depthImageViews views
            (LveSwapChain.set_depthImageMemorys memorys
               (LveSwapChain.set_depthImages images
                  (LveSwapChain.set_swapChainDepthFormat depthFormat sc0)))
    /\ length images = LveSwapChain.imageCount sc0
    /\ length memorys = LveSwapChain.imageCount sc0
    /\ length views = LveSwapChain.imageCount sc0.
Proof.
  intros H. unfold LveSwapChain.createDepthResources in H. run_object H.
  pattern sc'. revert H. apply stable_anyFault_Ok.
  - construction_auto.
  - repeat eexists; rewrite length_resize; reflexivity.
Qed.

Lemma createFramebuffers_Ok (w w' : World) (sc0 sc' : LveSwapChain.t) (u : unit) :
  LveSwapChain.createFramebuffers (w, sc0) = Ok (u, (w', sc')) ->
  exists framebuffers,
    sc' = LveSwapChain.set_swapChainFramebuffers framebuffers sc0
    /\ length framebuffers = LveSwapChain.imageCount sc0.
Proof.
  intros H. unfold LveSwapChain.createFramebuffers in H. run_object H.
  pattern sc'. revert H. apply stable_anyFault_Ok.
  - construction_auto.
  - eexists. split; [reflexivity | rewrite length_resize; reflexivity].
Qed.

(** *** Fences *)

Lemma gpu_progress_lookup (done : handle -> bool) (fs : gmap N FenceState) (f : handle) :
  gpu_progress done fs !! f
  = match fs !! f with
    | Some Pending => Some (if done f then Signaled else Pending)
    | other => other
    end.
Proof.
  unfold gpu_progress. rewrite map_lookup_imap.
  destruct (fs !! f) as [[]|]; reflexivity.
Qed.

Lemma ticked_signaled (c : Call) (w : World) (f : handle) :
  signaled w f -> signaled (ticked c w) f.
Proof.
  unfold signaled. intros H. simpl. rewrite gpu_progress_lookup, H. reflexivity.
Qed.

Lemma ticked_signaledOrPending (c : Call) (w : World) (f : handle) :
  signaledOrPending w f -> signaledOrPending (ticked c w) f.
Proof.
  unfold signaledOrPending. simpl. rewrite gpu_progress_lookup.
  intros [-> | ->]; [left; reflexivity|]. destruct (gpuCompletes _ _ _); auto.
Qed.

Lemma vkCreate_fresh (c : Call) (w w' : World) (result : VkResult) (h : handle) :
  vkCreate c w = Ok ((result, h), w') ->
  (nextHandle w <= nextHandle w')%N
  /\ (forall f, signaled w f -> signaled w' f)
  /\ ((result =? VK_SUCCESS) = true ->
      h = nextHandle w' /\ (nextHandle w < nextHandle w')%N).
Proof.
  unfold vkCreate, bind. simpl.
  destruct (drvResult (driver w) (length (calls w)) =? VK_SUCCESS) eqn:E; simpl;
    intros [= <- <- <-]; simpl; (split; [lia|]);
    (split; [intros f Hf; apply (ticked_signaled c), Hf|]).
  - intros _. split; [reflexivity | lia].
  - rewrite E. discriminate.
Qed.

Lemma vkCreateFence_fresh (w w' : World) (result : VkResult) (h : handle) :
  vkCreateFence true w = Ok ((result, h), w') ->
  (nextHandle w <= nextHandle w')%N
  /\ (forall f, signaled w f -> signaled w' f)
  /\ ((result =? VK_SUCCESS) = true ->
      h = nextHandle w' /\ (nextHandle w < nextHandle w')%N /\ signaled w' h).
Proof.
  unfold vkCreateFence. intros H.
  apply bind_Ok in H as ([result' h'] & w1 & Hcreate & H).
  apply vkCreate_fresh in Hcreate as (Hle & Hsig & Hok).
  apply bind_Ok in H as ([] & w2 & Hset & [= -> -> <-]).
  simpl in Hset. destruct (result =? VK_SUCCESS) eqn:E.
  - injection Hset as <-. destruct (Hok eq_refl) as [-> Hlt]. simpl.
    split; [exact Hle|]. split.
    + intros f Hf. unfold signaled. simpl.
      destruct (decide (nextHandle w1 = f)) as [->|Hne];
        [apply lookup_insert_eq | rewrite lookup_insert_ne by exact Hne; apply Hsig, Hf].
    + intros _. repeat split; [exact Hlt|]. unfold signaled. simpl. apply lookup_insert_eq.
  - injection Hset as <-. split; [exact Hle|]. split; [exact Hsig | discriminate].
Qed.


Lemma insert_pair {A} (l : list A) (a b : A) :
  length l = 2%nat -> <[1%nat := b]> (<[0%nat := a]> l) = [a; b].
Proof. destruct l as [|x [|y [|z l]]]; try discriminate. reflexivity. Qed.

Lemma createFrameSyncObjects_Ok (i : nat) (w w' : World) (sc sc' : LveSwapChain.t)
    (u : unit) :
  LveSwapChain.createFrameSyncObjects i (w, sc) = Ok (u, (w', sc')) ->
  exists available finished fence,
    sc' = LveSwapChain.set_inFlightFences
            (<[i := fence]> (LveSwapChain.inFlightFences sc))
            (LveSwapChain.set_renderFinishedSemaphores
               (<[i := finished]> (LveSwapChain.renderFinishedSemaphores sc))
               (LveSwapChain.set_imageAvailableSemaphores
                  (<[i := available]> (LveSwapChain.imageAvailableSemaphores sc)) sc))
    /\ (nextHandle w < fence)%N /\ fence = nextHandle w'
    /\ signaled w' fence
    /\ (forall f, signaled w f -> signaled w' f).
Proof.
  intros H. unfold LveSwapChain.createFrameSyncObjects in H. run_object H.
  destruct a as [r1 h1], a1 as [r2 h2], a3 as [r3 h3]. cbn [fst snd] in *.
  apply ret_Ok in H as [_ [= -> ->]].
  apply vkCreate_fresh in Hcall as (Hle1 & Hsig1 & _).
  apply vkCreate_fresh in Hcall0 as (Hle2 & Hsig2 & _).
  apply vkCreateFence_fresh in Hcall1 as (Hle3 & Hsig3 & Hok).
  destruct (r3 =? VK_SUCCESS); [|discriminate].
  destruct (Hok eq_refl) as (-> & Hlt & Hs).
  exists h1, h2, (nextHandle w2). split; [reflexivity|].
  repeat split; [lia | exact Hs | auto].
Qed.

Lemma createSyncObjects_Ok (w w' : World) (sc0 sc' : LveSwapChain.t) (u : unit) :
  LveSwapChain.createSyncObjects (w, sc0) = Ok (u, (w', sc')) ->
  exists available finished fence0 fence1,
    sc' = LveSwapChain.set_imagesInFlight
            (resize (LveSwapChain.imageCount sc0) VK_NULL_HANDLE
                    (LveSwapChain.imagesInFlight sc0))
            (LveSwapChain.set_inFlightFences [fence0; fence1]
               (LveSwapChain.set_renderFinishedSemaphores finished
                  (LveSwapChain.set_imageAvailableSemaphores available sc0)))
    /\ length available = 2%nat /\ length finished = 2%nat
    /\ fence0 <> fence1
    /\ fence0 <> VK_NULL_HANDLE /\ fence1 <> VK_NULL_HANDLE
    /\ signaled w' fence0 /\ signaled w' fence1.
Proof.
  intros H. unfold LveSwapChain.createSyncObjects in H. cbv zeta in H.
  change (Z.to_nat LveSwapChain.MAX_FRAMES_IN_FLIGHT) with 2%nat in H.
  run_object H. cbn [forRange] in H. run_object H.
  destruct s as [w1 sc1], s0 as [w2 sc2]. apply ret_Ok in H as [_ [= <- <-]].
  apply createFrameSyncObjects_Ok in Hcall
    as (av0 & fi0 & f0 & -> & Hlt0 & Hf0 & Hs0 & _).
  apply createFrameSyncObjects_Ok in Hcall0
    as (av1 & fi1 & f1 & -> & Hlt1 & Hf1 & Hs1 & Hkeep).
  read_fields_in Hlt0. destruct sc0. unfold_fields.
  eexists _, _, f0, f1. split; [|repeat split].
  - rewrite !insert_pair by apply length_resize. reflexivity.
  - reflexivity.
  - reflexivity.
  - subst. lia.
  - unfold VK_NULL_HANDLE. lia.
  - unfold VK_NULL_HANDLE. lia.
  - apply Hkeep, Hs0.
  - exact Hs1.
Qed.

Lemma chooseSwapSurfaceFormat_Ok {St} (l : list VkSurfaceFormatKHR) (s s' : St)
    (chosen : VkSurfaceFormatKHR) :
  LveSwapChain.chooseSwapSurfaceFormat l s = Ok (chosen, s') -> s' = s.
Proof.
  unfold LveSwapChain.chooseSwapSurfaceFormat, at_.
  destruct (LveSwapChain.findPreferredFormat l); [intros [= _ <-]; reflexivity|].
  destruct (nth_Z l 0); [intros [= _ <-]; reflexivity | discriminate].
Qed.

Lemma chooseSwapPresentMode_Ok (l : list VkPresentModeKHR) (w w' : World)
    (mode : VkPresentModeKHR) :
  LveSwapChain.chooseSwapPresentMode l w = Ok (mode, w') -> exists c, w' = ticked c w.
Proof.
  unfold LveSwapChain.chooseSwapPresentMode.
  destruct (LveSwapChain.findMailbox l); intros [= _ <-]; eauto.
Qed.

(** createSwapChain makes six calls; the fourth creates the swap chain with
    the requested image count and the handle of the previous swap chain, the
    fifth learns how many images the driver made. *)
Lemma createSwapChain_Ok (w w' : World) (sc0 sc' : LveSwapChain.t) (u : unit) :
  LveSwapChain.createSwapChain (w, sc0) = Ok (u, (w', sc')) ->
  exists createInfo swapchain images c,
    sc' = LveSwapChain.set_swapChainExtent (ci_imageExtent createInfo)
            (LveSwapChain.set_swapChainImageFormat (ci_imageFormat createInfo)
               (LveSwapChain.set_swapChainImages images
                  (LveSwapChain.set_swapChain swapchain sc0)))
    /\ length images
       = Z.to_nat (wrap32 (drvImageCount (driver w) (length (calls w) + 4)))
    /\ driver w' = driver w
    /\ calls w' = calls w ++ [ GetSwapChainSupport; c; FindPhysicalQueueFamilies;
                               VkCreateSwapchainKHR createInfo;
                               VkGetSwapchainImagesKHR swapchain;
                               VkGetSwapchainImagesKHR swapchain ]
    /\ ci_minImageCount createInfo
       = LveSwapChain.requestedImageCount
           (capabilities (drvSupport (driver w) (length (calls w))))
    /\ ci_oldSwapchain createInfo
       = match LveSwapChain.oldSwapChain sc0 with
         | None => VK_NULL_HANDLE
         | Some old => LveSwapChain.swapChain old
         end.
Proof.
  intros H. unfold LveSwapChain.createSwapChain in H.
  apply bind_Ok in H as (support & s1 & Hsupport & H).
  apply onFst_Ok in Hsupport as (w1 & [= <- <-] & ->).
  apply bind_Ok in H as (surfaceFormat & s2 & Hformat & H).
  apply chooseSwapSurfaceFormat_Ok in Hformat as ->.
  apply bind_Ok in H as (presentMode & s3 & Hmode & H).
  apply onFst_Ok in Hmode as (w2 & [c ->]%chooseSwapPresentMode_Ok & ->).
  run_object H. destruct a0 as [result swapchain]. cbn [fst snd] in *.
  injection Hcall as <- <-.
  apply vkCreate_Ok in Hcall0 as (_ & Hd & Hc & _).
  injection Hcall1 as <- <-.
  unfold LveSwapChain.vkGetSwapchainImagesKHR_images in Hcall2.
  apply bind_Ok in Hcall2 as (t & w5 & [_ ->]%call_Ok & Hcall2).
  apply newHandles_Ok in Hcall2 as (Hlen & Hd6 & Hc6 & _).
  apply update_Ok in H as [= -> ->]. read_fields_in Hlen.
  destruct sc0. unfold_fields.
  match type of Hc with
  | _ = _ ++ [VkCreateSwapchainKHR ?createInfo] => exists createInfo, swapchain, a4, c
  end.
  split; [reflexivity|].
  rewrite Hd6, Hc6, Hlen. cbn [driver calls ticked set_fences set_calls].
  rewrite Hd, Hc. cbn [driver calls ticked set_fences set_calls].
  rewrite !length_app. cbn [length]. rewrite <- !app_assoc. cbn [app].
  repeat split. do 3 f_equal. lia.
Qed.

(** *** The whole construction *)

Section ConstructionPersistent.
Variable K : World -> Prop.
Variable E : Fault -> Prop.
Hypothesis HK : Persistent K.
Hypothesis HE : AllowsConstruction E.

Ltac persistent_auto :=
  repeat construction_step HK HE; try fault_leaf HE; try (intros; exact Logic.I).

Lemma createSwapChain_persistent :
  stable (holds K (fun _ => True)) E LveSwapChain.createSwapChain.
Proof. unfold LveSwapChain.createSwapChain. persistent_auto. Qed.

Lemma createImageViews_persistent :
  stable (holds K (fun _ => True)) E LveSwapChain.createImageViews.
Proof. unfold LveSwapChain.createImageViews. persistent_auto. Qed.

Lemma createRenderPass_persistent :
  stable (holds K (fun _ => True)) E LveSwapChain.createRenderPass.
Proof. unfold LveSwapChain.createRenderPass. persistent_auto. Qed.

Lemma createDepthResources_persistent :
  stable (holds K (fun _ => True)) E LveSwapChain.createDepthResources.
Proof. unfold LveSwapChain.createDepthResources. persistent_auto. Qed.

Lemma createFramebuffers_persistent :
  stable (holds K (fun _ => True)) E LveSwapChain.createFramebuffers.
Proof. unfold LveSwapChain.createFramebuffers. persistent_auto. Qed.

Lemma createSyncObjects_persistent :
  stable (holds K (fun _ => True)) E LveSwapChain.createSyncObjects.
Proof.
  unfold LveSwapChain.createSyncObjects. persistent_auto.
  unfold LveSwapChain.createFrameSyncObjects. persistent_auto.
Qed.

Lemma init_persistent : stable (holds K (fun _ => True)) E LveSwapChain.init.
Proof.
  unfold LveSwapChain.init.
  apply stable_bind; [apply createSwapChain_persistent | intros _].
  apply stable_bind; [apply createImageViews_persistent | intros _].
  apply stable_bind; [apply createRenderPass_persistent | intros _].
  apply stable_bind; [apply createDepthResources_persistent | intros _].
  apply stable_bind; [apply createFramebuffers_persistent | intros _].
  apply createSyncObjects_persistent.
Qed.

Lemma new_from_persistent (extent : VkExtent2D) (previous : option LveSwapChain.t) :
  stable K E (LveSwapChain.new_from extent previous).
Proof.
  intros w Hw. unfold LveSwapChain.new_from.
  assert (Hrun : stable (holds K (fun _ => True)) E
                   (LveSwapChain.init ;;; LveSwapChain.update (LveSwapChain.set_oldSwapChain None))%m).
  { apply stable_bind; [apply init_persistent | intros _].
    apply stable_update. intros; exact Logic.I. }
  specialize (Hrun (w, LveSwapChain.constructed extent previous)
                (conj Hw Logic.I)).
  destruct ((LveSwapChain.init ;;; _)%m _) as [[[] [w' sc']]|f]; [apply Hrun | exact Hrun].
Qed.

Lemma new_persistent (extent : VkExtent2D) : stable K E (LveSwapChain.new extent).
Proof.
  intros w Hw. unfold LveSwapChain.new.
  pose proof (init_persistent (w, LveSwapChain.constructed extent None)
                (conj Hw Logic.I)) as Hrun.
  destruct (LveSwapChain.init _) as [[[] [w' sc']]|f]; [apply Hrun | exact Hrun].
Qed.

End ConstructionPersistent.

Lemma Persistent_log (d : Driver) (l : list Call) :
  Persistent (fun w => driver w = d /\ l `prefix_of` calls w).
Proof.
  split; intros ? w [Hd Hl]; (split; [exact Hd|]); try exact Hl.
  rewrite ticked_calls. apply prefix_app_r, Hl.
Qed.

Lemma stable_world_Ok {A} (K : World -> Prop) (m : M (World * LveSwapChain.t) A)
    (w w' : World) (sc sc' : LveSwapChain.t) (a : A) :
  stable (holds K (fun _ => True)) anyFault m ->
  K w -> m (w, sc) = Ok (a, (w', sc')) -> K w'.
Proof.
  intros Hm Hw Hrun.
  assert (Hs : holds K (fun _ => True) (w, sc)) by (split; [exact Hw | exact Logic.I]).
  exact (proj1 (stable_Ok _ _ _ _ _ _ Hm Hs Hrun)).
Qed.

Lemma init_Ok (w w' : World) (sc0 sc' : LveSwapChain.t) (u : unit) :
  LveSwapChain.init (w, sc0) = Ok (u, (w', sc')) ->
  let n := Z.to_nat (wrap32 (drvImageCount (driver w) (length (calls w) + 4))) in
  (length (LveSwapChain.swapChainImages sc') = n
   /\ length (LveSwapChain.swapChainImageViews sc') = n
   /\ length (LveSwapChain.depthImages sc') = n
   /\ length (LveSwapChain.depthImageMemorys sc') = n
   /\ length (LveSwapChain.depthImageViews sc') = n
   /\ length (LveSwapChain.swapChainFramebuffers sc') = n)
  /\ LveSwapChain.imagesInFlight sc'
     = resize n VK_NULL_HANDLE (LveSwapChain.imagesInFlight sc0)
  /\ length (LveSwapChain.imageAvailableSemaphores sc') = 2%nat
  /\ length (LveSwapChain.renderFinishedSemaphores sc') = 2%nat
  /\ (exists fence0 fence1,
        LveSwapChain.inFlightFences sc' = [fence0; fence1]
        /\ fence0 <> fence1
        /\ fence0 <> VK_NULL_HANDLE /\ fence1 <> VK_NULL_HANDLE
        /\ signaled w' fence0 /\ signaled w' fence1)
  /\ LveSwapChain.currentFrame sc' = LveSwapChain.currentFrame sc0
  /\ LveSwapChain.oldSwapChain sc' = LveSwapChain.oldSwapChain sc0
  /\ driver w' = driver w
  /\ exists createInfo c,
       (calls w ++ [ GetSwapChainSupport; c; FindPhysicalQueueFamilies;
                     VkCreateSwapchainKHR createInfo ]) `prefix_of` calls w'
       /\ ci_minImageCount createInfo
          = LveSwapChain.requestedImageCount
              (capabilities (drvSupport (driver w) (length (calls w))))
       /\ ci_oldSwapchain createInfo
          = match LveSwapChain.oldSwapChain sc0 with
            | None => VK_NULL_HANDLE
            | Some old => LveSwapChain.swapChain old
            end
       /\ LveSwapChain.swapChainImageFormat sc' = ci_imageFormat createInfo
       /\ LveSwapChain.swapChainExtent sc' = ci_imageExtent createInfo.
Proof.
  intros H n. destruct u. unfold LveSwapChain.init in H.
  apply bind_Ok in H as ([] & [w1 sc1] & H1 & H).
  apply bind_Ok in H as ([] & [w2 sc2] & H2 & H).
  apply bind_Ok in H as ([] & [w3 sc3] & H3 & H).
  apply bind_Ok in H as ([] & [w4 sc4] & H4 & H).
  apply bind_Ok in H as ([] & [w5 sc5] & H5 & H6).
  assert (Hrest : stable (holds (fun w0 => driver w0 = driver w1
                                          /\ calls w1 `prefix_of` calls w0)
                                (fun _ => True)) anyFault
                    (LveSwapChain.createImageViews ;;; LveSwapChain.createRenderPass ;;;
                     LveSwapChain.createDepthResources ;;;
                     LveSwapChain.createFramebuffers ;;;
                     LveSwapChain.createSyncObjects)%m).
  { pose proof (Persistent_log (driver w1) (calls w1)) as HK.
    pose proof AllowsConstruction_any as HE.
    apply stable_bind; [apply (createImageViews_persistent _ _ HK HE) | intros _].
    apply stable_bind; [apply (createRenderPass_persistent _ _ HK HE) | intros _].
    apply stable_bind; [apply (createDepthResources_persistent _ _ HK HE) | intros _].
    apply stable_bind; [apply (createFramebuffers_persistent _ _ HK HE) | intros _].
    apply (createSyncObjects_persistent _ _ HK HE). }
  assert (Hlog : driver w' = driver w1 /\ calls w1 `prefix_of` calls w').
  { apply (stable_world_Ok _ _ w1 w' sc1 sc' tt Hrest); [split; reflexivity|].
    unfold bind. rewrite H2, H3, H4, H5. exact H6. }
  apply createSwapChain_Ok in H1
    as (createInfo & swapchain & images & c & -> & Hn & Hd1 & Hc1 & Hmin & Hold).
  apply createImageViews_Ok in H2 as (views & -> & Hviews).
  apply createRenderPass_Ok in H3 as (pass & ->).
  apply createDepthResources_Ok in H4
    as (depthFormat & dimages & dmemorys & dviews & -> & Hdi & Hdm & Hdv).
  apply createFramebuffers_Ok in H5 as (framebuffers & -> & Hfb).
  apply createSyncObjects_Ok in H6
    as (available & finished & fence0 & fence1 & -> & Hav & Hfin & Hne & Hnn0 & Hnn1
        & Hs0 & Hs1).
  fold n in Hn. destruct Hlog as [Hd' Hc'].
  destruct sc0. unfold LveSwapChain.imageCount in *. unfold_fields.
  split; [repeat split; congruence|].
  split; [rewrite Hn; reflexivity|].
  split; [exact Hav|]. split; [exact Hfin|].
  split; [exists fence0, fence1; repeat split; assumption|].
  split; [reflexivity|]. split; [reflexivity|].
  split; [congruence|].
  exists createInfo, c. split; [|auto].
  etransitivity; [|exact Hc']. rewrite Hc1.
  apply prefix_app, prefix_cons, prefix_cons, prefix_cons, prefix_cons, prefix_nil.
Qed.

Lemma resize_nil {A} (n : nat) (x : A) : resize n x [] = replicate n x.
Proof. unfold resize. rewrite take_nil. simpl. rewrite Nat.sub_0_r. reflexivity. Qed.

Lemma constructedBy_init (extent : VkExtent2D) (previous : option LveSwapChain.t)
    (w w' : World) (sc : LveSwapChain.t) :
  constructedBy extent previous w sc w' ->
  exists sc1,
    LveSwapChain.init (w, LveSwapChain.constructed extent previous) = Ok (tt, (w', sc1))
    /\ sc = LveSwapChain.set_oldSwapChain None sc1.
Proof.
  intros [H | [-> H]].
  - unfold LveSwapChain.new_from, bind in H.
    destruct (LveSwapChain.init _) as [[[] [w1 sc1]]|f] eqn:Hinit; [|discriminate].
    simpl in H. injection H as <- <-. eauto.
  - unfold LveSwapChain.new in H.
    destruct (LveSwapChain.init _) as [[[] [w1 sc1]]|f] eqn:Hinit; [|discriminate].
    injection H as <- <-. exists sc1. split; [reflexivity|].
    apply init_Ok in Hinit as (_ & _ & _ & _ & _ & _ & Hold & _).
    simpl in Hold. destruct sc1. unfold_fields. congruence.
Qed.

(** What both constructors leave behind. *)
Lemma constructedBy_Ok (extent : VkExtent2D) (previous : option LveSwapChain.t)
    (w w' : World) (sc : LveSwapChain.t) :
  constructedBy extent previous w sc w' ->
  let n := Z.to_nat (imagesCreatedAt w) in
  (length (LveSwapChain.swapChainImages sc) = n
   /\ length (LveSwapChain.swapChainImageViews sc) = n
   /\ length (LveSwapChain.depthImages sc) = n
   /\ length (LveSwapChain.depthImageMemorys sc) = n
   /\ length (LveSwapChain.depthImageViews sc) = n
   /\ length (LveSwapChain.swapChainFramebuffers sc) = n)
  /\ LveSwapChain.imagesInFlight sc = replicate n VK_NULL_HANDLE
  /\ length (LveSwapChain.imageAvailableSemaphores sc) = 2%nat
  /\ length (LveSwapChain.renderFinishedSemaphores sc) = 2%nat
  /\ (exists fence0 fence1,
        LveSwapChain.inFlightFences sc = [fence0; fence1]
        /\ fence0 <> fence1
        /\ fence0 <> VK_NULL_HANDLE /\ fence1 <> VK_NULL_HANDLE
        /\ signaled w' fence0 /\ signaled w' fence1)
  /\ LveSwapChain.currentFrame sc = 0
  /\ LveSwapChain.oldSwapChain sc = None
  /\ driver w' = driver w
  /\ exists createInfo c,
       (calls w ++ [ GetSwapChainSupport; c; FindPhysicalQueueFamilies;
                     VkCreateSwapchainKHR createInfo ]) `prefix_of` calls w'
       /\ ci_minImageCount createInfo
          = LveSwapChain.requestedImageCount (surfaceCapabilitiesAt w)
       /\ ci_oldSwapchain createInfo
          = match previous with
            | None => VK_NULL_HANDLE
            | Some old => LveSwapChain.swapChain old
            end
       /\ LveSwapChain.swapChainImageFormat sc = ci_imageFormat createInfo
       /\ LveSwapChain.swapChainExtent sc = ci_imageExtent createInfo.
Proof.
  intros H n. apply constructedBy_init in H as (sc1 & Hinit & ->).
  apply init_Ok in Hinit
    as (Hlen & Hinflight & Hav & Hfin & Hfences & Hcur & _ & Hd & Hcreate).
  fold (imagesCreatedAt w) in Hlen, Hinflight. fold n in Hlen, Hinflight.
  fold (surfaceCapabilitiesAt w) in Hcreate.
  simpl in Hinflight, Hcur, Hcreate. rewrite resize_nil in Hinflight.
  destruct sc1. unfold_fields. repeat split; try tauto; try assumption.
Qed.

(** *** The image count that is asked for, and the count that is made *)



Lemma prefix_fourth_call (l l' : list Call) (a b c d : Call) :
  (l ++ [a; b; c; d]) `prefix_of` l' -> l' !! (length l + 3)%nat = Some d.
Proof.
  intros Hp. eapply prefix_lookup_Some; [|exact Hp].
  rewrite lookup_app_r by lia. replace (length l + 3 - length l)%nat with 3%nat by lia.
  reflexivity.
Qed.



(** C9.  The constructor that takes a previous swap chain passes that
    instance's handle to the creation of the new swap chain, and when it
    has returned the new instance holds no reference to the previous one. *)
Theorem previous_swap_chain_released
    (extent : VkExtent2D) (previous : LveSwapChain.t) (w w' : World) (sc : LveSwapChain.t) :
  LveSwapChain.new_from extent (Some previous) w = Ok (sc, w') ->
  LveSwapChain.oldSwapChain sc = None
  /\ exists createInfo,
       calls w' !! (length (calls w) + 3)%nat = Some (VkCreateSwapchainKHR createInfo)
       /\ ci_oldSwapchain createInfo = LveSwapChain.swapChain previous.
Proof.
  intros H.
  assert (Hc : constructedBy extent (Some previous) w sc w') by (left; exact H).
  apply constructedBy_Ok in Hc as (_ & _ & _ & _ & _ & _ & Hold & _ & Hcreate).
  destruct Hcreate as (createInfo & c & Hprefix & _ & Hprev & _).
  split; [exact Hold|]. exists createInfo.
  split; [exact (prefix_fourth_call _ _ _ _ _ _ Hprefix) | exact Hprev].
Qed.

Lemma previous_swap_chain_released_witness :
  exists sc w',
    LveSwapChain.new_from exampleExtent (Some examplePrevious) calmWorld = Ok (sc, w')
    /\ LveSwapChain.oldSwapChain sc = None
    /\ exists createInfo,
         calls w' !! 3%nat = Some (VkCreateSwapchainKHR createInfo)
         /\ ci_oldSwapchain createInfo = 7%N.
Proof.
  destruct (LveSwapChain.new_from exampleExtent (Some examplePrevious) calmWorld)
    as [[sc w']|f] eqn:Hrun.
  - exists sc, w'. split; [reflexivity|].
    apply (previous_swap_chain_released exampleExtent examplePrevious calmWorld w' sc Hrun).
  - vm_compute in Hrun. discriminate Hrun.
Defined.

(** *** Reconstruction and the formats *)

Lemma stable_waitWhileMinimized (K : World -> Prop) (E : Fault -> Prop)
    (fuel : nat) (extent : VkExtent2D) :
  Persistent K -> AllowsConstruction E ->
  stable K E (LveRenderer.waitWhileMinimized fuel extent).
Proof.
  intros HK HE. revert extent. induction fuel as [|fuel IH]; intros extent; simpl.
  - destruct (_ || _); [apply stable_fail | apply stable_ret].
    apply (allows_other E HE). intros ?; discriminate.
  - destruct (_ || _); [|apply stable_ret].
    apply stable_bind; [apply stable_get | intros w0].
    apply stable_bind; [apply (stable_glfwWaitEvents K E HK HE) | intros _].
    apply IH.
Qed.

Lemma AllowsConstruction_neverThrows_formatChanged :
  AllowsConstruction (neverThrows formatChanged).
Proof.
  split.
  - intros f Hf. apply Hf.
  - intros what Hin [= ->]. vm_compute in Hin. intuition discriminate.
Qed.

Lemma compareSwapFormats_false (old created : LveSwapChain.t) :
  LveSwapChain.compareSwapFormats old created = false <-> formatsDiffer created old.
Proof.
  unfold LveSwapChain.compareSwapFormats, formatsDiffer.
  rewrite andb_false_iff, !Z.eqb_neq. tauto.
Qed.

(** recreateSwapChain, when the renderer holds a swap chain, in terms of its
    three steps. *)
Lemma recreateSwapChain_unfold (w : World) (r : LveRenderer.t) (old : LveSwapChain.t) :
  LveRenderer.lveSwapChain r = Some old ->
  LveRenderer.recreateSwapChain (w, r)
  = match LveRenderer.waitWhileMinimized (S (length (events w)))
                                         (LveWindow.getExtent (window w)) w with
    | Fail f => Fail f
    | Ok (extent, w1) =>
        match vkDeviceWaitIdle w1 with
        | Fail f => Fail f
        | Ok (_, w2) =>
            match LveSwapChain.new_from extent (Some old) w2 with
            | Fail f => Fail f
            | Ok (created, w3) =>
                if LveSwapChain.compareSwapFormats old created
                then Ok (tt, (w3, LveRenderer.set_lveSwapChain (Some created) r))
                else Fail (RuntimeError formatChanged)
            end
        end
    end.
Proof.
  intros Hold. unfold LveRenderer.recreateSwapChain.
  unfold bind at 1. cbn [onFst get fst snd].
  unfold bind at 1. unfold onFst at 1. cbn [fst snd].
  destruct (LveRenderer.waitWhileMinimized _ _ w) as [[extent w1]|f]; [|reflexivity].
  unfold bind at 1. unfold onFst at 1. cbn [fst snd].
  destruct (vkDeviceWaitIdle w1) as [[[] w2]|f] eqn:Hidle; [|reflexivity].
  unfold bind at 1. cbn [LveRenderer.this bind get ret fst snd]. rewrite Hold.
  unfold bind at 1. cbn [LveRenderer.update modify fst snd].
  unfold bind at 1. unfold onFst at 1. cbn [fst snd].
  destruct (LveSwapChain.new_from extent (Some old) w2) as [[created w3]|f]; [|reflexivity].
  unfold bind at 1. cbn [LveRenderer.update modify fst snd].
  destruct (LveSwapChain.compareSwapFormats old created); reflexivity.
Qed.

(** C5.  A reconstruction throws "Swap chain image(or depth) format has
    changed!" exactly when it gets as far as constructing the new instance
    and that instance's colour format or depth format is not the old
    instance's; when both formats are the old ones it succeeds and the
    renderer holds the new instance. *)
Theorem format_change_fatal_iff_formats_differ
    (w : World) (r : LveRenderer.t) (old : LveSwapChain.t) :
  LveRenderer.lveSwapChain r = Some old ->
  (LveRenderer.recreateSwapChain (w, r) = Fail (RuntimeError formatChanged)
   <-> exists created w', reconstructs w old created w' /\ formatsDiffer created old)
  /\ (forall created w',
        reconstructs w old created w' ->
        ~ formatsDiffer created old ->
        LveRenderer.recreateSwapChain (w, r)
        = Ok (tt, (w', LveRenderer.set_lveSwapChain (Some created) r))).
Proof.
  intros Hold. rewrite (recreateSwapChain_unfold w r old Hold).
  pose proof AllowsConstruction_neverThrows_formatChanged as HE.
  pose proof Persistent_True as HK.
  split; [split|].
  - destruct (LveRenderer.waitWhileMinimized _ _ w) as [[extent w1]|f] eqn:Hwait.
    2:{ intros [= ->].
        pose proof (stable_Fail _ _ _ _ _
                      (stable_waitWhileMinimized _ _ _ _ HK HE) Logic.I Hwait) as Hno.
        exfalso. apply Hno. reflexivity. }
    destruct (vkDeviceWaitIdle w1) as [[[] w2]|f] eqn:Hidle; [|discriminate].
    destruct (LveSwapChain.new_from extent (Some old) w2) as [[created w3]|f] eqn:Hnew.
    2:{ intros [= ->].
        pose proof (stable_Fail _ _ _ _ _
                      (new_from_persistent _ _ HK HE extent (Some old)) Logic.I Hnew) as Hno.
        exfalso. apply Hno. reflexivity. }
    destruct (LveSwapChain.compareSwapFormats old created) eqn:Hcmp; [discriminate|].
    intros _. exists created, w3. split.
    + exists extent, w1, w2. auto.
    + apply compareSwapFormats_false, Hcmp.
  - intros (created & w' & (extent & w1 & w2 & Hwait & Hidle & Hnew) & Hdiff).
    rewrite Hwait, Hidle, Hnew.
    apply compareSwapFormats_false in Hdiff. rewrite Hdiff. reflexivity.
  - intros created w' (extent & w1 & w2 & Hwait & Hidle & Hnew) Hsame.
    rewrite Hwait, Hidle, Hnew.
    destruct (LveSwapChain.compareSwapFormats old created) eqn:Hcmp; [reflexivity|].
    exfalso. apply Hsame, compareSwapFormats_false, Hcmp.
Qed.

Lemma format_change_witness :
  exists created w',
    reconstructs calmWorld examplePrevious created w'
    /\ formatsDiffer created examplePrevious.
Proof.
  apply (proj1 (proj1 (format_change_fatal_iff_formats_differ
                         calmWorld
                         (LveRenderer.set_lveSwapChain (Some examplePrevious) idleRenderer)
                         examplePrevious eq_refl))).
  vm_compute. reflexivity.
Defined.

(** *** Waiting for, resetting and submitting with a fence *)

Lemma vkWaitForFences_run (fence : handle) (w : World) :
  signaledOrPending w fence -> vkWaitForFences fence w = Ok (tt, waited fence w).
Proof.
  intros H. apply (ticked_signaledOrPending (VkWaitForFences fence)) in H.
  unfold vkWaitForFences, bind, call, get, ret, modify, waited.
  destruct H as [H | H]; rewrite H; [|reflexivity].
  unfold set_fences. rewrite (insert_id _ _ _ H). reflexivity.
Qed.



Lemma waited_signaled (fence : handle) (w : World) : signaled (waited fence w) fence.
Proof. unfold signaled, waited. simpl. apply lookup_insert_eq. Qed.



Lemma nth_Z_two {A} (l : list A) (i : Z) :
  length l = 2%nat -> i = 0 \/ i = 1 -> exists a, nth_Z l i = Some a.
Proof.
  destruct l as [|a [|b [|c l]]]; try discriminate. intros _ [-> | ->]; simpl; eauto.
Qed.

(** The fence of the current frame slot. *)
Lemma slot_fence (sc : LveSwapChain.t) (fence0 fence1 : handle) :
  LveSwapChain.inFlightFences sc = [fence0; fence1] ->
  LveSwapChain.currentFrame sc = 0 \/ LveSwapChain.currentFrame sc = 1 ->
  nth_Z (LveSwapChain.inFlightFences sc) (LveSwapChain.currentFrame sc)
  = Some (if LveSwapChain.currentFrame sc =? 0 then fence0 else fence1).
Proof. intros -> [-> | ->]; reflexivity. Qed.

Lemma syncInvariant_ticked (c : Call) (w : World) (sc : LveSwapChain.t) :
  syncInvariant w sc -> syncInvariant (ticked c w) sc.
Proof.
  intros (f0 & f1 & Hf & Hne & Hn0 & Hn1 & Hs0 & Hs1 & Hrest).
  exists f0, f1. repeat split; try tauto; apply ticked_signaledOrPending; assumption.
Qed.






Lemma nth_Z_lookup {A} (l : list A) (i : Z) (a : A) :
  nth_Z l i = Some a -> 0 <= i /\ l !! Z.to_nat i = Some a.
Proof. unfold nth_Z. destruct (i <? 0) eqn:E; [discriminate|]. intros H. split; [lia | exact H]. Qed.




(** *** The invariant holds in every reachable state *)

Lemma syncInvariant_constructed (extent : VkExtent2D) (previous : option LveSwapChain.t)
    (w w' : World) (sc : LveSwapChain.t) :
  constructedBy extent previous w sc w' -> syncInvariant w' sc.
Proof.
  intros H. apply constructedBy_Ok in H
    as (_ & Hinflight & Hav & Hfin & (f0 & f1 & Hf & Hne & Hn0 & Hn1 & Hs0 & Hs1) & Hcur & _).
  exists f0, f1. repeat split; try assumption; try (left; assumption).
  rewrite Hinflight. apply Forall_replicate. left. reflexivity.
Qed.





(** *** Submitting and presenting *)







(** *** Runs of frames *)







(** *** The frame indices of the renderer and of its swap chain *)




Lemma renderer_this_Ok (s s' : World * LveRenderer.t) (r : LveRenderer.t) :
  LveRenderer.this s = Ok (r, s') -> r = snd s /\ s' = s.
Proof. intros [= <- <-]. split; reflexivity. Qed.

Lemma renderer_update_Ok (f : LveRenderer.t -> LveRenderer.t)
    (s s' : World * LveRenderer.t) (u : unit) :
  LveRenderer.update f s = Ok (u, s') -> s' = (fst s, f (snd s)).
Proof. intros [= <- <-]. reflexivity. Qed.




(** A reconstruction that returns has replaced the swap chain of the
    renderer, and nothing else of it, by one whose frame index is 0. *)
Lemma recreateSwapChain_Ok (w : World) (r : LveRenderer.t) (old : LveSwapChain.t)
    (s' : World * LveRenderer.t) (u : unit) :
  LveRenderer.lveSwapChain r = Some old ->
  LveRenderer.recreateSwapChain (w, r) = Ok (u, s') ->
  exists created,
    snd s' = LveRenderer.set_lveSwapChain (Some created) r
    /\ LveSwapChain.currentFrame created = 0.
Proof.
  intros Hold. rewrite (recreateSwapChain_unfold w r old Hold).
  destruct (LveRenderer.waitWhileMinimized _ _ w) as [[extent w1]|f]; [|discriminate].
  destruct (vkDeviceWaitIdle w1) as [[[] w2]|f]; [|discriminate].
  destruct (LveSwapChain.new_from extent (Some old) w2) as [[created w3]|f] eqn:Hnew;
    [|discriminate].
  destruct (LveSwapChain.compareSwapFormats old created); [|discriminate].
  intros [= _ <-]. exists created. split; [reflexivity|].
  assert (Hc : constructedBy extent (Some old) w2 created w3) by (left; exact Hnew).
  apply constructedBy_Ok in Hc as (_ & _ & _ & _ & _ & Hcur & _). exact Hcur.
Qed.








(** *** The present mode *)

Lemma findMailbox_Some (modes : list VkPresentModeKHR) (mode : VkPresentModeKHR) :
  LveSwapChain.findMailbox modes = Some mode ->
  mode = VK_PRESENT_MODE_MAILBOX_KHR /\ VK_PRESENT_MODE_MAILBOX_KHR ∈ modes.
Proof.
  induction modes as [|m modes IH]; simpl; [discriminate|].
  destruct (m =? VK_PRESENT_MODE_MAILBOX_KHR) eqn:E.
  - apply Z.eqb_eq in E as ->. intros [= <-]. split; [reflexivity | left].
  - intros H. destruct (IH H) as [-> Hin]. split; [reflexivity | right; exact Hin].
Qed.

Lemma findMailbox_None (modes : list VkPresentModeKHR) :
  LveSwapChain.findMailbox modes = None -> VK_PRESENT_MODE_MAILBOX_KHR ∉ modes.
Proof.
  induction modes as [|m modes IH]; simpl; [intros _; apply not_elem_of_nil|].
  destruct (m =? VK_PRESENT_MODE_MAILBOX_KHR) eqn:E; [discriminate|].
  apply Z.eqb_neq in E. intros H. apply not_elem_of_cons. split; [congruence | exact (IH H)].
Qed.

(** X1.  chooseSwapPresentMode returns VK_PRESENT_MODE_MAILBOX_KHR when the
    surface offers it and VK_PRESENT_MODE_FIFO_KHR in every other case, also
    when the list is empty or does not offer FIFO; it prints one line that
    names the choice, and never fails. *)
Theorem chooseSwapPresentMode_mailbox_else_fifo
    (modes : list VkPresentModeKHR) (w : World) :
  (VK_PRESENT_MODE_MAILBOX_KHR ∈ modes ->
   LveSwapChain.chooseSwapPresentMode modes w
   = Ok (VK_PRESENT_MODE_MAILBOX_KHR, ticked (StdCout "Present mode: Mailbox") w))
  /\ (VK_PRESENT_MODE_MAILBOX_KHR ∉ modes ->
      LveSwapChain.chooseSwapPresentMode modes w
      = Ok (VK_PRESENT_MODE_FIFO_KHR, ticked (StdCout "Present mode: V-Sync") w)).
Proof.
  unfold LveSwapChain.chooseSwapPresentMode.
  destruct (LveSwapChain.findMailbox modes) as [mode|] eqn:Hfind.
  - apply findMailbox_Some in Hfind as [-> Hin]. split; [reflexivity | contradiction].
  - apply findMailbox_None in Hfind. split; [contradiction | reflexivity].
Qed.

Lemma chooseSwapPresentMode_witness :
  LveSwapChain.chooseSwapPresentMode [VK_PRESENT_MODE_FIFO_KHR; VK_PRESENT_MODE_MAILBOX_KHR]
                                     calmWorld
  = Ok (VK_PRESENT_MODE_MAILBOX_KHR, ticked (StdCout "Present mode: Mailbox") calmWorld)
  /\ LveSwapChain.chooseSwapPresentMode [] calmWorld
     = Ok (VK_PRESENT_MODE_FIFO_KHR, ticked (StdCout "Present mode: V-Sync") calmWorld).
Proof.
  split.
  - apply (proj1 (chooseSwapPresentMode_mailbox_else_fifo _ calmWorld)).
    right. left.
  - apply (proj2 (chooseSwapPresentMode_mailbox_else_fifo _ calmWorld)).
    apply not_elem_of_nil.
Defined.

(** *** Formats and memory types of the device *)

Lemma findSupportedFormat_run (candidates : list VkFormat) (tiling features : Z) (w : World) :
  match LveDevice.findSupportedFormat candidates tiling features w with
  | Ok (chosen, w') =>
      exists before after,
        candidates = before ++ chosen :: after
        /\ (forall k format, before !! k = Some format ->
                             formatSupportedAt w k format tiling features = false)
        /\ formatSupportedAt w (length before) chosen tiling features = true
        /\ calls w' = calls w ++ (VkGetPhysicalDeviceFormatProperties <$> before ++ [chosen])
        /\ driver w' = driver w
  | Fail f =>
      f = RuntimeError "failed to find supported format!"
      /\ forall k format, candidates !! k = Some format ->
                          formatSupportedAt w k format tiling features = false
  end.
Proof.
  revert w. induction candidates as [|format rest IH]; intros w.
  - simpl. split; [reflexivity|]. intros k format H. discriminate H.
  - cbn [LveDevice.findSupportedFormat]. unfold bind at 1. cbn [call].
    unfold bind at 1. cbn [get].
    assert (Hhere : formatSupportedAt w 0 format tiling features
                    = ((tiling =? VK_IMAGE_TILING_LINEAR)
                       && (Z.land (linearTilingFeatures
                                     (drvFormatProperties (driver w) (length (calls w)) format))
                                  features =? features))
                      || ((tiling =? VK_IMAGE_TILING_OPTIMAL)
                          && (Z.land (optimalTilingFeatures
                                        (drvFormatProperties (driver w) (length (calls w)) format))
                                     features =? features))).
    { unfold formatSupportedAt. rewrite Nat.add_0_r. reflexivity. }
    cbn [driver ticked set_fences set_calls].
    set (c := VkGetPhysicalDeviceFormatProperties format) in *.
    assert (Hsupported : forall w1, driver w1 = driver w ->
              formatSupportedAt w 0 format tiling features = true ->
              exists before after : list VkFormat,
                format :: rest = before ++ format :: after
                /\ (forall k f, before !! k = Some f ->
                                formatSupportedAt w k f tiling features = false)
                /\ formatSupportedAt w (length before) format tiling features = true
                /\ calls (ticked c w) = calls w ++ (VkGetPhysicalDeviceFormatProperties
                                                     <$> before ++ [format])).
    { intros w1 _ H. exists [], rest. repeat split; try assumption.
      intros k f Hk. discriminate Hk. }
    destruct ((tiling =? VK_IMAGE_TILING_LINEAR) && _) eqn:Elinear.
    { destruct (Hsupported w eq_refl) as (before & after & H1 & H2 & H3 & H4).
      { rewrite Hhere. reflexivity. }
      exists before, after. auto. }
    destruct ((tiling =? VK_IMAGE_TILING_OPTIMAL) && _) eqn:Eoptimal.
    { destruct (Hsupported w eq_refl) as (before & after & H1 & H2 & H3 & H4).
      { rewrite Hhere. apply orb_true_r. }
      exists before, after. auto. }
    assert (Hnot : formatSupportedAt w 0 format tiling features = false)
      by (rewrite Hhere; reflexivity).
    clear Hsupported Hhere.
    assert (Hshift : forall k f, formatSupportedAt (ticked c w) k f tiling features
                                 = formatSupportedAt w (S k) f tiling features).
    { intros k f. unfold formatSupportedAt. rewrite ticked_calls, length_app. cbn [length].
      replace (length (calls w) + 1 + k)%nat with (length (calls w) + S k)%nat by lia.
      reflexivity. }
    specialize (IH (ticked c w)).
    destruct (LveDevice.findSupportedFormat rest tiling features (ticked c w))
      as [[chosen w']|f].
    + destruct IH as (before & after & -> & Hbefore & Hchosen & Hcalls & Hdriver).
      exists (format :: before), after. repeat split.
      * intros [|k] f Hk.
        -- injection Hk as <-. exact Hnot.
        -- rewrite <- Hshift. apply (Hbefore k f Hk).
      * cbn [length]. rewrite <- Hshift. exact Hchosen.
      * rewrite Hcalls, ticked_calls, <- app_assoc. reflexivity.
      * exact Hdriver.
    + destruct IH as [-> Hnone]. split; [reflexivity|].
      intros [|k] f Hk.
      * injection Hk as <-. exact Hnot.
      * rewrite <- Hshift. apply (Hnone k f Hk).
Qed.

(** X2.  findSupportedFormat asks the device about the candidates in order
    and returns the first one whose features for the given tiling include
    the wanted ones, having asked about no later candidate; it throws
    "failed to find supported format!" exactly when no candidate is
    supported, which is so for an empty list of candidates, and fails in no
    other way. *)
Theorem findSupportedFormat_first_supported
    (candidates : list VkFormat) (tiling features : Z) (w : World) :
  (LveDevice.findSupportedFormat candidates tiling features w
   = Fail (RuntimeError "failed to find supported format!")
   <-> forall k format, candidates !! k = Some format ->
                        formatSupportedAt w k format tiling features = false)
  /\ (forall f, LveDevice.findSupportedFormat candidates tiling features w = Fail f ->
                f = RuntimeError "failed to find supported format!")
  /\ (forall chosen w',
        LveDevice.findSupportedFormat candidates tiling features w = Ok (chosen, w') ->
        exists before after,
          candidates = before ++ chosen :: after
          /\ (forall k format, before !! k = Some format ->
                               formatSupportedAt w k format tiling features = false)
          /\ formatSupportedAt w (length before) chosen tiling features = true
          /\ calls w' = calls w ++ (VkGetPhysicalDeviceFormatProperties
                                      <$> before ++ [chosen])).
Proof.
  pose proof (findSupportedFormat_run candidates tiling features w) as H.
  destruct (LveDevice.findSupportedFormat candidates tiling features w) as [[chosen w']|f].
  - destruct H as (before & after & Hsplit & Hbefore & Hchosen & Hcalls & _).
    split; [split; [discriminate|] | split; [discriminate|]].
    + intros Hnone. exfalso.
      assert (Hk : candidates !! length before = Some chosen).
      { rewrite Hsplit. apply list_lookup_middle. reflexivity. }
      rewrite (Hnone _ _ Hk) in Hchosen. discriminate Hchosen.
    + intros chosen' w'' [= <- <-]. exists before, after. auto.
  - destruct H as [-> Hnone].
    split; [split; [intros _; exact Hnone | reflexivity] | split].
    + intros f [= <-]. reflexivity.
    + intros chosen w' H. discriminate H.
Qed.

Lemma findSupportedFormat_witness :
  LveDevice.findSupportedFormat
    [VK_FORMAT_D32_SFLOAT; VK_FORMAT_D32_SFLOAT_S8_UINT; VK_FORMAT_D24_UNORM_S8_UINT]
    VK_IMAGE_TILING_LINEAR VK_FORMAT_FEATURE_DEPTH_STENCIL_ATTACHMENT_BIT calmWorld
  = Fail (RuntimeError "failed to find supported format!").
Proof.
  apply (proj1 (findSupportedFormat_first_supported
                  [VK_FORMAT_D32_SFLOAT; VK_FORMAT_D32_SFLOAT_S8_UINT;
                   VK_FORMAT_D24_UNORM_S8_UINT]
                  VK_IMAGE_TILING_LINEAR VK_FORMAT_FEATURE_DEPTH_STENCIL_ATTACHMENT_BIT
                  calmWorld)).
  intros k format Hk. vm_compute. reflexivity.
Defined.

Lemma land_bit (a i : Z) :
  0 <= i -> (Z.land a (Z.shiftl 1 i) =? 0) = negb (Z.testbit a i).
Proof.
  intros Hi. rewrite Z.shiftl_1_l.
  destruct (Z.testbit a i) eqn:Hbit; cbn [negb].
  - apply Z.eqb_neq. intros H.
    assert (Hb : Z.testbit (Z.land a (2 ^ i)) i = true).
    { rewrite Z.land_spec, Hbit, Z.pow2_bits_true by exact Hi. reflexivity. }
    rewrite H, Z.bits_0 in Hb. discriminate Hb.
  - apply Z.eqb_eq. apply Z.bits_inj'. intros n Hn.
    rewrite Z.land_spec, Z.bits_0, Z.pow2_bits_eqb by exact Hi.
    destruct (i =? n) eqn:E; [|apply andb_false_r].
    apply Z.eqb_eq in E as <-. rewrite Hbit. reflexivity.
Qed.

Lemma findMemoryType_from_run (types : list Z) (i typeFilter properties : Z) :
  0 <= i ->
  match LveDevice.findMemoryType_from types i typeFilter properties with
  | Some j =>
      exists k propertyFlags,
        j = i + Z.of_nat k
        /\ types !! k = Some propertyFlags
        /\ Z.testbit typeFilter j = true
        /\ Z.land propertyFlags properties = properties
        /\ forall k' flags, (k' < k)%nat -> types !! k' = Some flags ->
             ~ (Z.testbit typeFilter (i + Z.of_nat k') = true
                /\ Z.land flags properties = properties)
  | None =>
      forall k flags, types !! k = Some flags ->
        ~ (Z.testbit typeFilter (i + Z.of_nat k) = true
           /\ Z.land flags properties = properties)
  end.
Proof.
  revert i. induction types as [|flags types IH]; intros i Hi; simpl.
  - intros k f Hk. discriminate Hk.
  - rewrite (land_bit _ _ Hi), negb_involutive.
    destruct (Z.testbit typeFilter i && (Z.land flags properties =? properties)) eqn:Ehere.
    + apply andb_true_iff in Ehere as [Hbit Hflags%Z.eqb_eq].
      exists 0%nat, flags. rewrite Z.add_0_r. repeat split; try assumption. lia.
    + assert (Hnot : ~ (Z.testbit typeFilter i = true
                        /\ Z.land flags properties = properties)).
      { intros [Hbit Hflags%Z.eqb_eq]. rewrite Hbit, Hflags in Ehere. discriminate Ehere. }
      specialize (IH (i + 1) ltac:(lia)).
      destruct (LveDevice.findMemoryType_from types (i + 1) typeFilter properties) as [j|].
      * destruct IH as (k & f & -> & Hk & Hbit & Hflags & Hleast).
        exists (S k), f. repeat split; try assumption; [lia|].
        intros [|k'] f' Hlt Hk'.
        -- injection Hk' as <-. rewrite Z.add_0_r. exact Hnot.
        -- replace (i + Z.of_nat (S k')) with (i + 1 + Z.of_nat k') by lia.
           apply (Hleast k' f'); [lia | exact Hk'].
      * intros [|k] f Hk.
        -- injection Hk as <-. rewrite Z.add_0_r. exact Hnot.
        -- replace (i + Z.of_nat (S k)) with (i + 1 + Z.of_nat k) by lia.
           apply (IH k f Hk).
Qed.

Lemma suitableMemoryType_lookup (types : list Z) (typeFilter properties i : Z) :
  suitableMemoryType types typeFilter properties i
  <-> 0 <= i
      /\ exists flags, types !! Z.to_nat i = Some flags
                       /\ Z.testbit typeFilter i = true
                       /\ Z.land flags properties = properties.
Proof.
  unfold suitableMemoryType, nth_Z. split.
  - intros (flags & Hlook & Hbit & Hflags). destruct (i <? 0) eqn:E; [discriminate|].
    split; [lia|]. eauto.
  - intros (Hi & flags & Hlook & Hbit & Hflags). exists flags.
    destruct (i <? 0) eqn:E; [lia|]. auto.
Qed.

(** X3.  findMemoryType reads the memory types of the device once and
    returns the least index that the type filter allows and whose property
    flags include all the wanted ones; it throws
    "failed to find suitable memory type!" exactly when the device has no
    such memory type.  (Vulkan reports at most 32 memory types, for which
    the shift in the test is defined.) *)
Theorem findMemoryType_least_suitable (typeFilter properties : Z) (w : World) :
  let types := drvMemoryTypes (driver w) (length (calls w)) in
  (length types <= 32)%nat ->
  match LveDevice.findMemoryType typeFilter properties w with
  | Ok (i, w') =>
      suitableMemoryType types typeFilter properties i
      /\ (forall j, j < i -> ~ suitableMemoryType types typeFilter properties j)
      /\ w' = ticked VkGetPhysicalDeviceMemoryProperties w
  | Fail f =>
      f = RuntimeError "failed to find suitable memory type!"
      /\ forall j, ~ suitableMemoryType types typeFilter properties j
  end.
Proof.
  intros types _. unfold LveDevice.findMemoryType, bind, call, get.
  cbn [driver ticked set_fences set_calls]. fold types.
  pose proof (findMemoryType_from_run types 0 typeFilter properties ltac:(lia)) as H.
  destruct (LveDevice.findMemoryType_from types 0 typeFilter properties) as [i|].
  - destruct H as (k & flags & -> & Hk & Hbit & Hflags & Hleast). cbn [ret].
    rewrite Z.add_0_l in *. split; [|split; [|reflexivity]].
    + apply suitableMemoryType_lookup. split; [lia|]. exists flags.
      rewrite Nat2Z.id. auto.
    + intros j Hj [Hj0 (f & Hlook & Hb & Hf)]%suitableMemoryType_lookup.
      apply (Hleast (Z.to_nat j) f); [lia | exact Hlook |].
      rewrite Z.add_0_l, Z2Nat.id by lia. auto.
  - cbn [throw fail]. split; [reflexivity|].
    intros j [Hj0 (f & Hlook & Hb & Hf)]%suitableMemoryType_lookup.
    apply (H (Z.to_nat j) f Hlook). rewrite Z.add_0_l, Z2Nat.id by lia. auto.
Qed.

(** Three memory types, of which the filter allows the second and third and
    the third alone is device-local: index 2 is found. *)
Lemma findMemoryType_witness :
  exists w',
    LveDevice.findMemoryType 6 VK_MEMORY_PROPERTY_DEVICE_LOCAL_BIT memoryWorld = Ok (2, w')
    /\ suitableMemoryType [1; 6; 7] 6 VK_MEMORY_PROPERTY_DEVICE_LOCAL_BIT 2.
Proof.
  pose proof (findMemoryType_least_suitable 6 VK_MEMORY_PROPERTY_DEVICE_LOCAL_BIT
                memoryWorld ltac:(vm_compute; lia)) as H.
  destruct (LveDevice.findMemoryType 6 VK_MEMORY_PROPERTY_DEVICE_LOCAL_BIT memoryWorld)
    as [[i w']|f] eqn:Hrun; [|vm_compute in Hrun; discriminate Hrun].
  assert (Hi : i = 2) by (vm_compute in Hrun; congruence).
  subst i. exists w'. split; [reflexivity | exact (proj1 H)].
Defined.

(** *** Construction that fails *)

Lemma chooseSwapPresentMode_run (modes : list VkPresentModeKHR) (w : World) :
  exists mode text,
    LveSwapChain.chooseSwapPresentMode modes w = Ok (mode, ticked (StdCout text) w).
Proof.
  unfold LveSwapChain.chooseSwapPresentMode.
  destruct (LveSwapChain.findMailbox modes); eexists _, _; reflexivity.
Qed.

Lemma chooseSwapSurfaceFormat_run {St} (first : VkSurfaceFormatKHR)
    (rest : list VkSurfaceFormatKHR) (s : St) :
  exists chosen, LveSwapChain.chooseSwapSurfaceFormat (first :: rest) s = Ok (chosen, s).
Proof.
  unfold LveSwapChain.chooseSwapSurfaceFormat.
  destruct (LveSwapChain.findPreferredFormat (first :: rest)) as [chosen|].
  - exists chosen. reflexivity.
  - exists first. reflexivity.
Qed.

Lemma vkCreate_failed (c : Call) (w : World) :
  drvResult (driver w) (length (calls w)) <> VK_SUCCESS ->
  vkCreate c w = Ok ((drvResult (driver w) (length (calls w)), VK_NULL_HANDLE), ticked c w).
Proof.
  intros H. apply Z.eqb_neq in H. unfold vkCreate, bind, callResult, bind, call, get, ret.
  cbn [driver ticked set_fences set_calls]. rewrite H. reflexivity.
Qed.

(** createSwapChain up to the creation of the swap chain. *)
Lemma createSwapChain_start (w : World) (sc : LveSwapChain.t) :
  let support := drvSupport (driver w) (length (calls w)) in
  match formats support with
  | [] => LveSwapChain.createSwapChain (w, sc)
          = Fail (UndefinedBehaviour "vector subscript out of range")
  | _ :: _ =>
      drvResult (driver w) (length (calls w) + 3) <> VK_SUCCESS ->
      LveSwapChain.createSwapChain (w, sc) = Fail (RuntimeError "failed to create swap chain!")
  end.
Proof.
  intros support.
  assert (Hfirst : onFst LveDevice.getSwapChainSupport (w, sc)
                   = Ok (support, (ticked GetSwapChainSupport w, sc))) by reflexivity.
  destruct (formats support) as [|first rest] eqn:Hformats.
  { unfold LveSwapChain.createSwapChain. unfold bind at 1. rewrite Hfirst.
    unfold bind at 1. rewrite Hformats. reflexivity. }
  intros Hfailed.
  unfold LveSwapChain.createSwapChain. unfold bind at 1. rewrite Hfirst.
  unfold bind at 1. rewrite Hformats.
  destruct (chooseSwapSurfaceFormat_run first rest (ticked GetSwapChainSupport w, sc))
    as [chosen ->].
  cbv iota beta. unfold bind at 1. unfold onFst at 1. cbn [fst snd].
  destruct (chooseSwapPresentMode_run (presentModes support) (ticked GetSwapChainSupport w))
    as (mode & text & ->).
  cbv iota beta. unfold bind at 1. cbn [LveSwapChain.this bind get ret snd].
  cbv zeta. unfold bind at 1. unfold onFst at 1. cbn [fst snd].
  cbn [LveDevice.findPhysicalQueueFamilies bind call get ret].
  unfold bind at 1. unfold onFst at 1. cbn [fst snd].
  rewrite vkCreate_failed.
  - cbv iota beta. cbn [fst snd].
    rewrite !ticked_calls, !length_app. cbn [length driver ticked set_fences set_calls].
    replace (length (calls w) + 1 + 1 + 1)%nat with (length (calls w) + 3)%nat by lia.
    apply Z.eqb_neq in Hfailed. rewrite Hfailed. reflexivity.
  - rewrite !ticked_calls, !length_app. cbn [length driver ticked set_fences set_calls].
    replace (length (calls w) + 1 + 1 + 1)%nat with (length (calls w) + 3)%nat by lia.
    exact Hfailed.
Qed.

Lemma init_createSwapChain_failed (s : World * LveSwapChain.t) (f : Fault) :
  LveSwapChain.createSwapChain s = Fail f -> LveSwapChain.init s = Fail f.
Proof. intros H. unfold LveSwapChain.init. unfold bind at 1. rewrite H. reflexivity. Qed.

(** X4.  A surface that reports no format makes the construction of a swap
    chain undefined: chooseSwapSurfaceFormat returns the first element of
    the empty vector.  Both constructors are concerned. *)
Theorem construction_without_formats_undefined
    (extent : VkExtent2D) (previous : option LveSwapChain.t) (w : World) :
  formats (drvSupport (driver w) (length (calls w))) = [] ->
  LveSwapChain.new extent w = Fail (UndefinedBehaviour "vector subscript out of range")
  /\ LveSwapChain.new_from extent previous w
     = Fail (UndefinedBehaviour "vector subscript out of range").
Proof.
  intros Hnone.
  assert (H : forall sc, LveSwapChain.init (w, sc)
                         = Fail (UndefinedBehaviour "vector subscript out of range")).
  { intros sc. apply init_createSwapChain_failed.
    pose proof (createSwapChain_start w sc) as H. cbv zeta in H. rewrite Hnone in H.
    exact H. }
  unfold LveSwapChain.new, LveSwapChain.new_from. unfold bind. rewrite !H. auto.
Qed.

(** X5.  When the surface reports a format and vkCreateSwapchainKHR, the
    fourth call of the construction, does not return VK_SUCCESS, both
    constructors throw "failed to create swap chain!". *)
Theorem construction_throws_when_creation_fails
    (extent : VkExtent2D) (previous : option LveSwapChain.t) (w : World) :
  formats (drvSupport (driver w) (length (calls w))) <> [] ->
  drvResult (driver w) (length (calls w) + 3) <> VK_SUCCESS ->
  LveSwapChain.new extent w = Fail (RuntimeError "failed to create swap chain!")
  /\ LveSwapChain.new_from extent previous w
     = Fail (RuntimeError "failed to create swap chain!").
Proof.
  intros Hsome Hfailed.
  assert (H : forall sc, LveSwapChain.init (w, sc)
                         = Fail (RuntimeError "failed to create swap chain!")).
  { intros sc. apply init_createSwapChain_failed.
    pose proof (createSwapChain_start w sc) as H. cbv zeta in H.
    destruct (formats (drvSupport (driver w) (length (calls w)))); [contradiction|].
    exact (H Hfailed). }
  unfold LveSwapChain.new, LveSwapChain.new_from. unfold bind. rewrite !H. auto.
Qed.

(** A surface without formats, and a driver that refuses to create the swap
    chain. *)
Lemma construction_without_formats_witness :
  LveSwapChain.new exampleExtent (withFormats [] calmWorld)
  = Fail (UndefinedBehaviour "vector subscript out of range").
Proof.
  apply (proj1 (construction_without_formats_undefined
                  exampleExtent None (withFormats [] calmWorld) eq_refl)).
Defined.

Lemma construction_throws_witness :
  LveSwapChain.new exampleExtent creationFails
  = Fail (RuntimeError "failed to create swap chain!").
Proof.
  apply (proj1 (construction_throws_when_creation_fails
                  exampleExtent None creationFails
                  ltac:(vm_compute; discriminate) ltac:(vm_compute; discriminate))).
Defined.

(** *** Acquiring an image *)

(** acquireNextImage under the invariant of the synchronization objects. *)
Lemma acquireNextImage_sync (w : World) (sc : LveSwapChain.t) :
  syncInvariant w sc ->
  exists fence semaphore w1,
    nth_Z (LveSwapChain.inFlightFences sc) (LveSwapChain.currentFrame sc) = Some fence
    /\ nth_Z (LveSwapChain.imageAvailableSemaphores sc) (LveSwapChain.currentFrame sc)
       = Some semaphore
    /\ (let tick := S (length (calls w)) in
        let status := drvResult (driver w) tick in
        LveSwapChain.acquireNextImage (w, sc)
        = Ok ((status,
               if (status =? VK_SUCCESS) || (status =? VK_SUBOPTIMAL_KHR)
               then Some (wrap32 (drvImageIndex (driver w) tick))
               else None),
              (w1, sc)))
    /\ calls w1
       = calls w ++ [VkWaitForFences fence;
                     VkAcquireNextImageKHR (LveSwapChain.swapChain sc) semaphore]
    /\ driver w1 = driver w
    /\ signaled w1 fence.
Proof.
  intros Hinv.
  pose proof Hinv as (f0 & f1 & Hf & Hne & Hn0 & Hn1 & Hs0 & Hs1 & Himg
                      & Hav & Hfin & Hcur).
  pose proof (slot_fence sc f0 f1 Hf Hcur) as Hfence.
  destruct (nth_Z_two _ _ Hav Hcur) as [semaphore Hsem].
  set (fence := if LveSwapChain.currentFrame sc =? 0 then f0 else f1) in *.
  assert (Hsp : signaledOrPending w fence).
  { unfold fence. destruct (LveSwapChain.currentFrame sc =? 0); assumption. }
  exists fence, semaphore,
    (ticked (VkAcquireNextImageKHR (LveSwapChain.swapChain sc) semaphore) (waited fence w)).
  split; [exact Hfence|]. split; [exact Hsem|]. split; [|split; [|split]].
  - cbv zeta. unfold LveSwapChain.acquireNextImage.
    unfold bind at 1. cbn [LveSwapChain.this bind get ret fst snd].
    unfold bind at 1, at_. rewrite Hfence. cbn [ret].
    unfold bind at 1, onFst at 1. cbn [fst snd]. rewrite (vkWaitForFences_run _ _ Hsp).
    unfold bind at 1. rewrite Hsem. cbn [ret]. unfold onFst. cbn [fst snd].
    unfold vkAcquireNextImageKHR, bind, call, get, ret.
    assert (Hlen : length (calls (waited fence w)) = S (length (calls w))).
    { unfold waited. cbn [calls set_fences]. rewrite ticked_calls, length_app.
      cbn [length]. lia. }
    rewrite Hlen. reflexivity.
  - unfold waited. cbn [calls set_fences ticked set_calls]. rewrite <- app_assoc. reflexivity.
  - reflexivity.
  - apply ticked_signaled, waited_signaled.
Qed.



(** *** The render pass of a frame *)

Lemma set_lveSwapChain_same (r : LveRenderer.t) (sc : LveSwapChain.t) :
  LveRenderer.lveSwapChain r = Some sc -> LveRenderer.set_lveSwapChain (Some sc) r = r.
Proof. destruct r. cbn. intros ->. reflexivity. Qed.



(** *** The window while it is minimized *)

Lemma glfwWaitEvents_Ok (w w' : World) (u : unit) :
  glfwWaitEvents w = Ok (u, w') ->
  exists event rest,
    events w = event :: rest /\ events w' = rest
    /\ calls w' = calls w ++ [GlfwWaitEvents].
Proof.
  unfold glfwWaitEvents, bind, call, get.
  cbn [events ticked set_fences set_calls].
  destruct (events w) as [|[[width height]|] rest] eqn:Hevents; [discriminate| |].
  - unfold modify. intros [= _ <-]. exists (Some (width, height)), rest.
    cbn [events calls set_events set_window]. auto.
  - unfold modify. intros [= _ <-]. exists None, rest.
    cbn [events calls set_events set_window]. auto.
Qed.

Lemma glfwWaitEvents_blocked (w : World) :
  events w = [] -> glfwWaitEvents w = Fail (Blocked "glfwWaitEvents: no event arrives").
Proof.
  intros H. unfold glfwWaitEvents, bind, call, get.
  cbn [events ticked set_fences set_calls]. rewrite H. reflexivity.
Qed.

(** The loop returns an extent that is not minimized, and has consumed an
    event when the extent it started with was. *)
Lemma waitWhileMinimized_Ok (fuel : nat) (start extent : VkExtent2D) (w w' : World) :
  LveRenderer.waitWhileMinimized fuel start w = Ok (extent, w') ->
  width extent <> 0 /\ height extent <> 0
  /\ (length (events w') <= length (events w))%nat
  /\ (width start = 0 \/ height start = 0 ->
      (length (events w') + 1 <= length (events w))%nat).
Proof.
  revert start w. induction fuel as [|fuel IH]; intros start w; simpl.
  - destruct ((width start =? 0) || (height start =? 0)) eqn:E; [discriminate|].
    apply orb_false_iff in E as [Hw%Z.eqb_neq Hh%Z.eqb_neq].
    intros [= <- <-]. split; [assumption|]. split; [assumption|]. split; [lia|].
    intros [? | ?]; contradiction.
  - destruct ((width start =? 0) || (height start =? 0)) eqn:E.
    + unfold bind at 1. cbn [get]. unfold bind at 1.
      destruct (glfwWaitEvents w) as [[u w1]|f] eqn:Hwait; [|discriminate].
      apply glfwWaitEvents_Ok in Hwait as (event & rest & Hev & Hev1 & _).
      intros H. apply IH in H as (Hw & Hh & Hle & _).
      rewrite Hev1 in Hle. rewrite Hev. cbn [length].
      split; [assumption|]. split; [assumption|]. split; [lia|]. intros _. lia.
    + apply orb_false_iff in E as [Hw%Z.eqb_neq Hh%Z.eqb_neq].
      intros [= <- <-]. split; [assumption|]. split; [assumption|]. split; [lia|].
    intros [? | ?]; contradiction.
Qed.

(** X8.  The loop of recreateSwapChain for a minimized window reads the
    extent before it waits for an event, so the extent it tests is one
    event old: when the window is minimized at the start, the loop returns
    only after at least two events, with an extent that is not zero in
    either dimension; with fewer than two events to arrive it waits for
    ever, even if the one event restores the window. *)
Theorem minimized_window_needs_two_events (w : World) :
  let shown := LveWindow.getExtent (window w) in
  let loop := LveRenderer.waitWhileMinimized (S (length (events w))) shown in
  width shown = 0 \/ height shown = 0 ->
  ((length (events w) < 2)%nat ->
   loop w = Fail (Blocked "glfwWaitEvents: no event arrives"))
  /\ (forall extent w',
        loop w = Ok (extent, w') ->
        width extent <> 0 /\ height extent <> 0
        /\ (length (events w') + 2 <= length (events w))%nat).
Proof.
  intros shown loop Hmin.
  assert (Eshown : (width shown =? 0) || (height shown =? 0) = true).
  { apply orb_true_iff. destruct Hmin as [-> | ->]; [left | right]; reflexivity. }
  assert (Hloop : loop w = match glfwWaitEvents w with
                           | Ok (_, w1) =>
                               LveRenderer.waitWhileMinimized (length (events w)) shown w1
                           | Fail f => Fail f
                           end).
  { unfold loop. cbn [LveRenderer.waitWhileMinimized]. rewrite Eshown.
    unfold bind at 1. cbn [get]. unfold bind at 1. reflexivity. }
  rewrite Hloop. clear Hloop loop.
  split.
  - intros Hfew. destruct (events w) as [|event [|event' rest]] eqn:Hevents;
      [| |cbn [length] in Hfew; lia].
    + rewrite (glfwWaitEvents_blocked w Hevents). reflexivity.
    + destruct (glfwWaitEvents w) as [[u w1]|f] eqn:Hwait.
      * apply glfwWaitEvents_Ok in Hwait as (e & rest & Hev & Hev1 & _).
        rewrite Hevents in Hev. injection Hev as <- <-.
        cbn [length LveRenderer.waitWhileMinimized]. rewrite Eshown.
        unfold bind at 1. cbn [get]. unfold bind at 1.
        rewrite (glfwWaitEvents_blocked w1 Hev1). reflexivity.
      * exfalso. revert Hwait. unfold glfwWaitEvents, bind, call, get.
        cbn [events ticked set_fences set_calls]. rewrite Hevents.
        destruct event as [[? ?]|]; unfold modify; intros [=].
  - intros extent w' Hrun.
    destruct (glfwWaitEvents w) as [[u w1]|f] eqn:Hwait; [|discriminate Hrun].
    apply glfwWaitEvents_Ok in Hwait as (e & rest & Hev & Hev1 & _).
    apply waitWhileMinimized_Ok in Hrun as (Hw & Hh & _ & Hone).
    specialize (Hone Hmin). rewrite Hev1 in Hone. rewrite Hev. cbn [length].
    split; [assumption|]. split; [assumption|]. lia.
Qed.

(** A minimized window to which one event arrives, a resize to 800 x 600:
    the loop waits for ever; when another event follows it returns. *)
Lemma minimized_window_witness :
  LveRenderer.waitWhileMinimized
    2 (LveWindow.getExtent (window (minimizedWorld [Some (800, 600)])))
    (minimizedWorld [Some (800, 600)])
  = Fail (Blocked "glfwWaitEvents: no event arrives")
  /\ exists w',
       LveRenderer.waitWhileMinimized
         3 (LveWindow.getExtent (window (minimizedWorld [Some (800, 600); None])))
         (minimizedWorld [Some (800, 600); None])
       = Ok ({| width := 800; height := 600 |}, w').
Proof.
  split.
  - apply (proj1 (minimized_window_needs_two_events
                    (minimizedWorld [Some (800, 600)]) (or_introl eq_refl))).
    vm_compute. lia.
  - eexists. vm_compute. reflexivity.
Defined.

(** *** The construction of the renderer *)

Lemma newHandles_fresh (n : nat) (w w' : World) (hs : list handle) :
  LveSwapChain.newHandles n w = Ok (hs, w') ->
  NoDup hs /\ Forall (fun h => (nextHandle w < h)%N) hs.
Proof.
  revert w w' hs. induction n as [|n IH]; intros w w' hs; simpl.
  - intros [= <- <-]. split; constructor.
  - unfold bind at 1. cbn [newHandle bind get modify ret]. unfold bind at 1.
    destruct (LveSwapChain.newHandles n (set_nextHandle N.succ w)) as [[hs' w1]|f] eqn:Hrec;
      [|discriminate].
    intros [= <- <-]. destruct (IH _ _ _ Hrec) as [Hnodup Hall].
    cbn [nextHandle set_nextHandle] in Hall. split.
    + constructor; [|exact Hnodup]. intros Hin.
      apply (proj1 (Forall_forall _ _) Hall) in Hin. lia.
    + constructor; [lia|]. eapply Forall_impl; [exact Hall|]. intros h Hh. cbn in Hh. lia.
Qed.

Lemma recreateSwapChain_first (w : World) (r : LveRenderer.t)
    (s' : World * LveRenderer.t) (u : unit) :
  LveRenderer.lveSwapChain r = None ->
  LveRenderer.recreateSwapChain (w, r) = Ok (u, s') ->
  exists extent w0 created,
    LveSwapChain.new extent w0 = Ok (created, fst s')
    /\ width extent <> 0 /\ height extent <> 0
    /\ snd s' = LveRenderer.set_lveSwapChain (Some created) r.
Proof.
  intros Hnone H. unfold LveRenderer.recreateSwapChain in H.
  apply bind_Ok in H as (w0 & s & Hget & H).
  apply onFst_Ok in Hget as (w0' & [= <- <-] & ->).
  apply bind_Ok in H as (extent & s & Hwait & H).
  apply onFst_Ok in Hwait as (w1 & Hwait & ->).
  apply waitWhileMinimized_Ok in Hwait as (Hw & Hh & _).
  apply bind_Ok in H as (u1 & s & Hidle & H).
  apply onFst_Ok in Hidle as (w2 & _ & ->).
  apply bind_Ok in H as (self & s & Hthis & H). apply renderer_this_Ok in Hthis as [-> ->].
  cbn [snd] in H. rewrite Hnone in H.
  apply bind_Ok in H as (created & s & Hnew & H).
  apply onFst_Ok in Hnew as (w3 & Hnew & ->).
  apply renderer_update_Ok in H as ->. cbn [fst snd].
  exists extent, w2, created. auto.
Qed.

(** X9.  A renderer that has been constructed holds a swap chain, made by
    the constructor without a previous one for an extent that is not zero
    in either dimension, and two command buffers, distinct and not null.
    The constructor assigns none of currentImageIndex, currentFrameIndex
    and isFrameStarted: they hold what they held before. *)
Theorem renderer_construction
    (imageIndex frameIndex : Z) (frameStarted : bool) (w w' : World) (r : LveRenderer.t) :
  LveRenderer.new imageIndex frameIndex frameStarted w = Ok (r, w') ->
  (exists sc extent w0 w1,
     LveRenderer.lveSwapChain r = Some sc
     /\ LveSwapChain.new extent w0 = Ok (sc, w1)
     /\ width extent <> 0 /\ height extent <> 0)
  /\ length (LveRenderer.commandBuffers r) = 2%nat
  /\ NoDup (LveRenderer.commandBuffers r)
  /\ (VK_NULL_HANDLE ∉ LveRenderer.commandBuffers r)
  /\ LveRenderer.currentImageIndex r = imageIndex
  /\ LveRenderer.currentFrameIndex r = frameIndex
  /\ LveRenderer.isFrameStarted r = frameStarted.
Proof.
  unfold LveRenderer.new.
  destruct (bind LveRenderer.recreateSwapChain _ _)
    as [[u [w1 r1]]|f] eqn:Hrun; [|discriminate].
  intros [= <- <-].
  apply bind_Ok in Hrun as (u0 & [w2 r2] & Hrecreate & Hbuffers).
  apply recreateSwapChain_first in Hrecreate as (extent & w0 & created & Hnew & Hw & Hh & Hr2);
    [|reflexivity].
  cbn [fst snd] in Hnew, Hr2. subst r2.
  unfold LveRenderer.createCommandBuffers in Hbuffers. cbv zeta in Hbuffers.
  apply bind_Ok in Hbuffers as (u1 & s & Hup & H). apply renderer_update_Ok in Hup as ->.
  apply bind_Ok in H as (self & s & Hthis & H). apply renderer_this_Ok in Hthis as [-> ->].
  apply bind_Ok in H as (result & s & Hcall & H).
  apply onFst_Ok in Hcall as (w3 & _ & ->).
  destruct (negb (result =? VK_SUCCESS)); [discriminate H|].
  apply bind_Ok in H as (buffers & s & Hhandles & H).
  apply onFst_Ok in Hhandles as (w4 & Hhandles & ->).
  apply renderer_update_Ok in H as [= _ ->].
  pose proof (newHandles_Ok _ _ _ _ Hhandles) as (Hlength & _).
  pose proof (newHandles_fresh _ _ _ _ Hhandles) as (Hnodup & Hfresh).
  cbn in Hlength. cbn.
  split; [exists created, extent, w0, w2; auto|].
  split; [exact Hlength|]. split; [exact Hnodup|]. split; [|auto].
  intros Hin. apply (proj1 (Forall_forall _ _) Hfresh) in Hin.
  unfold VK_NULL_HANDLE in Hin. lia.
Qed.

Lemma renderer_construction_witness :
  LveRenderer.lveSwapChain (snd (exampleRenderer false)) <> None
  /\ LveRenderer.commandBuffers (snd (exampleRenderer false)) = [27%N; 28%N]
  /\ length (LveRenderer.commandBuffers (snd (exampleRenderer false))) = 2%nat.
Proof.
  destruct (LveRenderer.new 0 0 false (exampleWorld (fun _ => VK_SUCCESS) false))
    as [[r w']|f] eqn:Hnew; [|vm_compute in Hnew; discriminate Hnew].
  assert (Hr : snd (exampleRenderer false) = r).
  { unfold exampleRenderer. rewrite Hnew. reflexivity. }
  rewrite Hr.
  destruct (renderer_construction 0 0 false _ w' r Hnew)
    as ((sc & _ & _ & _ & Hsc & _) & Hlength & _).
  split; [rewrite Hsc; discriminate|]. split; [|exact Hlength].
  rewrite <- Hr. vm_compute. reflexivity.
Defined.

(** *** The outcomes of beginFrame and endFrame *)

(** X10.  beginFrame, called between frames on a renderer whose swap chain
    has its synchronization objects in order, goes by the status of the
    acquisition.  On VK_ERROR_OUT_OF_DATE_KHR it recreates the swap chain
    and returns the null handle without opening a frame.  On any other
    status but VK_SUCCESS and VK_SUBOPTIMAL_KHR it throws
    "failed to acquire swap chain image!".  On VK_SUCCESS or
    VK_SUBOPTIMAL_KHR it stores the acquired image index, opens the frame
    and begins the command buffer of the current frame slot, which it
    returns; it throws "failed to begin recording command buffer!" when
    vkBeginCommandBuffer fails. *)
Theorem beginFrame_by_acquisition_status
    (w : World) (r : LveRenderer.t) (sc : LveSwapChain.t) :
  syncInvariant w sc ->
  LveRenderer.lveSwapChain r = Some sc ->
  LveRenderer.isFrameStarted r = false ->
  let tick := S (length (calls w)) in
  let status := drvResult (driver w) tick in
  exists acquired w1,
    LveSwapChain.acquireNextImage (w, sc) = Ok (acquired, (w1, sc))
    /\ (status = VK_ERROR_OUT_OF_DATE_KHR ->
        LveRenderer.beginFrame (w, r)
        = (LveRenderer.recreateSwapChain ;;; ret VK_NULL_HANDLE) (w1, r))
    /\ (status <> VK_ERROR_OUT_OF_DATE_KHR -> status <> VK_SUCCESS ->
        status <> VK_SUBOPTIMAL_KHR ->
        LveRenderer.beginFrame (w, r)
        = Fail (RuntimeError "failed to acquire swap chain image!"))
    /\ (status = VK_SUCCESS \/ status = VK_SUBOPTIMAL_KHR ->
        forall commandBuffer,
          nth_Z (LveRenderer.commandBuffers r) (LveRenderer.currentFrameIndex r)
          = Some commandBuffer ->
          let opened :=
            LveRenderer.set_isFrameStarted true
              (LveRenderer.set_currentImageIndex (wrap32 (drvImageIndex (driver w) tick)) r) in
          LveRenderer.beginFrame (w, r)
          = if drvResult (driver w) (S tick) =? VK_SUCCESS
            then Ok (commandBuffer, (ticked (VkBeginCommandBuffer commandBuffer) w1, opened))
            else Fail (RuntimeError "failed to begin recording command buffer!")).
Proof.
  intros Hinv Hsc Hidle tick status.
  destruct (acquireNextImage_sync w sc Hinv)
    as (fence & semaphore & w1 & _ & _ & Hacq & Hcalls & Hdriver & _).
  cbv zeta in Hacq. fold tick in Hacq. fold status in Hacq.
  eexists _, w1. split; [exact Hacq|].
  assert (Hstart : forall (k : VkResult * option Z -> M (World * LveRenderer.t) handle),
            (self <- LveRenderer.this ;;
             assert (negb (LveRenderer.isFrameStarted self))
                    "Can't call beginFrame while already in progress" ;;;
             acquired <- LveRenderer.onSwapChain LveSwapChain.acquireNextImage ;;
             k acquired)%m (w, r)
            = k (status,
                 if (status =? VK_SUCCESS) || (status =? VK_SUBOPTIMAL_KHR)
                 then Some (wrap32 (drvImageIndex (driver w) tick)) else None) (w1, r)).
  { intros k. unfold bind at 1. cbn [LveRenderer.this bind get ret fst snd].
    rewrite Hidle. unfold bind at 1. cbn [negb assert ret].
    unfold bind at 1. unfold LveRenderer.onSwapChain. cbn [fst snd].
    rewrite Hsc, Hacq. rewrite (set_lveSwapChain_same r sc Hsc). reflexivity. }
  unfold LveRenderer.beginFrame. rewrite Hstart. clear Hstart. cbn [fst snd].
  split; [|split].
  - intros Hstatus. rewrite Hstatus. cbn [Z.eqb orb VK_ERROR_OUT_OF_DATE_KHR VK_SUCCESS
                                          VK_SUBOPTIMAL_KHR Pos.eqb].
    unfold bind at 1. cbn [ret]. reflexivity.
  - intros Hood Hsuccess Hsub.
    apply Z.eqb_neq in Hood, Hsuccess, Hsub. rewrite Hsuccess, Hsub. cbn [orb].
    unfold bind at 1. cbn [ret]. rewrite Hood. cbn [negb andb]. reflexivity.
  - intros Hgood commandBuffer Hbuffer.
    set (opened := LveRenderer.set_isFrameStarted true
                     (LveRenderer.set_currentImageIndex
                        (wrap32 (drvImageIndex (driver w) tick)) r)).
    assert (Hok : (status =? VK_SUCCESS) || (status =? VK_SUBOPTIMAL_KHR) = true).
    { destruct Hgood as [-> | ->]; reflexivity. }
    assert (Hood : (status =? VK_ERROR_OUT_OF_DATE_KHR) = false).
    { destruct Hgood as [-> | ->]; reflexivity. }
    assert (Hbad : negb (status =? VK_SUCCESS) && negb (status =? VK_SUBOPTIMAL_KHR) = false).
    { destruct Hgood as [-> | ->]; reflexivity. }
    rewrite Hok. unfold bind at 1. cbn [LveRenderer.update modify fst snd].
    rewrite Hood, Hbad.
    unfold bind at 1. cbn [LveRenderer.update modify fst snd]. fold opened.
    assert (Hcurrent : LveRenderer.getCurrentCommandBuffer (w1, opened)
                       = Ok (commandBuffer, (w1, opened))).
    { apply getCurrentCommandBuffer_open; [reflexivity|]. destruct r. exact Hbuffer. }
    unfold bind at 1. rewrite Hcurrent.
    unfold bind at 1. unfold onFst at 1. cbn [fst snd].
    unfold callResult, bind, call, get, ret. cbn [driver ticked set_fences set_calls].
    rewrite Hdriver, Hcalls, length_app. cbn [length].
    replace (length (calls w) + 2)%nat with (S tick) by (unfold tick; lia).
    destruct (drvResult (driver w) (S tick) =? VK_SUCCESS); reflexivity.
Qed.

Lemma renderer_stays_after_recreation (w : World) (r : LveRenderer.t) (old : LveSwapChain.t)
    (w' : World) (r' : LveRenderer.t) (u : unit) :
  LveRenderer.lveSwapChain r = Some old ->
  LveRenderer.recreateSwapChain (w, r) = Ok (u, (w', r')) ->
  LveRenderer.currentFrameIndex r' = LveRenderer.currentFrameIndex r
  /\ LveRenderer.currentImageIndex r' = LveRenderer.currentImageIndex r
  /\ LveRenderer.commandBuffers r' = LveRenderer.commandBuffers r
  /\ LveRenderer.isFrameStarted r' = LveRenderer.isFrameStarted r.
Proof.
  intros Hold H. apply (recreateSwapChain_Ok _ _ _ _ _ Hold) in H as (created & Hs & _).
  cbn [snd] in Hs. subst r'. destruct r. cbn. auto.
Qed.

(** X11.  endFrame in an open frame.  When vkEndCommandBuffer fails it
    throws "failed to record command buffer!" and submits nothing.
    Otherwise it submits and presents; with the status [present] that
    comes back, it recreates the swap chain, after clearing the resize flag
    of the window, when the status is VK_ERROR_OUT_OF_DATE_KHR or
    VK_SUBOPTIMAL_KHR or the window was resized, whatever the status then
    is; when none of these holds it throws
    "failed to present swap chain image!" unless the status is VK_SUCCESS.
    When it returns the frame is closed and the frame index has advanced. *)
Theorem endFrame_by_present_status
    (w : World) (r : LveRenderer.t) (sc : LveSwapChain.t) (commandBuffer : handle) :
  LveRenderer.isFrameStarted r = true ->
  LveRenderer.lveSwapChain r = Some sc ->
  nth_Z (LveRenderer.commandBuffers r) (LveRenderer.currentFrameIndex r)
  = Some commandBuffer ->
  LveRenderer.currentFrameIndex r = 0 \/ LveRenderer.currentFrameIndex r = 1 ->
  let ended := drvResult (driver w) (length (calls w)) in
  let closed := fun r' =>
    LveRenderer.set_currentFrameIndex
      ((LveRenderer.currentFrameIndex r + 1) mod 2)
      (LveRenderer.set_isFrameStarted false r') in
  (ended <> VK_SUCCESS ->
   LveRenderer.endFrame (w, r) = Fail (RuntimeError "failed to record command buffer!"))
  /\ (ended = VK_SUCCESS ->
      forall present w2 sc2,
        LveSwapChain.submitCommandBuffers
          commandBuffer (LveRenderer.currentImageIndex r)
          (ticked (VkEndCommandBuffer commandBuffer) w, sc)
        = Ok (present, (w2, sc2)) ->
        let presented := LveRenderer.set_lveSwapChain (Some sc2) r in
        LveRenderer.endFrame (w, r)
        = if endFrameRecreates present w2
          then match LveRenderer.recreateSwapChain
                       (set_window LveWindow.resetWindowResizedFlag w2, presented) with
               | Ok (_, (w3, r3)) => Ok (tt, (w3, closed r3))
               | Fail f => Fail f
               end
          else if present =? VK_SUCCESS
               then Ok (tt, (w2, closed presented))
               else Fail (RuntimeError "failed to present swap chain image!")).
Proof.
  intros Hopen Hsc Hbuffer Hindex ended closed.
  assert (Hnext : forall k : Z, k = 0 \/ k = 1 ->
            forall St (s : St), @LveRenderer.nextFrameIndex St k s = Ok ((k + 1) mod 2, s)).
  { intros k [-> | ->] St s; reflexivity. }
  split.
  - intros Hended. unfold LveRenderer.endFrame.
    unfold bind at 1. cbn [LveRenderer.this bind get ret fst snd].
    rewrite Hopen. unfold bind at 1. cbn [assert ret].
    unfold bind at 1. rewrite (getCurrentCommandBuffer_open w r commandBuffer Hopen Hbuffer).
    unfold bind at 1. unfold onFst at 1. cbn [fst snd].
    unfold callResult at 1. unfold bind at 1. cbn [call].
    unfold bind at 1. cbn [get ret driver ticked set_fences set_calls]. fold ended.
    apply Z.eqb_neq in Hended. rewrite Hended. reflexivity.
  - intros Hended present w2 sc2 Hsubmit presented.
    unfold LveRenderer.endFrame.
    unfold bind at 1. cbn [LveRenderer.this bind get ret fst snd].
    rewrite Hopen. unfold bind at 1. cbn [assert ret].
    unfold bind at 1. rewrite (getCurrentCommandBuffer_open w r commandBuffer Hopen Hbuffer).
    unfold bind at 1. unfold onFst at 1. cbn [fst snd].
    unfold callResult at 1. unfold bind at 1. cbn [call].
    unfold bind at 1. cbn [get ret driver ticked set_fences set_calls]. fold ended.
    rewrite Hended. cbn [Z.eqb VK_SUCCESS negb].
    unfold bind at 1. unfold LveRenderer.onSwapChain at 1. cbn [fst snd].
    rewrite Hsc.
    change (set_fences _ (set_calls _ w)) with (ticked (VkEndCommandBuffer commandBuffer) w).
    rewrite Hsubmit. fold presented.
    unfold bind at 1. cbn [onFst get fst snd].
    unfold bind at 1. unfold endFrameRecreates.
    destruct ((present =? VK_ERROR_OUT_OF_DATE_KHR) || (present =? VK_SUBOPTIMAL_KHR)
              || LveWindow.wasWindowResized (window w2)).
    + unfold bind at 1. cbn [onFst modify fst snd].
      destruct (LveRenderer.recreateSwapChain
                  (set_window LveWindow.resetWindowResizedFlag w2, presented))
        as [[u [w3 r3]]|f] eqn:Hrecreate; [|reflexivity].
      apply renderer_stays_after_recreation with (old := sc2) in Hrecreate as (Hi & _);
        [|reflexivity].
      unfold bind at 1. cbn [LveRenderer.update modify fst snd].
      unfold bind at 1. cbn [LveRenderer.this bind get ret fst snd].
      unfold bind at 1.
      replace (LveRenderer.currentFrameIndex (LveRenderer.set_isFrameStarted false r3))
        with (LveRenderer.currentFrameIndex r)
        by (transitivity (LveRenderer.currentFrameIndex r3);
            [rewrite Hi; destruct r; reflexivity | destruct r3; reflexivity]).
      rewrite (Hnext _ Hindex). destruct u. reflexivity.
    + destruct (present =? VK_SUCCESS); cbn [negb]; [|reflexivity].
      cbn [ret]. unfold bind at 1. cbn [LveRenderer.update modify fst snd].
      unfold bind at 1. cbn [LveRenderer.this bind get ret fst snd].
      unfold bind at 1.
      replace (LveRenderer.currentFrameIndex (LveRenderer.set_isFrameStarted false presented))
        with (LveRenderer.currentFrameIndex r) by (destruct r; reflexivity).
      rewrite (Hnext _ Hindex). reflexivity.
Qed.

Lemma syncInvariant_fences (w w' : World) (sc : LveSwapChain.t) :
  fences w' = fences w -> syncInvariant w sc -> syncInvariant w' sc.
Proof.
  intros Hf (f0 & f1 & H). exists f0, f1.
  unfold signaledOrPending in *. rewrite Hf. exact H.
Qed.

(** The swap chain of a renderer just constructed has its synchronization
    objects in order. *)
Lemma renderer_new_sync (imageIndex frameIndex : Z) (frameStarted : bool)
    (w w' : World) (r : LveRenderer.t) :
  LveRenderer.new imageIndex frameIndex frameStarted w = Ok (r, w') ->
  exists sc, LveRenderer.lveSwapChain r = Some sc /\ syncInvariant w' sc.
Proof.
  unfold LveRenderer.new.
  destruct (bind LveRenderer.recreateSwapChain _ _) as [[u [w1 r1]]|f] eqn:Hrun;
    [|discriminate].
  intros [= <- <-].
  apply bind_Ok in Hrun as (u0 & [w2 r2] & Hrecreate & Hbuffers).
  apply recreateSwapChain_first in Hrecreate as (extent & w0 & created & Hnew & _ & _ & Hr2);
    [|reflexivity].
  cbn [fst snd] in Hnew, Hr2. subst r2.
  assert (Hinv : syncInvariant w2 created).
  { apply (syncInvariant_constructed extent None w0). right. auto. }
  unfold LveRenderer.createCommandBuffers in Hbuffers. cbv zeta in Hbuffers.
  apply bind_Ok in Hbuffers as (u1 & s & Hup & H). apply renderer_update_Ok in Hup as ->.
  apply bind_Ok in H as (self & s & Hthis & H). apply renderer_this_Ok in Hthis as [-> ->].
  apply bind_Ok in H as (result & s & Hcall & H).
  apply onFst_Ok in Hcall as (w3 & Hcall & ->). apply callResult_Ok in Hcall as [_ ->].
  destruct (negb (result =? VK_SUCCESS)); [discriminate H|].
  apply bind_Ok in H as (buffers & s & Hhandles & H).
  apply onFst_Ok in Hhandles as (w4 & Hhandles & ->).
  apply renderer_update_Ok in H as [= -> ->].
  apply newHandles_Ok in Hhandles as (_ & _ & _ & Hfences & _).
  exists created. split; [reflexivity|].
  apply (syncInvariant_fences _ _ _ Hfences), syncInvariant_ticked, Hinv.
Qed.

Lemma exampleRenderer_sync (resized : bool) :
  exists sc,
    LveRenderer.lveSwapChain (snd (exampleRenderer resized)) = Some sc
    /\ syncInvariant (fst (exampleRenderer resized)) sc.
Proof.
  unfold exampleRenderer.
  destruct (LveRenderer.new 0 0 false (exampleWorld (fun _ => VK_SUCCESS) resized))
    as [[r w']|f] eqn:Hnew.
  - exact (renderer_new_sync _ _ _ _ _ _ Hnew).
  - destruct resized; vm_compute in Hnew; discriminate Hnew.
Qed.

(** The first beginFrame of a renderer just constructed opens a frame on
    command buffer 27. *)
Lemma beginFrame_witness :
  exists s1,
    LveRenderer.beginFrame (fst (exampleRenderer false), snd (exampleRenderer false))
    = Ok (27%N, s1)
    /\ LveRenderer.isFrameStarted (snd s1) = true.
Proof.
  destruct (exampleRenderer_sync false) as (sc & Hsc & Hinv).
  destruct (beginFrame_by_acquisition_status
              (fst (exampleRenderer false)) (snd (exampleRenderer false)) sc Hinv Hsc
              ltac:(vm_compute; reflexivity))
    as (acquired & w1 & _ & _ & _ & Hgood).
  specialize (Hgood ltac:(left; vm_compute; reflexivity) 27%N ltac:(vm_compute; reflexivity)).
  cbv zeta in Hgood.
  assert (Hbegan : (drvResult (driver (fst (exampleRenderer false)))
                              (S (S (length (calls (fst (exampleRenderer false))))))
                    =? VK_SUCCESS) = true) by (vm_compute; reflexivity).
  rewrite Hbegan in Hgood.
  eexists. split; [exact Hgood | reflexivity].
Defined.

(** The end of the first frame of a renderer whose recording cannot be
    ended: the driver fails the call that follows the beginning of the
    frame. *)
Lemma endFrame_witness :
  LveRenderer.endFrame (fst recordingFails, snd recordingFails)
  = Fail (RuntimeError "failed to record command buffer!").
Proof.
  destruct (LveRenderer.lveSwapChain (snd recordingFails)) as [sc|] eqn:Hsc;
    [|vm_compute in Hsc; discriminate Hsc].
  apply (proj1 (endFrame_by_present_status
                  (fst recordingFails) (snd recordingFails) sc 27%N
                  ltac:(vm_compute; reflexivity) Hsc
                  ltac:(vm_compute; reflexivity) ltac:(left; vm_compute; reflexivity))).
  vm_compute. discriminate.
Defined.

(** *** Choosing the physical device *)

Lemma wrap32_small (i : Z) : 0 <= i <= INT_MAX -> wrap32 i = i.
Proof. intros H. unfold wrap32. apply Z.mod_small. unfold INT_MAX in H. lia. Qed.

Lemma capable_in_range (device : LvePhysicalDevice.t) (i : Z)
    (queueFamily : LvePhysicalDevice.VkQueueFamilyProperties) :
  nth_Z (LvePhysicalDevice.queueFamilies device) i = Some queueFamily ->
  0 <= i < Z.of_nat (length (LvePhysicalDevice.queueFamilies device)).
Proof.
  intros H. apply nth_Z_lookup in H as [Hi Hlook]. apply lookup_lt_Some in Hlook. lia.
Qed.

Lemma graphicsCapable_here (device : LvePhysicalDevice.t) (i : Z)
    (queueFamily : LvePhysicalDevice.VkQueueFamilyProperties) :
  nth_Z (LvePhysicalDevice.queueFamilies device) i = Some queueFamily ->
  (LvePhysicalDevice.queueCount queueFamily >? 0)
  && negb (Z.land (LvePhysicalDevice.queueFlags queueFamily)
                  LvePhysicalDevice.VK_QUEUE_GRAPHICS_BIT =? 0) = true
  <-> graphicsCapable device i.
Proof.
  intros Hhere. unfold graphicsCapable.
  rewrite andb_true_iff, negb_true_iff, Z.eqb_neq, Z.gtb_lt. split.
  - intros [Hcount Hflags]. exists queueFamily. split; [exact Hhere|]. split; [lia | exact Hflags].
  - intros (q & Hq & Hcount & Hflags). rewrite Hhere in Hq. injection Hq as <-.
    split; [lia | exact Hflags].
Qed.

Lemma presentCapable_here (device : LvePhysicalDevice.t) (i : Z)
    (queueFamily : LvePhysicalDevice.VkQueueFamilyProperties) :
  nth_Z (LvePhysicalDevice.queueFamilies device) i = Some queueFamily ->
  (LvePhysicalDevice.queueCount queueFamily >? 0)
  && LvePhysicalDevice.presentSupport device i = true
  <-> presentCapable device i.
Proof.
  intros Hhere. unfold presentCapable. rewrite andb_true_iff, Z.gtb_lt. split.
  - intros [Hcount Hsupport]. exists queueFamily. split; [exact Hhere|]. split; [lia | exact Hsupport].
  - intros (q & Hq & Hcount & Hsupport). rewrite Hhere in Hq. injection Hq as <-.
    split; [lia | exact Hsupport].
Qed.

(** One turn of the loop keeps what it knows. *)
Lemma noteQueueFamily_found (device : LvePhysicalDevice.t) (i : Z)
    (queueFamily : LvePhysicalDevice.VkQueueFamilyProperties) (indices : QueueFamilyIndices) :
  0 <= i <= INT_MAX ->
  nth_Z (LvePhysicalDevice.queueFamilies device) i = Some queueFamily ->
  foundSoFar device i indices ->
  foundSoFar device (i + 1) (LvePhysicalDevice.noteQueueFamily device i queueFamily indices).
Proof.
  intros Hi Hhere (Hg & Hp & Hng & Hnp).
  pose proof (graphicsCapable_here device i queueFamily Hhere) as Hgraphics.
  pose proof (presentCapable_here device i queueFamily Hhere) as Hpresent.
  unfold LvePhysicalDevice.noteQueueFamily.
  assert (Hnot : forall (P : Z -> Prop), (forall j, j < i -> ~ P j) -> ~ P i ->
                                         forall j, j < i + 1 -> ~ P j).
  { intros P Hbelow Hat j Hj. destruct (decide (j = i)) as [-> | ?]; [exact Hat|].
    apply Hbelow. lia. }
  destruct ((LvePhysicalDevice.queueCount queueFamily >? 0) && negb _) eqn:Egraphics;
    destruct ((LvePhysicalDevice.queueCount queueFamily >? 0)
              && LvePhysicalDevice.presentSupport device i) eqn:Epresent;
    cbn [graphicsFamily presentFamily graphicsFamilyHasValue presentFamilyHasValue];
    rewrite ?(wrap32_small i Hi); (split; [|split; [|split]]).
  all: try (intros _; apply Hgraphics; reflexivity).
  all: try (intros _; apply Hpresent; reflexivity).
  all: try discriminate.
  all: try assumption.
  all: intros Hnone; apply Hnot; [auto|].
  all: intros Hcap; first [apply Hgraphics in Hcap | apply Hpresent in Hcap]; discriminate Hcap.
Qed.

Lemma findQueueFamilies_from_run {St} (device : LvePhysicalDevice.t)
    (families : list LvePhysicalDevice.VkQueueFamilyProperties) (i : nat)
    (indices : QueueFamilyIndices) (s : St) :
  families = drop i (LvePhysicalDevice.queueFamilies device) ->
  (i <= length (LvePhysicalDevice.queueFamilies device))%nat ->
  fewQueueFamilies device ->
  foundSoFar device (Z.of_nat i) indices ->
  exists indices' stop,
    LvePhysicalDevice.findQueueFamilies_from device families (Z.of_nat i) indices s
    = Ok (indices', s)
    /\ foundSoFar device stop indices'
    /\ (LvePhysicalDevice.isComplete indices' = false ->
        stop = Z.of_nat (length (LvePhysicalDevice.queueFamilies device))).
Proof.
  revert i indices.
  induction families as [|queueFamily rest IH]; intros i indices Hdrop Hi Hfew Hfound.
  - exists indices, (Z.of_nat i). cbn. split; [reflexivity|]. split; [exact Hfound|].
    intros _. symmetry in Hdrop. apply drop_nil_inv in Hdrop. lia.
  - assert (Hhere : LvePhysicalDevice.queueFamilies device !! i = Some queueFamily).
    { rewrite <- (Nat.add_0_r i), <- lookup_drop, <- Hdrop. reflexivity. }
    assert (Hrest : rest = drop (S i) (LvePhysicalDevice.queueFamilies device)).
    { rewrite (drop_S _ _ _ Hhere) in Hdrop. injection Hdrop as ->. reflexivity. }
    apply lookup_lt_Some in Hhere as Hlt.
    unfold fewQueueFamilies in Hfew.
    assert (Hnth : nth_Z (LvePhysicalDevice.queueFamilies device) (Z.of_nat i)
                   = Some queueFamily).
    { unfold nth_Z. destruct (Z.of_nat i <? 0) eqn:E; [lia|]. rewrite Nat2Z.id. exact Hhere. }
    pose proof (noteQueueFamily_found device (Z.of_nat i) queueFamily indices
                  ltac:(lia) Hnth Hfound) as Hnext.
    cbn [LvePhysicalDevice.findQueueFamilies_from]. cbv zeta.
    destruct (LvePhysicalDevice.isComplete
                (LvePhysicalDevice.noteQueueFamily device (Z.of_nat i) queueFamily indices))
      eqn:Ecomplete.
    + eexists _, (Z.of_nat i + 1). split; [reflexivity|]. split; [exact Hnext|].
      rewrite Ecomplete. discriminate.
    + destruct (Z.of_nat i + 1 >? INT_MAX) eqn:Eover; [lia|].
      replace (Z.of_nat i + 1) with (Z.of_nat (S i)) in * by lia.
      apply (IH (S i) _ Hrest ltac:(lia) Hfew Hnext).
Qed.

Lemma capable_within (device : LvePhysicalDevice.t) (P : Z -> Prop) :
  (forall j, P j -> exists q, nth_Z (LvePhysicalDevice.queueFamilies device) j = Some q) ->
  (forall j, j < Z.of_nat (length (LvePhysicalDevice.queueFamilies device)) -> ~ P j) ->
  forall j, ~ P j.
Proof.
  intros Hrange Hbelow j Hj. destruct (Hrange j Hj) as [q Hq].
  apply capable_in_range in Hq. apply (Hbelow j); [lia | exact Hj].
Qed.

(** The queue families that findQueueFamilies finds. *)
Lemma findQueueFamilies_run {St} (graphics0 present0 : Z) (device : LvePhysicalDevice.t)
    (s : St) :
  fewQueueFamilies device ->
  exists indices,
    LvePhysicalDevice.findQueueFamilies graphics0 present0 device s = Ok (indices, s)
    /\ (graphicsFamilyHasValue indices = true ->
        graphicsCapable device (graphicsFamily indices))
    /\ (presentFamilyHasValue indices = true ->
        presentCapable device (presentFamily indices))
    /\ (graphicsFamilyHasValue indices = false -> forall j, ~ graphicsCapable device j)
    /\ (presentFamilyHasValue indices = false -> forall j, ~ presentCapable device j).
Proof.
  intros Hfew. unfold LvePhysicalDevice.findQueueFamilies.
  destruct (findQueueFamilies_from_run device (LvePhysicalDevice.queueFamilies device) 0
              {| graphicsFamily := graphics0; presentFamily := present0;
                 graphicsFamilyHasValue := false; presentFamilyHasValue := false |} s
              eq_refl ltac:(lia) Hfew)
    as (indices & stop & Hrun & (Hg & Hp & Hng & Hnp) & Hstop).
  { split; [discriminate|]. split; [discriminate|].
    split; intros _ j Hj (q & Hq & _); apply capable_in_range in Hq; lia. }
  exists indices. split; [exact Hrun|]. split; [exact Hg|]. split; [exact Hp|].
  split.
  - intros Hnone. apply (capable_within device).
    + intros j (q & Hq & _). eauto.
    + rewrite <- Hstop; [exact (Hng Hnone)|].
      unfold LvePhysicalDevice.isComplete. rewrite Hnone. reflexivity.
  - intros Hnone. apply (capable_within device).
    + intros j (q & Hq & _). eauto.
    + rewrite <- Hstop; [exact (Hnp Hnone)|].
      unfold LvePhysicalDevice.isComplete. rewrite Hnone. apply andb_false_r.
Qed.

(** X12.  Of a device with no more queue families than an int counts,
    findQueueFamilies finds both families exactly when the device has a
    family with queues that does graphics and a family with queues that
    can present to the surface; an index it reports as found is the index
    of such a family; and when it reports a kind as not found the device
    has no family of that kind. *)
Theorem findQueueFamilies_complete_iff_capable {St}
    (graphics0 present0 : Z) (device : LvePhysicalDevice.t) (s : St) :
  fewQueueFamilies device ->
  exists indices,
    LvePhysicalDevice.findQueueFamilies graphics0 present0 device s = Ok (indices, s)
    /\ (LvePhysicalDevice.isComplete indices = true
        <-> (exists i, graphicsCapable device i) /\ (exists j, presentCapable device j))
    /\ (graphicsFamilyHasValue indices = true ->
        graphicsCapable device (graphicsFamily indices))
    /\ (presentFamilyHasValue indices = true ->
        presentCapable device (presentFamily indices))
    /\ (graphicsFamilyHasValue indices = false -> forall j, ~ graphicsCapable device j)
    /\ (presentFamilyHasValue indices = false -> forall j, ~ presentCapable device j).
Proof.
  intros Hfew.
  destruct (findQueueFamilies_run graphics0 present0 device s Hfew)
    as (indices & Hrun & Hg & Hp & Hng & Hnp).
  exists indices. split; [exact Hrun|]. split; [|auto].
  unfold LvePhysicalDevice.isComplete. rewrite andb_true_iff. split.
  - intros [Hgh Hph]. split; eauto.
  - intros [[i Hi] [j Hj]]. split.
    + destruct (graphicsFamilyHasValue indices); [reflexivity|].
      exfalso. apply (Hng eq_refl i Hi).
    + destruct (presentFamilyHasValue indices); [reflexivity|].
      exfalso. apply (Hnp eq_refl j Hj).
Qed.

Lemma findQueueFamilies_witness :
  LvePhysicalDevice.findQueueFamilies 99 99 exampleGpu tt
  = Ok ({| graphicsFamily := 0; presentFamily := 1;
           graphicsFamilyHasValue := true; presentFamilyHasValue := true |}, tt)
  /\ graphicsCapable exampleGpu 0 /\ presentCapable exampleGpu 1.
Proof.
  destruct (findQueueFamilies_complete_iff_capable 99 99 exampleGpu tt
              ltac:(vm_compute; discriminate))
    as (indices & Hrun & _ & Hg & Hp & _).
  assert (Hindices : indices = {| graphicsFamily := 0; presentFamily := 1;
                                  graphicsFamilyHasValue := true;
                                  presentFamilyHasValue := true |})
    by (vm_compute in Hrun; congruence).
  subst indices. split; [exact Hrun|]. split; [exact (Hg eq_refl) | exact (Hp eq_refl)].
Defined.

Lemma erase_all (required : gset string) (available : list string) :
  foldl (fun required extensionName => required ∖ {[ extensionName ]}) required available
  = required ∖ list_to_set available.
Proof.
  revert required. induction available as [|name available IH]; intros required; simpl.
  - rewrite difference_empty_L. reflexivity.
  - rewrite IH, difference_difference_l_L. reflexivity.
Qed.

(** X13.  checkDeviceExtensionSupport holds exactly when every required
    device extension is among those the device reports, in any order and
    with any others beside: when the device reports "VK_KHR_swapchain". *)
Theorem checkDeviceExtensionSupport_iff_all_available (device : LvePhysicalDevice.t) :
  (LvePhysicalDevice.checkDeviceExtensionSupport device = true
   <-> forall name, name ∈ LvePhysicalDevice.deviceExtensions ->
                    name ∈ LvePhysicalDevice.availableExtensions device)
  /\ (LvePhysicalDevice.checkDeviceExtensionSupport device = true
      <-> "VK_KHR_swapchain" ∈ LvePhysicalDevice.availableExtensions device).
Proof.
  assert (H : LvePhysicalDevice.checkDeviceExtensionSupport device = true
              <-> forall name, name ∈ LvePhysicalDevice.deviceExtensions ->
                               name ∈ LvePhysicalDevice.availableExtensions device).
  { unfold LvePhysicalDevice.checkDeviceExtensionSupport. cbv zeta.
    rewrite erase_all, bool_decide_eq_true. split.
    - intros Hempty name Hname.
      destruct (decide (name ∈ LvePhysicalDevice.availableExtensions device)) as [|Hnot];
        [assumption|].
      exfalso. apply (not_elem_of_empty (C := gset string) name). rewrite <- Hempty.
      apply elem_of_difference. split; [apply elem_of_list_to_set, Hname|].
      rewrite elem_of_list_to_set. exact Hnot.
    - intros Hall. apply set_eq. intros name. rewrite elem_of_difference, !elem_of_list_to_set.
      split; [|intros Hin; exfalso; exact (not_elem_of_empty name Hin)].
      intros [Hname Hnot]. exfalso. apply Hnot, Hall, Hname. }
  split; [exact H|]. rewrite H. unfold LvePhysicalDevice.deviceExtensions. split.
  - intros Hall. apply Hall. left.
  - intros Hin name Hname. apply list_elem_of_singleton in Hname as ->. exact Hin.
Qed.

Lemma checkDeviceExtensionSupport_witness :
  LvePhysicalDevice.checkDeviceExtensionSupport exampleGpu = true.
Proof.
  apply (proj2 (checkDeviceExtensionSupport_iff_all_available exampleGpu)).
  apply list_elem_of_further, list_elem_of_here.
Defined.

Lemma checkDeviceExtensionSupport_swapchain (device : LvePhysicalDevice.t) :
  LvePhysicalDevice.checkDeviceExtensionSupport device = true
  <-> "VK_KHR_swapchain" ∈ LvePhysicalDevice.availableExtensions device.
Proof.
  unfold LvePhysicalDevice.checkDeviceExtensionSupport. cbv zeta.
  rewrite erase_all, bool_decide_eq_true. unfold LvePhysicalDevice.deviceExtensions. split.
  - intros Hempty.
    destruct (decide ("VK_KHR_swapchain" ∈ LvePhysicalDevice.availableExtensions device))
      as [|Hnot]; [assumption|].
    exfalso. apply (not_elem_of_empty (C := gset string) "VK_KHR_swapchain").
    rewrite <- Hempty. apply elem_of_difference.
    rewrite !elem_of_list_to_set. split; [left | exact Hnot].
  - intros Hin. apply set_eq. intros name.
    rewrite elem_of_difference, !elem_of_list_to_set.
    split; [|intros Hempty; exfalso; exact (not_elem_of_empty name Hempty)].
    intros [Hname Hnot]. apply list_elem_of_singleton in Hname as ->. contradiction.
Qed.

(** isDeviceSuitable in terms of what the device reports. *)
Lemma isDeviceSuitable_run {St} (graphics0 present0 : Z) (device : LvePhysicalDevice.t)
    (s : St) :
  fewQueueFamilies device ->
  exists suitable,
    LvePhysicalDevice.isDeviceSuitable graphics0 present0 device s = Ok (suitable, s)
    /\ (suitable = true <-> suitableDevice device).
Proof.
  intros Hfew. unfold LvePhysicalDevice.isDeviceSuitable. unfold bind.
  destruct (findQueueFamilies_run graphics0 present0 device s Hfew)
    as (indices & -> & Hg & Hp & Hng & Hnp).
  eexists. split; [reflexivity|]. cbv zeta.
  unfold suitableDevice. rewrite <- checkDeviceExtensionSupport_swapchain.
  destruct (LvePhysicalDevice.checkDeviceExtensionSupport device).
  - rewrite !andb_true_iff, !negb_true_iff, !bool_decide_eq_false.
    unfold LvePhysicalDevice.isComplete. rewrite andb_true_iff. split.
    + intros ((([Hgh Hph] & _) & Hf & Hm) & Ha). repeat split; eauto.
    + intros ([i Hi] & [j Hj] & _ & Hf & Hm & Ha). repeat split; try assumption.
      * destruct (graphicsFamilyHasValue indices); [reflexivity|].
        exfalso. apply (Hng eq_refl i Hi).
      * destruct (presentFamilyHasValue indices); [reflexivity|].
        exfalso. apply (Hnp eq_refl j Hj).
  - rewrite andb_false_r. cbn [andb]. split; [discriminate|].
    intros (_ & _ & Hext & _). discriminate Hext.
Qed.

(** X14.  isDeviceSuitable accepts a device exactly when it has a queue
    family for graphics and one that presents to the surface, reports the
    swap chain extension, at least one surface format and at least one
    present mode, and supports anisotropic sampling. *)
Theorem isDeviceSuitable_iff_requirements {St}
    (graphics0 present0 : Z) (device : LvePhysicalDevice.t) (s : St) :
  fewQueueFamilies device ->
  (suitableDevice device ->
   LvePhysicalDevice.isDeviceSuitable graphics0 present0 device s = Ok (true, s))
  /\ (~ suitableDevice device ->
      LvePhysicalDevice.isDeviceSuitable graphics0 present0 device s = Ok (false, s)).
Proof.
  intros Hfew.
  destruct (isDeviceSuitable_run graphics0 present0 device s Hfew) as (suitable & -> & Hiff).
  split.
  - intros H. apply Hiff in H as ->. reflexivity.
  - intros H. destruct suitable; [|reflexivity]. exfalso. apply H, Hiff. reflexivity.
Qed.

Lemma exampleGpu_suitable : suitableDevice exampleGpu.
Proof.
  unfold suitableDevice. split; [|split; [|split; [|split; [|split]]]].
  - exists 0. eexists. split; [reflexivity|]. split; [reflexivity | discriminate].
  - exists 1. eexists. split; [reflexivity|]. split; reflexivity.
  - right. left.
  - discriminate.
  - discriminate.
  - reflexivity.
Qed.

Lemma headlessGpu_unsuitable : ~ suitableDevice headlessGpu.
Proof.
  intros (_ & _ & Hext & _). apply list_elem_of_singleton in Hext. discriminate Hext.
Qed.

Lemma isDeviceSuitable_witness :
  LvePhysicalDevice.isDeviceSuitable 99 99 exampleGpu tt = Ok (true, tt)
  /\ LvePhysicalDevice.isDeviceSuitable 99 99 headlessGpu tt = Ok (false, tt).
Proof.
  split.
  - apply (proj1 (isDeviceSuitable_iff_requirements 99 99 exampleGpu tt
                    ltac:(vm_compute; discriminate))), exampleGpu_suitable.
  - apply (proj2 (isDeviceSuitable_iff_requirements 99 99 headlessGpu tt
                    ltac:(vm_compute; discriminate))), headlessGpu_unsuitable.
Defined.

Lemma firstSuitable_run {St} (graphics0 present0 : Z) (devices : list LvePhysicalDevice.t)
    (s : St) :
  Forall fewQueueFamilies devices ->
  exists chosen,
    LvePhysicalDevice.firstSuitable graphics0 present0 devices s = Ok (chosen, s)
    /\ match chosen with
       | Some device =>
           exists before after,
             devices = before ++ device :: after
             /\ Forall (fun d => ~ suitableDevice d) before
             /\ suitableDevice device
       | None => Forall (fun d => ~ suitableDevice d) devices
       end.
Proof.
  induction 1 as [|device devices Hfew _ IH]; simpl.
  - exists None. split; [reflexivity | constructor].
  - unfold bind.
    destruct (isDeviceSuitable_run graphics0 present0 device s Hfew)
      as (suitable & -> & Hiff).
    destruct suitable.
    + exists (Some device). split; [reflexivity|]. exists [], devices.
      split; [reflexivity|]. split; [constructor | apply Hiff; reflexivity].
    + assert (Hnot : ~ suitableDevice device).
      { intros Hs. apply Hiff in Hs. discriminate Hs. }
      destruct IH as (chosen & -> & Hchosen). exists chosen. split; [reflexivity|].
      destruct chosen as [d|].
      * destruct Hchosen as (before & after & -> & Hbefore & Hd).
        exists (device :: before), after. split; [reflexivity|].
        split; [constructor; assumption | exact Hd].
      * constructor; assumption.
Qed.

(** X15.  pickPhysicalDevice, given fewer than 2^32 devices, each with no
    more queue families than an int counts and none with a null handle:
    it throws "failed to find GPUs with Vulkan support!" when there is no
    device, and "failed to find a suitable GPU!" when no device is
    suitable; otherwise it picks the first suitable device in the order of
    the enumeration, having printed the number of devices, and prints its
    name. *)
Theorem pickPhysicalDevice_first_suitable
    (graphics0 present0 : Z) (devices : list LvePhysicalDevice.t) (w : World) :
  Z.of_nat (length devices) < 2 ^ 32 ->
  Forall fewQueueFamilies devices ->
  Forall (fun d => LvePhysicalDevice.physicalDevice d <> VK_NULL_HANDLE) devices ->
  (devices = [] ->
   LvePhysicalDevice.pickPhysicalDevice graphics0 present0 devices w
   = Fail (RuntimeError "failed to find GPUs with Vulkan support!"))
  /\ (devices <> [] -> Forall (fun d => ~ suitableDevice d) devices ->
      LvePhysicalDevice.pickPhysicalDevice graphics0 present0 devices w
      = Fail (RuntimeError "failed to find a suitable GPU!"))
  /\ (forall before device after,
        devices = before ++ device :: after ->
        Forall (fun d => ~ suitableDevice d) before ->
        suitableDevice device ->
        LvePhysicalDevice.pickPhysicalDevice graphics0 present0 devices w
        = Ok (device,
              ticked (StdCout ("physical device: " +:+ LvePhysicalDevice.deviceName device))
                (ticked (StdCout ("Device count: "
                                  +:+ pretty (Z.of_nat (length devices)))) w))).
Proof.
  intros Hcount Hfew Hhandles.
  assert (Hwrap : wrap32 (Z.of_nat (length devices)) = Z.of_nat (length devices)).
  { unfold wrap32. apply Z.mod_small. lia. }
  unfold LvePhysicalDevice.pickPhysicalDevice. cbv zeta. rewrite Hwrap.
  split; [|split].
  - intros ->. reflexivity.
  - intros Hsome Hnone. destruct devices as [|d devices]; [contradiction|].
    cbn [length]. destruct (Z.of_nat (S (length devices)) =? 0) eqn:E;
      [apply Z.eqb_eq in E; lia|].
    unfold bind at 1. cbn [call]. unfold bind at 1.
    destruct (firstSuitable_run graphics0 present0 (d :: devices)
                (ticked (StdCout ("Device count: "
                                  +:+ pretty (Z.of_nat (S (length devices))))) w) Hfew)
      as (chosen & -> & Hchosen).
    destruct chosen as [device|]; [|reflexivity].
    exfalso. destruct Hchosen as (before & after & Hsplit & _ & Hsuitable).
    apply (proj1 (Forall_forall _ _) Hnone device); [|exact Hsuitable].
    rewrite Hsplit. apply elem_of_app. right. left.
  - intros before device after Hsplit Hbefore Hsuitable.
    destruct (Z.of_nat (length devices) =? 0) eqn:E.
    { apply Z.eqb_eq in E. rewrite Hsplit, length_app in E. cbn [length] in E. lia. }
    unfold bind at 1. cbn [call]. unfold bind at 1.
    destruct (firstSuitable_run graphics0 present0 devices
                (ticked (StdCout ("Device count: "
                                  +:+ pretty (Z.of_nat (length devices)))) w) Hfew)
      as (chosen & -> & Hchosen).
    destruct chosen as [device'|].
    + destruct Hchosen as (before' & after' & Hsplit' & Hbefore' & Hsuitable').
      assert (Hsame : before' = before /\ device' = device).
      { rewrite Hsplit in Hsplit'. clear - Hsplit' Hbefore Hbefore' Hsuitable Hsuitable'.
        revert before' Hsplit' Hbefore'.
        induction before as [|b before IH]; intros [|b' before'] Hsplit' Hbefore'.
        - injection Hsplit' as -> _. auto.
        - injection Hsplit' as -> _. apply Forall_cons in Hbefore' as [Hnot _]. contradiction.
        - injection Hsplit' as <- _. apply Forall_cons in Hbefore as [Hnot _]. contradiction.
        - injection Hsplit' as -> Hrest.
          apply Forall_cons in Hbefore as [_ Hbefore].
          apply Forall_cons in Hbefore' as [_ Hbefore'].
          destruct (IH Hbefore before' Hrest Hbefore') as [-> ->]. auto. }
      destruct Hsame as [-> ->].
      assert (Hhandle : LvePhysicalDevice.physicalDevice device <> VK_NULL_HANDLE).
      { apply (proj1 (Forall_forall _ _) Hhandles). rewrite Hsplit.
        apply elem_of_app. right. left. }
      apply N.eqb_neq in Hhandle. rewrite Hhandle. reflexivity.
    + exfalso. apply (proj1 (Forall_forall _ _) Hchosen device); [|exact Hsuitable].
      rewrite Hsplit. apply elem_of_app. right. left.
Qed.

Lemma pickPhysicalDevice_witness :
  exists w',
    LvePhysicalDevice.pickPhysicalDevice 99 99 [headlessGpu; exampleGpu] calmWorld
    = Ok (exampleGpu, w')
    /\ calls w' = [StdCout "Device count: 2"; StdCout "physical device: gpu"].
Proof.
  eexists. split.
  - apply (proj2 (proj2 (pickPhysicalDevice_first_suitable
                           99 99 [headlessGpu; exampleGpu] calmWorld
                           ltac:(vm_compute; reflexivity)
                           ltac:(repeat constructor; vm_compute; discriminate)
                           ltac:(repeat constructor; discriminate)))
             [headlessGpu] exampleGpu [] eq_refl).
    + constructor; [exact headlessGpu_unsuitable | constructor].
    + exact exampleGpu_suitable.
  - vm_compute. reflexivity.
Defined.

(** *** What the swap chain is created with *)

Lemma chooseSwapSurfaceFormat_anywhere {St St'} (l : list VkSurfaceFormatKHR)
    (s s1 : St) (s' : St') (chosen : VkSurfaceFormatKHR) :
  LveSwapChain.chooseSwapSurfaceFormat l s = Ok (chosen, s1) ->
  LveSwapChain.chooseSwapSurfaceFormat l s' = Ok (chosen, s').
Proof.
  unfold LveSwapChain.chooseSwapSurfaceFormat, at_.
  destruct (LveSwapChain.findPreferredFormat l); [intros [= <- _]; reflexivity|].
  destruct (nth_Z l 0); [intros [= <- _]; reflexivity | discriminate].
Qed.

Lemma createSwapChain_createInfo (w w' : World) (sc0 sc' : LveSwapChain.t) (u : unit) :
  LveSwapChain.createSwapChain (w, sc0) = Ok (u, (w', sc')) ->
  let support := drvSupport (driver w) (length (calls w)) in
  let indices := drvQueueFamilies (driver w) (length (calls w) + 2) in
  let concurrent := negb (graphicsFamily indices =? presentFamily indices) in
  exists surfaceFormat presentMode c swapchain,
    LveSwapChain.chooseSwapSurfaceFormat (formats support) tt = Ok (surfaceFormat, tt)
    /\ LveSwapChain.chooseSwapPresentMode (presentModes support)
         (ticked GetSwapChainSupport w)
       = Ok (presentMode, ticked c (ticked GetSwapChainSupport w))
    /\ calls w'
       = calls w
         ++ [ GetSwapChainSupport; c; FindPhysicalQueueFamilies;
              VkCreateSwapchainKHR
                {| ci_minImageCount :=
                     LveSwapChain.requestedImageCount (capabilities support);
                   ci_imageFormat := format surfaceFormat;
                   ci_imageColorSpace := colorSpace surfaceFormat;
                   ci_imageExtent :=
                     LveSwapChain.chooseSwapExtent (LveSwapChain.windowExtent sc0)
                                                   (capabilities support);
                   ci_imageSharingMode :=
                     if concurrent then VK_SHARING_MODE_CONCURRENT
                     else VK_SHARING_MODE_EXCLUSIVE;
                   ci_queueFamilyIndexCount := if concurrent then 2 else 0;
                   ci_preTransform := currentTransform (capabilities support);
                   ci_presentMode := presentMode;
                   ci_oldSwapchain :=
                     match LveSwapChain.oldSwapChain sc0 with
                     | None => VK_NULL_HANDLE
                     | Some old => LveSwapChain.swapChain old
                     end |};
              VkGetSwapchainImagesKHR swapchain;
              VkGetSwapchainImagesKHR swapchain ]
    /\ LveSwapChain.swapChainImageFormat sc' = format surfaceFormat
    /\ LveSwapChain.swapChainExtent sc'
       = LveSwapChain.chooseSwapExtent (LveSwapChain.windowExtent sc0) (capabilities support).
Proof.
  intros H support indices concurrent. unfold LveSwapChain.createSwapChain in H.
  apply bind_Ok in H as (support' & s1 & Hsupport & H).
  apply onFst_Ok in Hsupport as (w1 & [= <- <-] & ->).
  apply bind_Ok in H as (surfaceFormat & s2 & Hformat & H).
  pose proof (chooseSwapSurfaceFormat_anywhere _ _ _ tt _ Hformat) as Hchosen.
  apply chooseSwapSurfaceFormat_Ok in Hformat as ->.
  apply bind_Ok in H as (presentMode & s3 & Hmode & H).
  apply onFst_Ok in Hmode as (w2 & Hmode & ->).
  pose proof Hmode as [c ->]%chooseSwapPresentMode_Ok.
  run_object H. destruct a0 as [result swapchain]. cbn [fst snd] in *.
  injection Hcall as <- <-.
  apply vkCreate_Ok in Hcall0 as (_ & Hd & Hc & _).
  injection Hcall1 as <- <-.
  unfold LveSwapChain.vkGetSwapchainImagesKHR_images in Hcall2.
  apply bind_Ok in Hcall2 as (t & w5 & [_ ->]%call_Ok & Hcall2).
  apply newHandles_Ok in Hcall2 as (Hlen & Hd6 & Hc6 & _).
  apply update_Ok in H as [= -> ->].
  exists surfaceFormat, presentMode, c, swapchain.
  split; [exact Hchosen|]. split; [exact Hmode|].
  split.
  - rewrite Hc6. cbn [driver calls ticked set_fences set_calls].
    rewrite Hc. cbn [driver calls ticked set_fences set_calls].
    rewrite <- !app_assoc. cbn [app].
    rewrite !length_app. cbn [length].
    replace (length (calls w) + 1 + 1)%nat with (length (calls w) + 2)%nat by lia.
    reflexivity.
  - destruct sc0. split; reflexivity.
Qed.

Lemma createDepthResources_format (w w' : World) (sc0 sc' : LveSwapChain.t) (u : unit) :
  LveSwapChain.createDepthResources (w, sc0) = Ok (u, (w', sc')) ->
  exists depthFormat w1,
    LveSwapChain.findDepthFormat w = Ok (depthFormat, w1)
    /\ exists images memorys views,
         sc' = LveSwapChain.set_depthImageViews views
                 (LveSwapChain.set_depthImageMemorys memorys
                    (LveSwapChain.set_depthImages images
                       (LveSwapChain.set_swapChainDepthFormat depthFormat sc0))).
Proof.
  intros H. unfold LveSwapChain.createDepthResources in H. run_object H.
  exists a, w0. split; [exact Hcall|].
  pattern sc'. revert H. apply stable_anyFault_Ok.
  - construction_auto;
      intros sc (images & memorys & views & ->); destruct sc0; unfold_fields; repeat eexists.
  - repeat eexists.
Qed.

Lemma findDepthFormat_candidate (w w' : World) (depthFormat : VkFormat) :
  LveSwapChain.findDepthFormat w = Ok (depthFormat, w') ->
  depthFormat ∈ [VK_FORMAT_D32_SFLOAT; VK_FORMAT_D32_SFLOAT_S8_UINT;
                 VK_FORMAT_D24_UNORM_S8_UINT].
Proof.
  intros H. unfold LveSwapChain.findDepthFormat in H.
  pose proof (findSupportedFormat_run
                [VK_FORMAT_D32_SFLOAT; VK_FORMAT_D32_SFLOAT_S8_UINT;
                 VK_FORMAT_D24_UNORM_S8_UINT]
                VK_IMAGE_TILING_OPTIMAL VK_FORMAT_FEATURE_DEPTH_STENCIL_ATTACHMENT_BIT w)
    as Hrun.
  rewrite H in Hrun. destruct Hrun as (before & rest & -> & _).
  apply elem_of_app. right. apply elem_of_cons. left. reflexivity.
Qed.

(** X16.  Either constructor, when it succeeds, has created the swap chain
    with what the selection functions chose from the support the device
    reported: the format and colour space of chooseSwapSurfaceFormat, the
    extent of chooseSwapExtent for the window extent it was given, the mode
    of chooseSwapPresentMode, the surface's current transform, concurrent
    sharing between two queue families exactly when the graphics and the
    present family differ, and the handle of the previous swap chain or
    the null handle.  The object keeps that format and extent, and its depth
    format is one of the three candidates of findDepthFormat. *)
Theorem construction_creates_what_was_chosen
    (extent : VkExtent2D) (previous : option LveSwapChain.t)
    (w w' : World) (sc : LveSwapChain.t) :
  constructedBy extent previous w sc w' ->
  let support := drvSupport (driver w) (length (calls w)) in
  let indices := drvQueueFamilies (driver w) (length (calls w) + 2) in
  let concurrent := negb (graphicsFamily indices =? presentFamily indices) in
  exists surfaceFormat presentMode w1,
    LveSwapChain.chooseSwapSurfaceFormat (formats support) tt = Ok (surfaceFormat, tt)
    /\ LveSwapChain.chooseSwapPresentMode (presentModes support)
         (ticked GetSwapChainSupport w)
       = Ok (presentMode, w1)
    /\ calls w' !! (length (calls w) + 3)%nat
       = Some (VkCreateSwapchainKHR
                 {| ci_minImageCount :=
                      LveSwapChain.requestedImageCount (capabilities support);
                    ci_imageFormat := format surfaceFormat;
                    ci_imageColorSpace := colorSpace surfaceFormat;
                    ci_imageExtent :=
                      LveSwapChain.chooseSwapExtent extent (capabilities support);
                    ci_imageSharingMode :=
                      if concurrent then VK_SHARING_MODE_CONCURRENT
                      else VK_SHARING_MODE_EXCLUSIVE;
                    ci_queueFamilyIndexCount := if concurrent then 2 else 0;
                    ci_preTransform := currentTransform (capabilities support);
                    ci_presentMode := presentMode;
                    ci_oldSwapchain :=
                      match previous with
                      | None => VK_NULL_HANDLE
                      | Some old => LveSwapChain.swapChain old
                      end |})
    /\ LveSwapChain.getSwapChainImageFormat sc = format surfaceFormat
    /\ LveSwapChain.getSwapChainExtent sc
       = LveSwapChain.chooseSwapExtent extent (capabilities support)
    /\ LveSwapChain.swapChainDepthFormat sc
       ∈ [VK_FORMAT_D32_SFLOAT; VK_FORMAT_D32_SFLOAT_S8_UINT;
          VK_FORMAT_D24_UNORM_S8_UINT].
Proof.
  intros H support indices concurrent.
  apply constructedBy_init in H as (sc1 & H & ->).
  unfold LveSwapChain.init in H.
  apply bind_Ok in H as ([] & [w1 s1] & H1 & H).
  apply bind_Ok in H as ([] & [w2 s2] & H2 & H).
  apply bind_Ok in H as ([] & [w3 s3] & H3 & H).
  apply bind_Ok in H as ([] & [w4 s4] & H4 & H).
  apply bind_Ok in H as ([] & [w5 s5] & H5 & H6).
  assert (Hrest : stable (holds (fun w0 => driver w0 = driver w1
                                          /\ calls w1 `prefix_of` calls w0)
                                (fun _ => True)) anyFault
                    (LveSwapChain.createImageViews ;;; LveSwapChain.createRenderPass ;;;
                     LveSwapChain.createDepthResources ;;;
                     LveSwapChain.createFramebuffers ;;;
                     LveSwapChain.createSyncObjects)%m).
  { pose proof (Persistent_log (driver w1) (calls w1)) as HK.
    pose proof AllowsConstruction_any as HE.
    apply stable_bind; [apply (createImageViews_persistent _ _ HK HE) | intros _].
    apply stable_bind; [apply (createRenderPass_persistent _ _ HK HE) | intros _].
    apply stable_bind; [apply (createDepthResources_persistent _ _ HK HE) | intros _].
    apply stable_bind; [apply (createFramebuffers_persistent _ _ HK HE) | intros _].
    apply (createSyncObjects_persistent _ _ HK HE). }
  assert (Hlog : driver w' = driver w1 /\ calls w1 `prefix_of` calls w').
  { apply (stable_world_Ok _ _ w1 w' s1 sc1 tt Hrest); [split; reflexivity|].
    unfold bind. rewrite H2, H3, H4, H5. exact H6. }
  destruct Hlog as [_ Hprefix].
  apply createSwapChain_createInfo in H1
    as (surfaceFormat & presentMode & c & swapchain & Hformat & Hmode & Hcalls
        & Himage & Hextent).
  apply createImageViews_Ok in H2 as (views & -> & _).
  apply createRenderPass_Ok in H3 as (pass & ->).
  apply createDepthResources_format in H4
    as (depthFormat & w6 & Hdepth%findDepthFormat_candidate
        & dimages & dmemorys & dviews & ->).
  apply createFramebuffers_Ok in H5 as (framebuffers & -> & _).
  apply createSyncObjects_Ok in H6
    as (available & finished & fence0 & fence1 & -> & _).
  exists surfaceFormat, presentMode, (ticked c (ticked GetSwapChainSupport w)).
  split; [exact Hformat|]. split; [exact Hmode|]. split.
  - eapply prefix_lookup_Some; [|exact Hprefix]. rewrite Hcalls.
    rewrite lookup_app_r by lia.
    replace (length (calls w) + 3 - length (calls w))%nat with 3%nat by lia.
    reflexivity.
  - unfold LveSwapChain.getSwapChainImageFormat, LveSwapChain.getSwapChainExtent.
    destruct s1. cbn in Himage, Hextent |- *. auto.
Qed.

Lemma construction_creates_witness :
  exists sc w',
    LveSwapChain.new exampleExtent calmWorld = Ok (sc, w')
    /\ calls w' !! 3%nat
       = Some (VkCreateSwapchainKHR
                 {| ci_minImageCount := 3;
                    ci_imageFormat := 44;
                    ci_imageColorSpace := 0;
                    ci_imageExtent := {| width := 800; height := 600 |};
                    ci_imageSharingMode := VK_SHARING_MODE_EXCLUSIVE;
                    ci_queueFamilyIndexCount := 0;
                    ci_preTransform := 1;
                    ci_presentMode := VK_PRESENT_MODE_FIFO_KHR;
                    ci_oldSwapchain := VK_NULL_HANDLE |})
    /\ LveSwapChain.getSwapChainImageFormat sc = 44
    /\ LveSwapChain.getSwapChainExtent sc = {| width := 800; height := 600 |}.
Proof.
  destruct (LveSwapChain.new exampleExtent calmWorld) as [[sc w']|f] eqn:Hrun.
  2:{ vm_compute in Hrun. discriminate Hrun. }
  exists sc, w'. split; [reflexivity|].
  destruct (construction_creates_what_was_chosen exampleExtent None calmWorld w' sc
              (or_intror (conj eq_refl Hrun)))
    as (surfaceFormat & presentMode & w1 & Hformat & Hmode & Hcall & Himage & Hextent & _).
  vm_compute in Hformat. injection Hformat as <-.
  vm_compute in Hmode. injection Hmode as <- _.
  split; [exact Hcall|]. split; [exact Himage | exact Hextent].
Defined.

(** *** The synchronization objects over the life of a swap chain *)


